(** * CryptoTaxCalculator: FIFO lot matching and CSV normalisation

    A shallow embedding of [tax_calculations.py], [crypto_tax_calculator.py]
    and [csv_parser.py].

    Conventions of the embedding:
    - a pandas [Timestamp] is its integer value in nanoseconds ([Z]);
      [Timedelta.days] is the floor division by the length of a day;
    - Python floats are idealised as exact rationals ([Q]); equality of
      amounts is [Qeq] ([==]);
    - a DataFrame is the list of its rows, in index order;
    - a Python dict with a fixed key set is a record, one module per dict
      so that the keys keep their names;
    - the mutable deque [fifo_queue] is threaded through the functions that
      mutate it: they take the queue and return the new queue. *)

From Stdlib Require Import ZArith QArith Qminmax Lqa List String Ascii Bool Lia.
From Stdlib Require Import Permutation Sorted.
From Equations Require Import Equations.
Import ListNotations.

Local Open Scope Z_scope.
Local Open Scope Q_scope.

(** ** Numbers and dates *)

Definition Qltb (x y : Q) : bool := negb (Qle_bool y x).

(** Python's [max(a, b)]: the first argument unless the second is greater. *)
Definition py_max (a b : Q) : Q := if Qltb a b then b else a.

Definition ns_per_day : Z := 86400000000000%Z.

(** [Timedelta.days] of the difference of two timestamps. *)
Definition days (delta : Z) : Z := (delta / ns_per_day)%Z.

(** [str.lower()] on ASCII text. *)
Definition lower_ascii (c : ascii) : ascii :=
  let n := nat_of_ascii c in
  if (andb (Nat.leb 65 n) (Nat.leb n 90)) then ascii_of_nat (n + 32) else c.

Fixpoint lower (s : string) : string :=
  match s with
  | EmptyString => EmptyString
  | String c s' => String (lower_ascii c) (lower s')
  end.

(** ** Data model *)

(** A row of the canonical DataFrame. *)
Module Tx.
Record t : Type := mk
  { date : Z; symbol : string; type : string; quantity : Q; price : Q }.
End Tx.

(** The [lot] dict of [_calculate_symbol_fifo]. *)
Module Lot.
Record t : Type := mk
  { symbol : string; date : Z; quantity : Q; price : Q; cost_basis : Q }.
End Lot.

Inductive term : Type := Long_term | Short_term.

(** An entry of [transactions_detail]. *)
Module Detail.
Record t : Type := mk
  { symbol : string;
    sale_date : Z;
    purchase_date : Z;
    quantity : Q;
    proceeds : Q;
    cost_basis : Q;
    gain_loss : Q;
    holding_period_days : Z;
    term_type : term }.
End Detail.

(** An entry of [remaining_holdings] / [holdings_summary]. *)
Module Holding.
Record t : Type := mk
  { symbol : string;
    quantity : Q;
    avg_cost : Q;
    total_cost_basis : Q;
    purchase_date : Z }.
End Holding.

(** The [results] dict of [_process_sale]. *)
Module Sale.
Record t : Type := mk
  { short_term_gain : Q;
    long_term_gain : Q;
    transactions_detail : list Detail.t }.
End Sale.

(** ** [TaxCalculations] *)

Definition short_term_tax_rate : Q := 22 # 100.
Definition long_term_tax_rate : Q := 15 # 100.
Definition long_term_threshold_days : Z := 365%Z.

(** *** [_process_sale] *)

(** The variables live across one iteration of the [while] loop. *)
Record sale_state : Type := mk_sale_state
  { results : Sale.t;
    fifo_queue : list Lot.t;
    remaining_to_sell : Q }.

(** [remaining_to_sell > 0 and fifo_queue] *)
Definition sale_cond (st : sale_state) : bool :=
  Qltb 0 (remaining_to_sell st) &&
  match fifo_queue st with [] => false | _ :: _ => true end.

Section ProcessSale.

Variable symbol : string.
Variable sale_date : Z.
Variable sale_price : Q.

(** Lines 136-164, once [quantity_sold], [cost_basis] and the queue are
    settled by the branch taken. *)
Definition record_sale (st : sale_state) (oldest_lot : Lot.t)
    (quantity_sold cost_basis : Q) (queue' : list Lot.t) : sale_state :=
  let proceeds := quantity_sold * sale_price in
  let gain_loss := proceeds - cost_basis in
  let holding_period := days (sale_date - Lot.date oldest_lot) in
  let is_long_term := (long_term_threshold_days <=? holding_period)%Z in
  let r := results st in
  let detail term_type :=
    Detail.mk symbol sale_date (Lot.date oldest_lot) quantity_sold proceeds
              cost_basis gain_loss holding_period term_type in
  let r' :=
    if is_long_term then
      Sale.mk (Sale.short_term_gain r) (Sale.long_term_gain r + gain_loss)
              (Sale.transactions_detail r ++ [detail Long_term])
    else
      Sale.mk (Sale.short_term_gain r + gain_loss) (Sale.long_term_gain r)
              (Sale.transactions_detail r ++ [detail Short_term]) in
  mk_sale_state r' queue' (remaining_to_sell st - quantity_sold).

(** One iteration of the [while] loop (lines 119-164). *)
Definition sale_body (st : sale_state) : sale_state :=
  match fifo_queue st with
  | [] => st
  | oldest_lot :: rest =>
      if Qle_bool (Lot.quantity oldest_lot) (remaining_to_sell st) then
        (* sell entire lot *)
        record_sale st oldest_lot (Lot.quantity oldest_lot)
                    (Lot.cost_basis oldest_lot) rest
      else
        (* partial sale of lot *)
        let quantity_sold := remaining_to_sell st in
        let cost_basis :=
          (Lot.cost_basis oldest_lot / Lot.quantity oldest_lot) * quantity_sold in
        let lot' :=
          Lot.mk (Lot.symbol oldest_lot) (Lot.date oldest_lot)
                 (Lot.quantity oldest_lot - quantity_sold)
                 (Lot.price oldest_lot)
                 (Lot.cost_basis oldest_lot - cost_basis) in
        record_sale st oldest_lot quantity_sold cost_basis (lot' :: rest)
  end.

(** The loop variant: a full sale shortens the queue, a partial sale leaves
    nothing to sell. *)
Definition sale_measure (st : sale_state) : nat :=
  2 * List.length (fifo_queue st) + (if Qltb 0 (remaining_to_sell st) then 1 else 0).

(** Keeps the equation of a test in scope of the branch it selects. *)
Definition inspect {A : Type} (a : A) : {b : A | a = b} := exist _ a eq_refl.

Equations? sale_loop (st : sale_state) : sale_state by wf (sale_measure st) lt :=
  sale_loop st with inspect (sale_cond st) := {
    | exist _ true Hc => sale_loop (sale_body st)
    | exist _ false _ => st }.
Proof.
  revert Hc. unfold sale_cond, sale_body, sale_measure.
  destruct (fifo_queue st) as [|l rest]; intro H.
  - rewrite andb_false_r in H. discriminate.
  - rewrite andb_true_r in H. rewrite H.
    destruct (Qle_bool (Lot.quantity l) (remaining_to_sell st));
      cbn [fifo_queue remaining_to_sell record_sale List.length].
    + match goal with |- context [if ?b then _ else _] => destruct b end; lia.
    + replace (Qltb 0 (remaining_to_sell st - remaining_to_sell st))
        with false; [lia|].
      symmetry. unfold Qltb. apply negb_false_iff, Qle_bool_iff. lra.
Qed.

(** [_process_sale]: the results dict, and the queue as the loop left it. *)
Definition _process_sale (queue : list Lot.t) (sale_quantity : Q)
  : Sale.t * list Lot.t :=
  let st := sale_loop (mk_sale_state (Sale.mk 0 0 []) queue sale_quantity) in
  (results st, fifo_queue st).

End ProcessSale.

(** *** [_calculate_symbol_fifo] *)

(** The [results] dict of [_calculate_symbol_fifo]. *)
Module SymbolResults.
Record t : Type := mk
  { short_term_gain : Q;
    long_term_gain : Q;
    transactions_detail : list Detail.t;
    remaining_holdings : list Holding.t }.
End SymbolResults.

(** What the [for] loop over the rows carries: the running totals, the
    details so far, and the deque. *)
Record symbol_state : Type := mk_symbol_state
  { sym_short_term_gain : Q;
    sym_long_term_gain : Q;
    sym_transactions_detail : list Detail.t;
    sym_fifo_queue : list Lot.t }.

(** The lot appended for a buy row (lines 70-76). *)
Definition new_lot (symbol : string) (transaction : Tx.t) : Lot.t :=
  Lot.mk symbol (Tx.date transaction) (Tx.quantity transaction)
         (Tx.price transaction)
         (Tx.quantity transaction * Tx.price transaction).

Definition is_buy (transaction : Tx.t) : bool :=
  String.eqb (lower (Tx.type transaction)) "buy".

Definition is_sell (transaction : Tx.t) : bool :=
  String.eqb (lower (Tx.type transaction)) "sell".

(** The body of the [for] loop (lines 68-91). *)
Definition symbol_step (symbol : string) (st : symbol_state)
    (transaction : Tx.t) : symbol_state :=
  if is_buy transaction then
    mk_symbol_state (sym_short_term_gain st) (sym_long_term_gain st)
                    (sym_transactions_detail st)
                    (sym_fifo_queue st ++ [new_lot symbol transaction])
  else if is_sell transaction then
    let '(sale_results, queue') :=
      _process_sale symbol (Tx.date transaction) (Tx.price transaction)
                    (sym_fifo_queue st) (Tx.quantity transaction) in
    mk_symbol_state
      (sym_short_term_gain st + Sale.short_term_gain sale_results)
      (sym_long_term_gain st + Sale.long_term_gain sale_results)
      (sym_transactions_detail st ++ Sale.transactions_detail sale_results)
      queue'
  else st.

Definition symbol_loop (symbol : string) (st : symbol_state)
    (symbol_df : list Tx.t) : symbol_state :=
  fold_left (symbol_step symbol) symbol_df st.

Definition holding_of (lot : Lot.t) : Holding.t :=
  Holding.mk (Lot.symbol lot) (Lot.quantity lot) (Lot.price lot)
             (Lot.cost_basis lot) (Lot.date lot).

(** Lines 94-102: the lots left with a positive quantity. *)
Definition remaining_holdings_of (queue : list Lot.t) : list Holding.t :=
  map holding_of (filter (fun lot => Qltb 0 (Lot.quantity lot)) queue).

Definition _calculate_symbol_fifo (symbol : string) (symbol_df : list Tx.t)
  : SymbolResults.t :=
  let st := symbol_loop symbol (mk_symbol_state 0 0 [] []) symbol_df in
  SymbolResults.mk (sym_short_term_gain st) (sym_long_term_gain st)
                   (sym_transactions_detail st)
                   (remaining_holdings_of (sym_fifo_queue st)).

(** *** [calculate_fifo_taxes] *)

(** The [results] dict of [calculate_fifo_taxes]. *)
Module Report.
Record t : Type := mk
  { short_term_gain : Q;
    long_term_gain : Q;
    estimated_tax : Q;
    transactions_detail : list Detail.t;
    holdings_summary : list Holding.t }.
End Report.

(** [Series.unique()]: the distinct values, in order of first appearance. *)
Fixpoint unique (l : list string) : list string :=
  match l with
  | [] => []
  | x :: r => x :: filter (fun y => negb (String.eqb x y)) (unique r)
  end.

Definition sorted_by_date (df : list Tx.t) : Prop :=
  StronglySorted (fun a b => (Tx.date a <= Tx.date b)%Z) df.

Section Engine.

(** [DataFrame.sort_values('date')], a pandas function. The call leaves
    [kind] at its default (quicksort), for which pandas promises a sorted
    rearrangement of the rows and nothing on the order of rows with equal
    dates. The definitions take it as a parameter; the properties below
    assume that contract of it and no more. *)
Variable sort_values : list Tx.t -> list Tx.t.

(** [df[df['symbol'] == symbol].sort_values('date')] *)
Definition symbol_df_of (df : list Tx.t) (symbol : string) : list Tx.t :=
  sort_values (filter (fun r => String.eqb (Tx.symbol r) symbol) df).

(** The body of the loop over the symbols (lines 32-42). *)
Definition aggregate (df : list Tx.t) (results : Report.t) (symbol : string)
  : Report.t :=
  let symbol_results := _calculate_symbol_fifo symbol (symbol_df_of df symbol) in
  Report.mk
    (Report.short_term_gain results + SymbolResults.short_term_gain symbol_results)
    (Report.long_term_gain results + SymbolResults.long_term_gain symbol_results)
    (Report.estimated_tax results)
    (Report.transactions_detail results
       ++ SymbolResults.transactions_detail symbol_results)
    (match SymbolResults.remaining_holdings symbol_results with
     | [] => Report.holdings_summary results
     | _ :: _ =>
         Report.holdings_summary results
           ++ SymbolResults.remaining_holdings symbol_results
     end).

Definition calculate_fifo_taxes (df : list Tx.t) : Report.t :=
  let symbols := unique (map Tx.symbol df) in
  let results := fold_left (aggregate df) symbols (Report.mk 0 0 0 [] []) in
  let short_term_tax :=
    py_max 0 (Report.short_term_gain results) * short_term_tax_rate in
  let long_term_tax :=
    py_max 0 (Report.long_term_gain results) * long_term_tax_rate in
  Report.mk (Report.short_term_gain results) (Report.long_term_gain results)
            (short_term_tax + long_term_tax)
            (Report.transactions_detail results)
            (Report.holdings_summary results).

(** ** [CryptoTaxCalculator] *)

(** [get_tax_rate_info] (the note is left out). *)
Record tax_rate_info : Type := mk_tax_rate_info
  { short_term_rate : Q; long_term_rate : Q; threshold_days : Z }.

Definition get_tax_rate_info : tax_rate_info :=
  mk_tax_rate_info short_term_tax_rate long_term_tax_rate
                   long_term_threshold_days.

(** What [calculate_taxes] returns: the report and the metadata added to it. *)
Record tax_results : Type := mk_tax_results
  { report : Report.t;
    calculation_date : Z;
    total_transactions : nat;
    tax_method : string;
    tax_rates : tax_rate_info }.

Definition isin (s : string) (l : list string) : bool :=
  existsb (String.eqb s) l.

Definition valid_types : list string := ["buy"; "sell"]%string.

Definition has_valid_type (r : Tx.t) : bool :=
  isin (lower (Tx.type r)) valid_types.

Definition positive_values (r : Tx.t) : bool :=
  Qltb 0 (Tx.quantity r) && Qltb 0 (Tx.price r).

Definition is_empty {A : Type} (l : list A) : bool :=
  match l with [] => true | _ :: _ => false end.

(** [_validate_input]. The rows are records, so the five columns are always
    there and the missing-columns branch cannot be taken. The parameter [df]
    is rebound twice (lines 62 and 67); the rebinding is local to the
    function: what the caller gets is the boolean. *)
Definition _validate_input (df : list Tx.t) : bool :=
  if is_empty df then false
  else
    let invalid_types :=
      unique (map Tx.type (filter (fun r => negb (has_valid_type r)) df)) in
    let df :=
      if (0 <? List.length invalid_types)%nat
      then filter has_valid_type df else df in
    let df :=
      if existsb (fun r => Qle_bool (Tx.quantity r) 0) df
         || existsb (fun r => Qle_bool (Tx.price r) 0) df
      then filter positive_values df else df in
    if is_empty df then false else true.

(** [calculate_taxes]; [now] is what [pd.Timestamp.now()] returns. *)
Definition calculate_taxes (now : Z) (df : list Tx.t) : option tax_results :=
  if negb (_validate_input df) then None
  else
    let results := calculate_fifo_taxes df in
    Some (mk_tax_results results now (List.length df) "FIFO" get_tax_rate_info).

End Engine.

(** An instance of [sort_values] to run the examples with: an insertion sort
    on the date. A row goes before the first row that [before] lets it
    pass. *)
Fixpoint insert_by (before : Z -> Z -> bool) (r : Tx.t) (l : list Tx.t)
  : list Tx.t :=
  match l with
  | [] => [r]
  | x :: l' =>
      if before (Tx.date r) (Tx.date x) then r :: l
      else x :: insert_by before r l'
  end.

Definition sort_by (before : Z -> Z -> bool) (df : list Tx.t) : list Tx.t :=
  fold_right (insert_by before) [] df.

(** Rows with equal dates keep their order. *)
Definition sort_by_date : list Tx.t -> list Tx.t := sort_by Z.leb.

(** *** [sort_values] as the program calls it

    [df.sort_values('date')] is called with the default [kind='quicksort']:
    the rows are taken in the order that [argsort(kind='quicksort')] gives
    for the column of dates. This is numpy's [aquicksort], an introsort on
    the array [tosort] of row positions, comparing the dates [v] they point
    to: a segment [pl..pr] with [pr - pl > 16] is partitioned around the
    median of three, a shorter one is sorted by insertion, and a segment that
    has used up its depth is sorted by [aheapsort]. The column has no NaT
    here ([_parse_dates] ends with [dropna]), so [less] is [<] on the
    nanoseconds. *)






Section Argsort.

Variable v : list Z.

















End Argsort.



(** ** [CSVParser] *)

(** A cell of the DataFrame that [pd.read_csv] returns: its text, or [None]
    for a missing value (NaN). Strings are byte strings (UTF-8). *)
Definition cell : Type := option string.

(** [astype(str)] *)
Definition astype_str (c : cell) : string :=
  match c with Some s => s | None => "nan"%string end.

Record RawTable : Type := mk_RawTable
  { columns : list string; rows : list (list cell) }.

Inductive parse_error : Type :=
| Empty_file                               (* "The uploaded file is empty." *)
| Missing_columns (missing : list string)  (* "Missing required columns: ..." *)
| Read_error                               (* "Error reading CSV file: ..." *)
| Date_error.                              (* "Could not parse date column. ..." *)

(** [parse_csv] returns a DataFrame, or [None] after one of the messages. *)
Inductive parse_result : Type :=
| Parsed (df : list Tx.t)
| Failed (e : parse_error).

Definition common_date_formats : list string :=
  [ "%Y-%m-%d %H:%M:%S"; "%Y-%m-%d %H:%M:%S.%f"; "%Y-%m-%d";
    "%m/%d/%Y %H:%M:%S"; "%m/%d/%Y"; "%d/%m/%Y %H:%M:%S"; "%d/%m/%Y";
    "%Y-%m-%dT%H:%M:%S.%fZ"; "%Y-%m-%dT%H:%M:%SZ"; "%Y-%m-%dT%H:%M:%S" ]%string.

Definition column_mappings : list (string * string) :=
  [ ("timestamp", "date"); ("time", "date"); ("datetime", "date");
    ("created_at", "date"); ("trade_time", "date"); ("order_time", "date");
    ("coin", "symbol"); ("asset", "symbol"); ("currency", "symbol");
    ("pair", "symbol"); ("base_asset", "symbol"); ("product", "symbol");
    ("side", "type"); ("transaction_type", "type"); ("order_type", "type");
    ("trade_type", "type"); ("action", "type");
    ("amount", "quantity"); ("size", "quantity"); ("volume", "quantity");
    ("filled_size", "quantity"); ("base_amount", "quantity"); ("qty", "quantity");
    ("rate", "price"); ("unit_price", "price"); ("price_per_unit", "price");
    ("fill_price", "price"); ("executed_price", "price"); ("avg_price", "price")
  ]%string.

Definition type_mappings : list (string * string) :=
  [ ("purchase", "buy"); ("bought", "buy"); ("acquire", "buy");
    ("deposit", "buy"); ("sold", "sell"); ("sale", "sell");
    ("dispose", "sell"); ("withdrawal", "sell") ]%string.

Definition required_columns : list string :=
  ["date"; "symbol"; "type"; "quantity"; "price"]%string.

(** *** String helpers ([str.strip], [str.upper], [re.sub]) on ASCII *)

Definition is_space (c : ascii) : bool :=
  let n := nat_of_ascii c in
  Nat.eqb n 32 || (Nat.leb 9 n && Nat.leb n 13) || (Nat.leb 28 n && Nat.leb n 31).

Fixpoint lstrip (s : string) : string :=
  match s with
  | EmptyString => EmptyString
  | String c r => if is_space c then lstrip r else s
  end.

Fixpoint rstrip (s : string) : string :=
  match s with
  | EmptyString => EmptyString
  | String c r =>
      match rstrip r with
      | EmptyString => if is_space c then EmptyString else String c EmptyString
      | r' => String c r'
      end
  end.

Definition strip (s : string) : string := rstrip (lstrip s).

Definition upper_ascii (c : ascii) : ascii :=
  let n := nat_of_ascii c in
  if (andb (Nat.leb 97 n) (Nat.leb n 122)) then ascii_of_nat (n - 32) else c.

Fixpoint upper (s : string) : string :=
  match s with
  | EmptyString => EmptyString
  | String c s' => String (upper_ascii c) (upper s')
  end.

Definition is_newline (c : ascii) : bool := Nat.eqb (nat_of_ascii c) 10.

Definition is_slash_or_dash (c : ascii) : bool :=
  Nat.eqb (nat_of_ascii c) 47 || Nat.eqb (nat_of_ascii c) 45.

(** [re.sub(r'[/-]QUOTE.*', '', s)]: from a slash or dash followed by
    [quote], drop up to the end of the line. [dropping] says that the scan is
    inside a match. *)
Fixpoint strip_quote (quote : string) (dropping : bool) (s : string) : string :=
  match s with
  | EmptyString => EmptyString
  | String c r =>
      if dropping then
        if is_newline c then String c (strip_quote quote false r)
        else strip_quote quote true r
      else if is_slash_or_dash c && String.prefix quote r then
        strip_quote quote true r
      else String c (strip_quote quote false r)
  end.

Definition pound_sign : string :=
  String (ascii_of_nat 194) (String (ascii_of_nat 163) EmptyString).

Definition euro_sign : string :=
  String (ascii_of_nat 226)
    (String (ascii_of_nat 130) (String (ascii_of_nat 172) EmptyString)).

(** [re.sub(r'[$,€£]', '', s)]; [skip] counts the bytes still to drop of a
    sign that takes several. *)
Fixpoint strip_currency (skip : nat) (s : string) : string :=
  match s with
  | EmptyString => EmptyString
  | String c r =>
      match skip with
      | S k => strip_currency k r
      | O =>
          if Nat.eqb (nat_of_ascii c) 36 || Nat.eqb (nat_of_ascii c) 44
          then strip_currency 0 r
          else if String.prefix pound_sign s then strip_currency 1 r
          else if String.prefix euro_sign s then strip_currency 2 r
          else String c (strip_currency 0 r)
      end
  end.

Fixpoint lookup (k : string) (m : list (string * string)) : option string :=
  match m with
  | [] => None
  | (k', v) :: m' => if String.eqb k k' then Some v else lookup k m'
  end.

(** [Series.replace(mapping)]: a value that is a key is replaced. *)
Definition replace (m : list (string * string)) (s : string) : string :=
  match lookup s m with Some v => v | None => s end.

(** *** The rows between the steps of [parse_csv] *)

(** A row once the five canonical columns are located; other columns of
    the file ride along in the DataFrame and are not read by any step. *)
Module Raw.
Record t : Type := mk
  { date : cell; symbol : cell; type : cell; quantity : cell; price : cell }.
End Raw.

(** A row after the value cleaning of [_clean_data]: [symbol] and [type] went
    through [astype(str)] and are never missing; a number that did not parse
    is NaN ([None]). *)
Module Cleaned.
Record t : Type := mk
  { date : cell; symbol : string; type : string;
    quantity : option Q; price : option Q }.
End Cleaned.

(** A row that went through [dropna] in [_clean_data]; the date is still
    the text read from the file. *)
Module Kept.
Record t : Type := mk
  { date : string; symbol : string; type : string; quantity : Q; price : Q }.
End Kept.

(** *** [_standardize_columns], [_validate_columns] *)

(** [df.rename(columns={old_name: new_name})] under
    [if old_name in df.columns]. *)
Definition rename_column (cols : list string) (m : string * string)
  : list string :=
  let '(old_name, new_name) := m in
  if isin old_name cols
  then map (fun c => if String.eqb c old_name then new_name else c) cols
  else cols.

Definition _standardize_columns (df : RawTable) : RawTable :=
  let cols := map (fun c => strip (lower c)) (columns df) in
  mk_RawTable (fold_left rename_column column_mappings cols) (rows df).

Definition missing_columns (df : RawTable) : list string :=
  filter (fun col => negb (isin col (columns df))) required_columns.

Definition _validate_columns (df : RawTable) : bool :=
  is_empty (missing_columns df).

Fixpoint index_of (col : string) (cols : list string) : nat :=
  match cols with
  | [] => O
  | c :: cols' => if String.eqb c col then O else S (index_of col cols')
  end.

Definition count_column (col : string) (cols : list string) : nat :=
  List.length (filter (String.eqb col) cols).

(** [df[col]] for one row. *)
Definition get (df : RawTable) (col : string) (row : list cell) : cell :=
  nth (index_of col (columns df)) row None.

Definition raw_rows (df : RawTable) : list Raw.t :=
  map (fun row =>
         Raw.mk (get df "date" row) (get df "symbol" row) (get df "type" row)
                (get df "quantity" row) (get df "price" row))
      (rows df).

(** *** [_clean_data], [_parse_dates], [parse_csv] *)

Definition clean_symbol (c : cell) : string :=
  let s := upper (strip (astype_str c)) in
  let s := strip_quote "USD" false s in
  let s := strip_quote "USDT" false s in
  strip_quote "EUR" false s.

Definition clean_type (c : cell) : string :=
  replace type_mappings (strip (lower (astype_str c))).

Definition is_positive (x : option Q) : bool :=
  match x with Some q => Qltb 0 q | None => false end.

(** [df.dropna(subset=[...])] after the value cleaning. *)
Definition dropna_cleaned (r : Cleaned.t) : option Kept.t :=
  match Cleaned.date r, Cleaned.quantity r, Cleaned.price r with
  | Some d, Some q, Some p =>
      Some (Kept.mk d (Cleaned.symbol r) (Cleaned.type r) q p)
  | _, _, _ => None
  end.

Fixpoint filter_map {A B : Type} (f : A -> option B) (l : list A) : list B :=
  match l with
  | [] => []
  | x :: l' =>
      match f x with
      | Some y => y :: filter_map f l'
      | None => filter_map f l'
      end
  end.

Section Normalizer.

(** The pandas functions the parser calls on values, taken as parameters:
    [pd.to_numeric(errors='coerce')] on the text of a cell ([None] is NaN),
    [pd.to_datetime(format=...)] on one value ([None] when the value does not
    match the format, which makes the call on the column raise),
    [pd.to_datetime(errors='coerce')] on the whole column, as long as the
    column ([None] is NaT; what is read from a value may depend on the other
    values, pandas choosing a format for the column), and [sort_values] as
    for the engine. *)
Variable to_numeric : string -> option Q.
Variable to_datetime_format : string -> string -> option Z.
Variable to_datetime_coerce : list string -> list (option Z).
Variable sort_values : list Tx.t -> list Tx.t.

Definition clean_number (c : cell) : option Q :=
  to_numeric (strip_currency 0 (astype_str c)).

Definition clean_values (r : Raw.t) : Cleaned.t :=
  Cleaned.mk (Raw.date r) (clean_symbol (Raw.symbol r))
             (clean_type (Raw.type r))
             (clean_number (Raw.quantity r)) (clean_number (Raw.price r)).

Definition _clean_data (df : list Raw.t) : list Kept.t :=
  let df := map clean_values df in
  (* remove rows with missing critical data *)
  let df := filter_map dropna_cleaned df in
  (* filter out zero quantities and prices *)
  filter (fun r => Qltb 0 (Kept.quantity r) && Qltb 0 (Kept.price r)) df.

(** The row with its date parsed by [parse]; a row whose date is NaT goes
    with the [dropna] that ends [_parse_dates]. *)
Definition with_date (parse : string -> option Z) (r : Kept.t) : option Tx.t :=
  match parse (Kept.date r) with
  | Some d =>
      Some (Tx.mk d (Kept.symbol r) (Kept.type r) (Kept.quantity r)
                  (Kept.price r))
  | None => None
  end.

(** The rows with the column [dates] assigned to [df['date']], less the rows
    whose date is NaT. *)
Definition with_dates (dates : list (option Z)) (df : list Kept.t) : list Tx.t :=
  filter_map (fun rd => with_date (fun _ => snd rd) (fst rd)) (combine df dates).

(** A format is adopted when the call on the whole column does not raise. *)
Definition format_fits (df : list Kept.t) (date_format : string) : bool :=
  forallb (fun r =>
             match to_datetime_format date_format (Kept.date r) with
             | Some _ => true
             | None => false
             end) df.

(** [_parse_dates]. The fallback call coerces and does not raise on text, so
    [date_parsed] is always set and the function does not return [None] on a
    table of this type. *)
Definition _parse_dates (df : list Kept.t) : option (list Tx.t) :=
  match find (format_fits df) common_date_formats with
  | Some date_format =>
      Some (filter_map (with_date (to_datetime_format date_format)) df)
  | None => Some (with_dates (to_datetime_coerce (map Kept.date df)) df)
  end.

(** With a canonical name on two columns [df[col]] is a DataFrame: the
    string accessors of [_clean_data] raise, and so does [pd.to_datetime]. *)
Definition duplicated (df : RawTable) (col : string) : bool :=
  (1 <? count_column col (columns df))%nat.

Definition parse_csv (df : RawTable) : parse_result :=
  if is_empty (rows df) || is_empty (columns df) then Failed Empty_file
  else
    let df := _standardize_columns df in
    if negb (_validate_columns df) then Failed (Missing_columns (missing_columns df))
    else if existsb (duplicated df) ["symbol"; "type"; "quantity"; "price"]%string
    then Failed Read_error
    else if duplicated df "date" then Failed Date_error
    else
      match _parse_dates (_clean_data (raw_rows df)) with
      | None => Failed Date_error
      | Some df => Parsed (sort_values df)
      end.

End Normalizer.

(** ** Stand-ins for the pandas parsers

    To run [parse_csv] on examples: plain decimal numbers, and dates in the
    format [%Y-%m-%d]. *)

Definition digit_of (c : ascii) : option Z :=
  let n := nat_of_ascii c in
  if Nat.leb 48 n && Nat.leb n 57 then Some (Z.of_nat (n - 48)) else None.

(** The value of a run of digits after [acc], and their number. *)
Fixpoint digits (s : string) (acc : Z) (count : nat) : option (Z * nat) :=
  match s with
  | EmptyString => Some (acc, count)
  | String c s' =>
      match digit_of c with
      | Some d => digits s' (10 * acc + d)%Z (S count)
      | None => None
      end
  end.

Fixpoint split_at_dot (s : string) : string * option string :=
  match s with
  | EmptyString => (EmptyString, None)
  | String c r =>
      if Nat.eqb (nat_of_ascii c) 46 then (EmptyString, Some r)
      else let '(a, b) := split_at_dot r in (String c a, b)
  end.

Definition plain_decimal (s : string) : option Q :=
  let '(negative, body) :=
    match s with
    | String c r => if Nat.eqb (nat_of_ascii c) 45 then (true, r) else (false, s)
    | EmptyString => (false, s)
    end in
  let '(int_part, frac_part) := split_at_dot body in
  match digits int_part 0 0,
        match frac_part with
        | Some f => digits f 0 0
        | None => Some (0%Z, O)
        end with
  | Some (i, ni), Some (f, nf) =>
      if Nat.eqb (ni + nf) 0 then None
      else
        let den := (10 ^ Z.of_nat nf)%Z in
        let v := Qmake (i * den + f) (Z.to_pos den) in
        Some (if negative then - v else v)
  | _, _ => None
  end.

Definition days_in_month (y m : Z) : Z :=
  if (m =? 2)%Z then
    if ((y mod 4 =? 0) && negb (y mod 100 =? 0) || (y mod 400 =? 0))%Z
    then 29%Z else 28%Z
  else if ((m =? 4) || (m =? 6) || (m =? 9) || (m =? 11))%Z then 30%Z
  else 31%Z.

(** Days from 1970-01-01 to the civil date. *)
Definition days_from_civil (y m d : Z) : Z :=
  let y' := (if m <=? 2 then y - 1 else y)%Z in
  let era := (y' / 400)%Z in
  let yoe := (y' - era * 400)%Z in
  let doy := ((153 * ((m + 9) mod 12) + 2) / 5 + d - 1)%Z in
  let doe := (yoe * 365 + yoe / 4 - yoe / 100 + doy)%Z in
  (era * 146097 + doe - 719468)%Z.

Definition iso_date (s : string) : option Z :=
  match digits (String.substring 0 4 s) 0 0,
        digits (String.substring 5 2 s) 0 0,
        digits (String.substring 8 2 s) 0 0 with
  | Some (y, 4%nat), Some (m, 2%nat), Some (d, 2%nat) =>
      if Nat.eqb (String.length s) 10
         && String.eqb (String.substring 4 1 s) "-"
         && String.eqb (String.substring 7 1 s) "-"
         && ((1 <=? m) && (m <=? 12) && (1 <=? d)
             && (d <=? days_in_month y m))%Z
      then Some (days_from_civil y m d * ns_per_day)%Z
      else None
  | _, _, _ => None
  end.

Definition sample_to_numeric : string -> option Q := plain_decimal.

Definition sample_to_datetime_format (date_format s : string) : option Z :=
  if String.eqb date_format "%Y-%m-%d" then iso_date s else None.

Definition sample_to_datetime_coerce : list string -> list (option Z) :=
  map iso_date.

(** [parse_csv] with the stand-ins. *)
Definition sample_parse_csv (sort_values : list Tx.t -> list Tx.t)
  : RawTable -> parse_result :=
  parse_csv sample_to_numeric sample_to_datetime_format
            sample_to_datetime_coerce sort_values.

(** ** Notions used to state the properties *)

(** The rows the policy of [_validate_input] keeps: a type that is buy or
    sell, a positive quantity and a positive price. *)
Definition in_policy (r : Tx.t) : bool :=
  has_valid_type r && positive_values r.


(** * The sale as the specification words it

    Section 4.2, step 4 of the specification, written as a recursion on the
    queue, to compare with the loop of [_process_sale]. After a partial
    consumption the quantity left to sell is [Q - Q], so the repetition ends
    there. *)

Section SpecSale.

Variable symbol : string.
Variable sale_date : Z.
Variable P : Q.

(** The MatchRecord emitted for one lot-consumption event. *)
Definition spec_match (lot : Lot.t) (quantity_matched cost_basis_matched : Q)
  : Detail.t :=
  let proceeds_matched := quantity_matched * P in
  let holding_period_days := days (sale_date - Lot.date lot) in
  Detail.mk symbol sale_date (Lot.date lot) quantity_matched proceeds_matched
            cost_basis_matched (proceeds_matched - cost_basis_matched)
            holding_period_days
            (if (365 <=? holding_period_days)%Z then Long_term else Short_term).

(** The lot left at the front by a partial consumption of [Q]. *)
Definition spec_decrement (lot : Lot.t) (Q : Q) : Lot.t :=
  Lot.mk (Lot.symbol lot) (Lot.date lot) (Lot.quantity lot - Q) (Lot.price lot)
         (Lot.cost_basis lot - (Lot.cost_basis lot / Lot.quantity lot) * Q).

Fixpoint spec_sell (queue : list Lot.t) (Q : Q) : list Detail.t * list Lot.t :=
  match queue with
  | [] => ([], [])
  | lot :: rest =>
      if Qltb 0 Q then
        if Qle_bool (Lot.quantity lot) Q then
          let '(matches, queue') := spec_sell rest (Q - Lot.quantity lot) in
          (spec_match lot (Lot.quantity lot) (Lot.cost_basis lot) :: matches,
           queue')
        else
          ([spec_match lot Q ((Lot.cost_basis lot / Lot.quantity lot) * Q)],
           spec_decrement lot Q :: rest)
      else ([], queue)
  end.

End SpecSale.

(** Sums over lists of amounts. *)
Definition sum_Q {A : Type} (f : A -> Q) (l : list A) : Q :=
  fold_right (fun x acc => f x + acc) 0 l.

Definition is_long_term (d : Detail.t) : bool :=
  match Detail.term_type d with Long_term => true | Short_term => false end.

(** The relation between the fields of a lot: a positive quantity, at its
    unit price. *)
Definition lot_consistent (lot : Lot.t) : Prop :=
  0 < Lot.quantity lot
  /\ Lot.cost_basis lot == Lot.quantity lot * Lot.price lot.

(** The match [d] is that of [lot] taken whole: the lot's purchase date,
    quantity and cost basis. *)
Definition consumes_whole (lot : Lot.t) (d : Detail.t) : Prop :=
  Detail.purchase_date d = Lot.date lot
  /\ Detail.quantity d = Lot.quantity lot
  /\ Detail.cost_basis d = Lot.cost_basis lot.

(** The state in which [_calculate_symbol_fifo] enters its loop. *)
Definition symbol_init : symbol_state := mk_symbol_state 0 0 [] [].

(** The rows of [df] that are not buys. *)
Definition without_buys (df : list Tx.t) : list Tx.t :=
  filter (fun t => negb (is_buy t)) df.

(** The run on a front part of the queue, rows without the buys, against
    the run on the queue extended at the back, all rows. [D] holds of the
    dates of the lots behind the front part. *)
Definition isolated (D : Z -> Prop) (sa sf : symbol_state) : Prop :=
  (sym_fifo_queue sa <> []
   /\ sym_transactions_detail sf = sym_transactions_detail sa
   /\ exists ext,
       sym_fifo_queue sf = sym_fifo_queue sa ++ ext
       /\ Forall (fun lot => D (Lot.date lot)) ext)
  \/ (sym_fifo_queue sa = []
      /\ Forall (fun lot => D (Lot.date lot)) (sym_fifo_queue sf)
      /\ exists extra,
          sym_transactions_detail sf = sym_transactions_detail sa ++ extra
          /\ Forall (fun d => D (Detail.purchase_date d)) extra).

(** The purchase dates matched so far, then the dates of the lots queued. *)
Definition dates (details : list Detail.t) (queue : list Lot.t) : list Z :=
  map Detail.purchase_date details ++ map Lot.date queue.

(** The state of the symbol's loop keeps matched and queued dates in
    order, all of them at most [m]. *)
Definition ordered (m : Z) (st : symbol_state) : Prop :=
  StronglySorted Z.le (dates (sym_transactions_detail st) (sym_fifo_queue st))
  /\ Forall (fun x => (x <= m)%Z)
            (dates (sym_transactions_detail st) (sym_fifo_queue st)).

(** The quantity and the cost of the buy rows of a table. *)
Definition bought_quantity (df : list Tx.t) : Q :=
  sum_Q Tx.quantity (filter is_buy df).

Definition bought_cost (df : list Tx.t) : Q :=
  sum_Q (fun t => Tx.quantity t * Tx.price t) (filter is_buy df).

(** ** The upload handler of [app.py]

    Lines 67-112 of [main]: the file is parsed; a table that is [None] or
    empty is an error; otherwise the table is shown and the taxes are
    calculated, and the results are shown when there are some. *)

Inductive page : Type :=
| Could_not_parse
| Loaded (df : list Tx.t)
| Calculated (df : list Tx.t) (results : tax_results).

Section Upload.

Variable to_numeric : string -> option Q.
Variable to_datetime_format : string -> string -> option Z.
Variable to_datetime_coerce : list string -> list (option Z).
Variable sort_values : list Tx.t -> list Tx.t.

Definition process_upload (now : Z) (uploaded_file : RawTable) : page :=
  match parse_csv to_numeric to_datetime_format to_datetime_coerce sort_values
                  uploaded_file with
  | Parsed df =>
      if is_empty df then Could_not_parse
      else
        match calculate_taxes sort_values now df with
        | Some results => Calculated df results
        | None => Loaded df
        end
  | Failed _ => Could_not_parse
  end.

End Upload.

(** ** Tables for the examples *)

(** One row, of quantity 0. *)
Definition table_without_valid_row : RawTable :=
  mk_RawTable
    ["Timestamp"; "Coin"; "Side"; "Size"; "Rate"]%string
    [[Some "2023-01-15"; Some "BTC"; Some "buy"; Some "0"; Some "$25,000"]
    ]%string.

(** Two rows of the same date. *)
Definition table_with_tie : RawTable :=
  mk_RawTable
    ["Timestamp"; "Coin"; "Side"; "Size"; "Rate"]%string
    [[Some "2023-01-15"; Some "BTC/USD"; Some "BUY"; Some "0.5"; Some "$25,000"];
     [Some "2023-01-15"; Some "eth-usdt"; Some "Purchase"; Some "2"; Some "1,600.00"]
    ]%string.


(** * Properties *)

Lemma sale_loop_step symbol sale_date sale_price (st : sale_state) :
  sale_loop symbol sale_date sale_price st =
  if sale_cond st
  then sale_loop symbol sale_date sale_price (sale_body symbol sale_date sale_price st)
  else st.
Proof.
  revert st. apply (sale_loop_elim symbol sale_date sale_price
    (fun st r => r = if sale_cond st
                     then sale_loop symbol sale_date sale_price
                            (sale_body symbol sale_date sale_price st)
                     else st)); cbv zeta; intros st H; intros; rewrite H; reflexivity.
Qed.


Lemma Qltb_lt (x y : Q) : Qltb x y = true <-> x < y.
Proof.
  unfold Qltb. rewrite negb_true_iff. split; intro H.
  - apply Qnot_le_lt. intro Hle. apply Qle_bool_iff in Hle. congruence.
  - destruct (Qle_bool y x) eqn:E; [|reflexivity].
    apply Qle_bool_iff in E. exfalso. apply (Qlt_not_le _ _ H E).
Qed.

Lemma Qltb_ge (x y : Q) : Qltb x y = false <-> y <= x.
Proof. unfold Qltb. rewrite negb_false_iff. apply Qle_bool_iff. Qed.

Lemma Qle_bool_gt (x y : Q) : Qle_bool x y = false <-> y < x.
Proof. rewrite <- Qltb_lt. unfold Qltb. rewrite negb_true_iff. reflexivity. Qed.

Lemma Qltb_self_sub (x : Q) : Qltb 0 (x - x) = false.
Proof. apply Qltb_ge. lra. Qed.

Lemma sum_Q_nil {A : Type} (f : A -> Q) : sum_Q f [] = 0.
Proof. reflexivity. Qed.

Lemma sum_Q_cons {A : Type} (f : A -> Q) (x : A) (l : list A) :
  sum_Q f (x :: l) = f x + sum_Q f l.
Proof. reflexivity. Qed.

Lemma sum_Q_app {A : Type} (f : A -> Q) (l1 l2 : list A) :
  sum_Q f (l1 ++ l2) == sum_Q f l1 + sum_Q f l2.
Proof.
  induction l1 as [|x l1 IH]; simpl.
  - lra.
  - rewrite IH. lra.
Qed.

(** ** The loop of [_process_sale] against the recursion of the specification *)

Section SaleProperties.

Variable symbol : string.
Variable sale_date : Z.
Variable sale_price : Q.

Let loop := sale_loop symbol sale_date sale_price.
Let spec := spec_sell symbol sale_date sale_price.
Let short_of (l : list Detail.t) : Q :=
  sum_Q Detail.gain_loss (filter (fun d => negb (is_long_term d)) l).
Let long_of (l : list Detail.t) : Q :=
  sum_Q Detail.gain_loss (filter is_long_term l).

(** What one recorded match changes in the state. *)
Lemma record_sale_spec (st : sale_state) (lot : Lot.t) (q c : Q)
    (queue' : list Lot.t) :
  exists r',
    record_sale symbol sale_date sale_price st lot q c queue'
      = mk_sale_state r' queue' (remaining_to_sell st - q)
    /\ Sale.transactions_detail r'
       = Sale.transactions_detail (results st)
           ++ [spec_match symbol sale_date sale_price lot q c]
    /\ Sale.short_term_gain r'
       == Sale.short_term_gain (results st)
          + short_of [spec_match symbol sale_date sale_price lot q c]
    /\ Sale.long_term_gain r'
       == Sale.long_term_gain (results st)
          + long_of [spec_match symbol sale_date sale_price lot q c].
Proof.
  subst short_of long_of.
  unfold record_sale, spec_match, long_term_threshold_days.
  destruct (365 <=? days (sale_date - Lot.date lot))%Z;
    eexists; (split; [reflexivity|]); cbn; repeat split; lra.
Qed.

(** From any accumulated results, the loop appends the matches of the
    recursion, leaves its queue, and adds each gain to the total of its
    term. *)
Lemma sale_loop_refines (queue : list Lot.t) :
  forall (r : Sale.t) (Q : Q),
    let st := loop (mk_sale_state r queue Q) in
    Sale.transactions_detail (results st)
      = Sale.transactions_detail r ++ fst (spec queue Q)
    /\ fifo_queue st = snd (spec queue Q)
    /\ Sale.short_term_gain (results st)
       == Sale.short_term_gain r + short_of (fst (spec queue Q))
    /\ Sale.long_term_gain (results st)
       == Sale.long_term_gain r + long_of (fst (spec queue Q)).
Proof.
  pose proof record_sale_spec as Hrec.
  subst loop spec short_of long_of.
  induction queue as [|lot rest IH]; intros r Q; cbv zeta;
    rewrite sale_loop_step; unfold sale_cond;
    cbn [fifo_queue remaining_to_sell spec_sell].
  - rewrite andb_false_r. cbn. rewrite app_nil_r. repeat split; lra.
  - rewrite andb_true_r. destruct (Qltb 0 Q) eqn:HQ.
    2:{ cbn. rewrite app_nil_r. repeat split; lra. }
    unfold sale_body. cbn [fifo_queue remaining_to_sell].
    destruct (Qle_bool (Lot.quantity lot) Q) eqn:Hle.
    + destruct (Hrec (mk_sale_state r (lot :: rest) Q) lot (Lot.quantity lot)
                  (Lot.cost_basis lot) rest) as (r' & -> & Hd & Hs & Hl).
      cbn [results remaining_to_sell] in *.
      specialize (IH r' (Q - Lot.quantity lot)). cbv zeta in IH.
      destruct (spec_sell symbol sale_date sale_price rest (Q - Lot.quantity lot))
        as [matches queue'] eqn:Hspec.
      cbn [fst snd] in *. destruct IH as (Hd' & Hq' & Hs' & Hl').
      rewrite Hd', Hq', Hs', Hl', Hd, Hs, Hl, <- app_assoc.
      set (d := spec_match symbol sale_date sale_price lot (Lot.quantity lot)
                           (Lot.cost_basis lot)).
      cbn [app filter]. 
      destruct (is_long_term d); cbn [negb]; rewrite ?sum_Q_cons, ?sum_Q_nil;
        repeat split; try reflexivity; lra.
    + destruct (Hrec (mk_sale_state r (lot :: rest) Q) lot Q
                  ((Lot.cost_basis lot / Lot.quantity lot) * Q)
                  (Lot.mk (Lot.symbol lot) (Lot.date lot) (Lot.quantity lot - Q)
                     (Lot.price lot)
                     (Lot.cost_basis lot
                      - (Lot.cost_basis lot / Lot.quantity lot) * Q) :: rest))
        as (r' & Heq & Hd & Hs & Hl).
      cbn [results remaining_to_sell] in *. rewrite Heq.
      rewrite sale_loop_step. unfold sale_cond.
      cbn [remaining_to_sell fifo_queue results].
      rewrite Qltb_self_sub. cbn [andb fst snd results fifo_queue].
      unfold spec_decrement. repeat split; assumption.
Qed.

End SaleProperties.

Section SpecSaleFacts.

Variable symbol : string.
Variable sale_date : Z.
Variable P : Q.

(** Every match of a sale is the match of a lot of the queue. *)
Lemma spec_sell_Forall (R : Detail.t -> Prop) (queue : list Lot.t) :
  (forall lot q c, In lot queue -> R (spec_match symbol sale_date P lot q c)) ->
  forall Q, Forall R (fst (spec_sell symbol sale_date P queue Q)).
Proof.
  induction queue as [|lot rest IH]; intros HR Q; cbn [spec_sell].
  - constructor.
  - destruct (Qltb 0 Q); [|constructor].
    destruct (Qle_bool (Lot.quantity lot) Q).
    + specialize (IH (fun l q c H => HR l q c (or_intror H)) (Q - Lot.quantity lot)).
      destruct (spec_sell symbol sale_date P rest (Q - Lot.quantity lot)).
      cbn [fst] in *. constructor; [apply HR; left; reflexivity | exact IH].
    + cbn [fst]. constructor; [apply HR; left; reflexivity | constructor].
Qed.

(** With lots of positive quantity that do not cover the sale, every lot is
    consumed whole and the queue is emptied. *)
Lemma spec_sell_uncovered (queue : list Lot.t) :
  Forall (fun lot => 0 < Lot.quantity lot) queue ->
  forall Q, sum_Q Lot.quantity queue <= Q ->
    spec_sell symbol sale_date P queue Q
    = (map (fun lot => spec_match symbol sale_date P lot (Lot.quantity lot)
                                  (Lot.cost_basis lot)) queue, []).
Proof.
  induction 1 as [|lot rest Hpos Hrest IH]; intros Q HQ; cbn [spec_sell map].
  - reflexivity.
  - rewrite sum_Q_cons in HQ.
    assert (Hge : 0 <= sum_Q Lot.quantity rest).
    { clear -Hrest. induction Hrest as [|x l Hx _ IHl].
      - rewrite sum_Q_nil. lra.
      - rewrite sum_Q_cons. lra. }
    replace (Qltb 0 Q) with true by (symmetry; apply Qltb_lt; lra).
    replace (Qle_bool (Lot.quantity lot) Q) with true
      by (symmetry; apply Qle_bool_iff; lra).
    rewrite IH by lra. reflexivity.
Qed.

End SpecSaleFacts.

(** The results and the queue of [_process_sale], from the recursion. *)
Lemma process_sale_refines symbol sale_date P queue Q :
  Sale.transactions_detail (fst (_process_sale symbol sale_date P queue Q))
    = fst (spec_sell symbol sale_date P queue Q)
  /\ snd (_process_sale symbol sale_date P queue Q)
     = snd (spec_sell symbol sale_date P queue Q)
  /\ Sale.short_term_gain (fst (_process_sale symbol sale_date P queue Q))
     == sum_Q Detail.gain_loss
          (filter (fun d => negb (is_long_term d))
                  (fst (spec_sell symbol sale_date P queue Q)))
  /\ Sale.long_term_gain (fst (_process_sale symbol sale_date P queue Q))
     == sum_Q Detail.gain_loss
          (filter is_long_term (fst (spec_sell symbol sale_date P queue Q))).
Proof.
  unfold _process_sale. cbn [fst snd].
  destruct (sale_loop_refines symbol sale_date P queue (Sale.mk 0 0 []) Q)
    as (Hd & Hq & Hs & Hl).
  cbn [Sale.transactions_detail Sale.short_term_gain Sale.long_term_gain app] in *.
  repeat split; try assumption.
  - rewrite Hs. lra.
  - rewrite Hl. lra.
Qed.

(** The division of the partial branch is by a positive quantity: the branch
    is entered with something left to sell and a front lot that holds more. *)
Lemma partial_sale_divisor_positive (st : sale_state) (lot : Lot.t)
    (rest : list Lot.t) :
  sale_cond st = true -> fifo_queue st = lot :: rest ->
  Qle_bool (Lot.quantity lot) (remaining_to_sell st) = false ->
  0 < Lot.quantity lot.
Proof.
  unfold sale_cond. intros Hc Hq Hle. rewrite Hq, andb_true_r in Hc.
  apply Qltb_lt in Hc. apply Qle_bool_gt in Hle. lra.
Qed.

(** C1. A sell of quantity [Q] at price [P] against a queue. With nothing to
    sell or an empty queue no lot is touched. Otherwise the front lot is
    taken. If its quantity is at most [Q] it is consumed whole: the match
    has the lot's quantity and cost basis, the lot leaves the queue, and the
    sale goes on with the rest of the queue for what is left of [Q]. If not,
    it is consumed in part: the match has quantity [Q] and cost basis
    [(cost_basis / quantity) * Q], the lot stays at the front with its
    quantity and cost basis lowered by the matched amounts, and the sale
    ends. Each match has proceeds [quantity * P] and gain
    [proceeds - cost_basis]. *)
Theorem process_sale_fifo_steps symbol sale_date P lot rest Q :
  let run := _process_sale symbol sale_date P in
  let matches queue Q := Sale.transactions_detail (fst (run queue Q)) in
  (matches [] Q = [] /\ snd (run [] Q) = [])
  /\ (Q <= 0 -> matches (lot :: rest) Q = [] /\ snd (run (lot :: rest) Q) = lot :: rest)
  /\ (0 < Q -> Lot.quantity lot <= Q ->
      exists m,
        matches (lot :: rest) Q = m :: matches rest (Q - Lot.quantity lot)
        /\ snd (run (lot :: rest) Q) = snd (run rest (Q - Lot.quantity lot))
        /\ Detail.quantity m = Lot.quantity lot
        /\ Detail.cost_basis m = Lot.cost_basis lot
        /\ Detail.purchase_date m = Lot.date lot
        /\ Detail.proceeds m = Detail.quantity m * P
        /\ Detail.gain_loss m = Detail.proceeds m - Detail.cost_basis m)
  /\ (0 < Q -> Q < Lot.quantity lot ->
      exists m lot',
        matches (lot :: rest) Q = [m]
        /\ snd (run (lot :: rest) Q) = lot' :: rest
        /\ Detail.quantity m = Q
        /\ Detail.cost_basis m = (Lot.cost_basis lot / Lot.quantity lot) * Q
        /\ Detail.purchase_date m = Lot.date lot
        /\ Detail.proceeds m = Detail.quantity m * P
        /\ Detail.gain_loss m = Detail.proceeds m - Detail.cost_basis m
        /\ Lot.quantity lot' = Lot.quantity lot - Detail.quantity m
        /\ Lot.cost_basis lot' = Lot.cost_basis lot - Detail.cost_basis m
        /\ Lot.symbol lot' = Lot.symbol lot
        /\ Lot.date lot' = Lot.date lot
        /\ Lot.price lot' = Lot.price lot).
Proof.
  cbv zeta.
  pose proof (process_sale_refines symbol sale_date P (lot :: rest) Q)
    as (Hd & Hq & _).
  pose proof (process_sale_refines symbol sale_date P rest (Q - Lot.quantity lot))
    as (Hd' & Hq' & _).
  pose proof (process_sale_refines symbol sale_date P [] Q) as (Hd0 & Hq0 & _).
  rewrite Hd, Hq, Hd', Hq', Hd0, Hq0. clear.
  cbn [spec_sell fst snd].
  split; [split; reflexivity|].
  split; [|split].
  - intro HQ. apply Qltb_ge in HQ. rewrite HQ. split; reflexivity.
  - intros HQ Hle. apply Qltb_lt in HQ. apply Qle_bool_iff in Hle.
    rewrite HQ, Hle.
    destruct (spec_sell symbol sale_date P rest (Q - Lot.quantity lot)).
    eexists. cbn [fst snd]. split; [reflexivity|].
    repeat split; reflexivity.
  - intros HQ Hlt. apply Qltb_lt in HQ. apply Qle_bool_gt in Hlt.
    rewrite HQ, Hlt. do 2 eexists. cbn [fst snd]. split; [reflexivity|].
    repeat split; reflexivity.
Qed.

(** The scenario of the specification: 0.3 sold at 26000 against lots of 0.5
    bought at 25000 and 0.25 bought at 24500. *)
Lemma process_sale_fifo_steps_witness :
  exists m lot',
    Sale.transactions_detail
      (fst (_process_sale "BTC" 17 (26000#1)
              [Lot.mk "BTC" 0 (1#2) (25000#1) (12500#1);
               Lot.mk "BTC" 5 (1#4) (24500#1) (6125#1)] (3#10))) = [m]
    /\ snd (_process_sale "BTC" 17 (26000#1)
              [Lot.mk "BTC" 0 (1#2) (25000#1) (12500#1);
               Lot.mk "BTC" 5 (1#4) (24500#1) (6125#1)] (3#10))
       = [lot'; Lot.mk "BTC" 5 (1#4) (24500#1) (6125#1)]
    /\ Detail.cost_basis m == 7500 # 1
    /\ Detail.gain_loss m == 300 # 1
    /\ Lot.quantity lot' == 2 # 10
    /\ Lot.cost_basis lot' == 5000 # 1.
Proof.
  destruct (process_sale_fifo_steps "BTC" 17 (26000#1)
              (Lot.mk "BTC" 0 (1#2) (25000#1) (12500#1))
              [Lot.mk "BTC" 5 (1#4) (24500#1) (6125#1)] (3#10))
    as (_ & _ & _ & H).
  destruct H as (m & lot' & Hm & Hq & Hmq & Hmc & _ & Hp & Hg & Hlq & Hlc & _);
    [reflexivity | reflexivity |].
  exists m, lot'. split; [exact Hm|]. split; [exact Hq|].
  rewrite Hlq, Hlc, Hg, Hp, Hmc, Hmq. cbn [Lot.quantity Lot.cost_basis].
  repeat split; reflexivity.
Defined.

(** C3. Every match emitted by a sale has as holding period the whole days
    from the purchase date to the sale date, and is long-term exactly when
    that period is at least 365 days: 364 days is short-term, 365 days is
    long-term. The long-term total of the sale is the sum of the gains of its
    long-term matches, the short-term total that of its short-term matches. *)
Theorem classification_threshold symbol sale_date P queue Q :
  let r := fst (_process_sale symbol sale_date P queue Q) in
  Forall (fun d =>
            Detail.sale_date d = sale_date
            /\ Detail.holding_period_days d
               = days (Detail.sale_date d - Detail.purchase_date d)
            /\ (Detail.term_type d = Long_term
                <-> (365 <= Detail.holding_period_days d)%Z)
            /\ (Detail.term_type d = Short_term
                <-> (Detail.holding_period_days d < 365)%Z)
            /\ (Detail.holding_period_days d = 364%Z
                -> Detail.term_type d = Short_term)
            /\ (Detail.holding_period_days d = 365%Z
                -> Detail.term_type d = Long_term))
         (Sale.transactions_detail r)
  /\ Sale.long_term_gain r
     == sum_Q Detail.gain_loss
          (filter (fun d => match Detail.term_type d with
                            | Long_term => true
                            | Short_term => false
                            end) (Sale.transactions_detail r))
  /\ Sale.short_term_gain r
     == sum_Q Detail.gain_loss
          (filter (fun d => match Detail.term_type d with
                            | Long_term => false
                            | Short_term => true
                            end) (Sale.transactions_detail r)).
Proof.
  cbv zeta.
  destruct (process_sale_refines symbol sale_date P queue Q)
    as (Hd & _ & Hs & Hl).
  rewrite Hd, Hs, Hl. split; [|split].
  - apply spec_sell_Forall. intros lot q c _. unfold spec_match.
    cbn [Detail.sale_date Detail.holding_period_days Detail.purchase_date
         Detail.term_type].
    destruct (365 <=? days (sale_date - Lot.date lot))%Z eqn:E;
      [apply Z.leb_le in E | apply Z.leb_gt in E];
      repeat split; intros; try reflexivity; try discriminate; try lia.
  - reflexivity.
  - match goal with
    | |- sum_Q _ (filter ?f ?l) == sum_Q _ (filter ?g ?l) =>
        rewrite (filter_ext f g); [reflexivity|]
    end.
    intro d. unfold is_long_term. destruct (Detail.term_type d); reflexivity.
Qed.

(** One unit bought at time 0 and sold 364 days, then 365 days later. *)
Lemma classification_threshold_witness :
  let sold_after n :=
    Sale.transactions_detail
      (fst (_process_sale "BTC" (n * ns_per_day)%Z (2#1)
              [Lot.mk "BTC" 0 (1#1) (1#1) (1#1)] (1#1))) in
  (sold_after 364%Z <> []
   /\ Forall (fun d => Detail.holding_period_days d = 364%Z
                       /\ Detail.term_type d = Short_term) (sold_after 364%Z))
  /\ (sold_after 365%Z <> []
      /\ Forall (fun d => Detail.holding_period_days d = 365%Z
                          /\ Detail.term_type d = Long_term) (sold_after 365%Z)).
Proof.
  cbv zeta. split; (split; [vm_compute; discriminate|]).
  - pose proof (classification_threshold "BTC" (364 * ns_per_day)%Z (2#1)
                  [Lot.mk "BTC" 0 (1#1) (1#1) (1#1)] (1#1)) as (H & _).
    cbv zeta in H. rewrite Forall_forall in *. intros d Hin.
    assert (Hd : Detail.holding_period_days d = 364%Z).
    { revert d Hin. rewrite <- Forall_forall. vm_compute.
      repeat constructor. }
    split; [exact Hd|]. apply (H d Hin). exact Hd.
  - pose proof (classification_threshold "BTC" (365 * ns_per_day)%Z (2#1)
                  [Lot.mk "BTC" 0 (1#1) (1#1) (1#1)] (1#1)) as (H & _).
    cbv zeta in H. rewrite Forall_forall in *. intros d Hin.
    assert (Hd : Detail.holding_period_days d = 365%Z).
    { revert d Hin. rewrite <- Forall_forall. vm_compute.
      repeat constructor. }
    split; [exact Hd|]. apply (H d Hin). exact Hd.
Defined.

(** The loop on lots of positive quantity that do not cover what is left to
    sell: the outcome does not depend on how much more is left. *)
Lemma process_sale_uncovered symbol sale_date P queue :
  Forall (fun lot => 0 < Lot.quantity lot) queue ->
  forall r Q1 Q2,
    sum_Q Lot.quantity queue <= Q1 -> sum_Q Lot.quantity queue <= Q2 ->
    results (sale_loop symbol sale_date P (mk_sale_state r queue Q1))
    = results (sale_loop symbol sale_date P (mk_sale_state r queue Q2))
    /\ fifo_queue (sale_loop symbol sale_date P (mk_sale_state r queue Q1))
       = [].
Proof.
  induction 1 as [|lot rest Hpos Hrest IH]; intros r Q1 Q2 H1 H2;
    rewrite (sale_loop_step _ _ _ (mk_sale_state r _ Q1)),
            (sale_loop_step _ _ _ (mk_sale_state r _ Q2));
    unfold sale_cond; cbn [fifo_queue remaining_to_sell].
  - rewrite 2 andb_false_r. split; reflexivity.
  - rewrite sum_Q_cons in H1, H2.
    assert (Hge : 0 <= sum_Q Lot.quantity rest).
    { clear -Hrest. induction Hrest as [|x l Hx _ IHl].
      - rewrite sum_Q_nil. lra.
      - rewrite sum_Q_cons. lra. }
    replace (Qltb 0 Q1) with true by (symmetry; apply Qltb_lt; lra).
    replace (Qltb 0 Q2) with true by (symmetry; apply Qltb_lt; lra).
    cbn [andb]. unfold sale_body. cbn [fifo_queue remaining_to_sell].
    replace (Qle_bool (Lot.quantity lot) Q1) with true
      by (symmetry; apply Qle_bool_iff; lra).
    replace (Qle_bool (Lot.quantity lot) Q2) with true
      by (symmetry; apply Qle_bool_iff; lra).
    unfold record_sale. cbn [results remaining_to_sell].
    apply IH; lra.
Qed.

(** A run of rows without a buy leaves the state of the symbol's loop as it
    finds it when the queue is empty and nothing was matched yet. *)
Lemma symbol_loop_no_buy symbol df :
  Forall (fun t => is_buy t = false) df ->
  symbol_loop symbol (mk_symbol_state 0 0 [] []) df = mk_symbol_state 0 0 [] [].
Proof.
  unfold symbol_loop. induction 1 as [|t df Ht _ IH]; cbn [fold_left].
  - reflexivity.
  - unfold symbol_step at 2. rewrite Ht.
    destruct (is_sell t); [|exact IH].
    unfold _process_sale. rewrite sale_loop_step. unfold sale_cond.
    cbn [fifo_queue sym_fifo_queue]. rewrite andb_false_r. exact IH.
Qed.

(** C5. A sell of more than the lots of the queue hold (lots of positive
    quantity, as canonical transactions make them) is processed without
    failure: matching consumes every lot whole and stops with the queue
    empty; the matches are those of the lots, one each, so the quantity not
    covered has no match; the results are those of a sell of exactly the
    quantity available, so the uncovered quantity adds nothing to either
    gain total. A sell against an empty queue has no match and zero gains,
    and rows before the first buy of a symbol leave no trace in its results. *)
Theorem uncovered_sell symbol sale_date P queue Q :
  Forall (fun lot => 0 < Lot.quantity lot) queue ->
  sum_Q Lot.quantity queue < Q ->
  let '(r, queue') := _process_sale symbol sale_date P queue Q in
  queue' = []
  /\ Sale.transactions_detail r
     = map (fun lot =>
              Detail.mk symbol sale_date (Lot.date lot) (Lot.quantity lot)
                (Lot.quantity lot * P) (Lot.cost_basis lot)
                (Lot.quantity lot * P - Lot.cost_basis lot)
                (days (sale_date - Lot.date lot))
                (if (365 <=? days (sale_date - Lot.date lot))%Z
                 then Long_term else Short_term))
           queue
  /\ sum_Q Detail.quantity (Sale.transactions_detail r)
     == sum_Q Lot.quantity queue
  /\ r = fst (_process_sale symbol sale_date P queue (sum_Q Lot.quantity queue))
  /\ _process_sale symbol sale_date P [] Q = (Sale.mk 0 0 [], [])
  /\ (forall before df,
        Forall (fun t => is_buy t = false) before ->
        _calculate_symbol_fifo symbol (before ++ df)
        = _calculate_symbol_fifo symbol df).
Proof.
  intros Hpos HQ.
  destruct (_process_sale symbol sale_date P queue Q) as [r queue'] eqn:E.
  pose proof (process_sale_refines symbol sale_date P queue Q) as (Hd & Hq & _).
  rewrite E in Hd, Hq. cbn [fst snd] in Hd, Hq.
  rewrite (spec_sell_uncovered symbol sale_date P queue Hpos Q) in Hd, Hq
    by lra.
  cbn [fst snd] in Hd, Hq.
  split; [exact Hq|]. split; [exact Hd|]. split; [|split; [|split]].
  - rewrite Hd. clear. induction queue as [|lot rest IH].
    + reflexivity.
    + cbn [map]. rewrite 2 sum_Q_cons, IH. reflexivity.
  - change r with (fst (r, queue')). rewrite <- E. unfold _process_sale.
    cbn [fst]. apply process_sale_uncovered; [assumption | lra | lra].
  - unfold _process_sale. rewrite sale_loop_step. unfold sale_cond.
    cbn [fifo_queue]. rewrite andb_false_r. reflexivity.
  - intros before df Hb. unfold _calculate_symbol_fifo, symbol_loop.
    rewrite fold_left_app.
    change (fold_left (symbol_step symbol) before (mk_symbol_state 0 0 [] []))
      with (symbol_loop symbol (mk_symbol_state 0 0 [] []) before).
    rewrite symbol_loop_no_buy by assumption. reflexivity.
Qed.

(** A sell of 2 against lots of 1/2 and 1. *)
Lemma uncovered_sell_witness :
  let '(r, queue') :=
    _process_sale "BTC" 10 (3#1)
      [Lot.mk "BTC" 0 (1#2) (2#1) (1#1); Lot.mk "BTC" 1 (1#1) (2#1) (2#1)]
      (2#1) in
  queue' = [] /\ List.length (Sale.transactions_detail r) = 2%nat.
Proof.
  pose proof (uncovered_sell "BTC" 10 (3#1)
                [Lot.mk "BTC" 0 (1#2) (2#1) (1#1);
                 Lot.mk "BTC" 1 (1#1) (2#1) (2#1)] (2#1)) as H.
  destruct (_process_sale "BTC" 10 (3#1)
              [Lot.mk "BTC" 0 (1#2) (2#1) (1#1);
               Lot.mk "BTC" 1 (1#1) (2#1) (2#1)] (2#1)) as [r queue'].
  destruct H as (Hq & Hd & _).
  - repeat constructor.
  - reflexivity.
  - split; [exact Hq|]. rewrite Hd. reflexivity.
Defined.

(** ** The lots keep their unit price *)

Lemma spec_decrement_consistent (lot : Lot.t) (Q : Q) :
  lot_consistent lot -> Q < Lot.quantity lot ->
  lot_consistent (spec_decrement lot Q).
Proof.
  intros [Hpos Hcb] HQ. unfold lot_consistent, spec_decrement.
  cbn [Lot.quantity Lot.cost_basis Lot.price]. split; [lra|].
  rewrite Hcb. field. lra.
Qed.

Lemma spec_sell_consistent symbol sale_date P (queue : list Lot.t) :
  Forall lot_consistent queue ->
  forall Q, Forall lot_consistent (snd (spec_sell symbol sale_date P queue Q)).
Proof.
  induction 1 as [|lot rest Hlot Hrest IH]; intros Q; cbn [spec_sell].
  - constructor.
  - destruct (Qltb 0 Q); [|constructor; assumption].
    destruct (Qle_bool (Lot.quantity lot) Q) eqn:Hle.
    + specialize (IH (Q - Lot.quantity lot)).
      destruct (spec_sell symbol sale_date P rest (Q - Lot.quantity lot)).
      exact IH.
    + cbn [snd]. constructor; [|assumption].
      apply spec_decrement_consistent; [assumption|].
      apply Qle_bool_gt. exact Hle.
Qed.

Lemma sale_body_consistent symbol sale_date P (st : sale_state) :
  Forall lot_consistent (fifo_queue st) ->
  Forall lot_consistent (fifo_queue (sale_body symbol sale_date P st)).
Proof.
  unfold sale_body. destruct (fifo_queue st) as [|lot rest] eqn:E; intro H.
  - rewrite E. constructor.
  - inversion H as [|? ? Hlot Hrest]; subst.
    destruct (Qle_bool (Lot.quantity lot) (remaining_to_sell st)) eqn:Hle;
      unfold record_sale; cbn [fifo_queue]; [assumption|].
    constructor; [|assumption].
    apply (spec_decrement_consistent lot (remaining_to_sell st) Hlot).
    apply Qle_bool_gt. exact Hle.
Qed.

Lemma symbol_step_consistent symbol (st : symbol_state) (t : Tx.t) :
  0 < Tx.quantity t ->
  Forall lot_consistent (sym_fifo_queue st) ->
  Forall lot_consistent (sym_fifo_queue (symbol_step symbol st t)).
Proof.
  intros Ht Hst. unfold symbol_step. destruct (is_buy t).
  - cbn [sym_fifo_queue]. apply Forall_app. split; [assumption|].
    constructor; [|constructor]. split; [exact Ht | reflexivity].
  - destruct (is_sell t); [|assumption].
    pose proof (process_sale_refines symbol (Tx.date t) (Tx.price t)
                  (sym_fifo_queue st) (Tx.quantity t)) as (_ & Hq & _).
    destruct (_process_sale symbol (Tx.date t) (Tx.price t)
                (sym_fifo_queue st) (Tx.quantity t)) as [r queue'].
    cbn [snd sym_fifo_queue] in *. rewrite Hq.
    apply spec_sell_consistent. assumption.
Qed.

Lemma symbol_loop_consistent symbol (df : list Tx.t) :
  Forall (fun t => 0 < Tx.quantity t) df ->
  forall st, Forall lot_consistent (sym_fifo_queue st) ->
    Forall lot_consistent (sym_fifo_queue (symbol_loop symbol st df)).
Proof.
  unfold symbol_loop.
  induction 1 as [|t df Ht _ IH]; intros st Hst; cbn [fold_left].
  - assumption.
  - apply IH. apply symbol_step_consistent; assumption.
Qed.

(** C10. With rows of positive quantity and price, a lot has a positive
    quantity and [cost_basis == quantity * price] when it is created, after
    every iteration of the loop of a sale, and after every row of the
    symbol; so every holding reported for the symbol has
    [total_cost_basis == quantity * avg_cost] and a positive quantity. *)
Theorem lots_keep_unit_price symbol (df : list Tx.t) :
  Forall (fun t => 0 < Tx.quantity t /\ 0 < Tx.price t) df ->
  (forall t, In t df -> lot_consistent (new_lot symbol t))
  /\ (forall sale_date P st,
        Forall lot_consistent (fifo_queue st) ->
        Forall lot_consistent (fifo_queue (sale_body symbol sale_date P st)))
  /\ (forall n,
        Forall lot_consistent
          (sym_fifo_queue (symbol_loop symbol symbol_init (firstn n df))))
  /\ Forall (fun h =>
               Holding.total_cost_basis h
               == Holding.quantity h * Holding.avg_cost h
               /\ 0 < Holding.quantity h)
            (SymbolResults.remaining_holdings (_calculate_symbol_fifo symbol df)).
Proof.
  intro Hdf.
  assert (Hq : Forall (fun t => 0 < Tx.quantity t) df).
  { eapply Forall_impl; [|exact Hdf]. intros t [H _]. exact H. }
  split; [|split; [|split]].
  - intros t Hin. rewrite Forall_forall in Hq.
    split; [apply Hq; exact Hin | reflexivity].
  - intros sale_date P st. apply sale_body_consistent.
  - intro n. apply symbol_loop_consistent; [|constructor].
    rewrite Forall_forall in *. intros t Hin. apply Hq.
    rewrite <- (firstn_skipn n df). apply in_or_app. left. exact Hin.
  - unfold _calculate_symbol_fifo. cbn [SymbolResults.remaining_holdings].
    pose proof (symbol_loop_consistent symbol df Hq symbol_init
                  (Forall_nil _)) as H.
    fold symbol_init. unfold remaining_holdings_of.
    rewrite Forall_forall in *. intros h Hin.
    apply in_map_iff in Hin. destruct Hin as (lot & <- & Hin).
    apply filter_In in Hin. destruct Hin as [Hin _].
    destruct (H lot Hin) as [Hpos Hcb]. split; assumption.
Qed.

(** The scenario of the specification. *)
Lemma lots_keep_unit_price_witness :
  Forall (fun h =>
            Holding.total_cost_basis h == Holding.quantity h * Holding.avg_cost h
            /\ 0 < Holding.quantity h)
         (SymbolResults.remaining_holdings
            (_calculate_symbol_fifo "BTC"
               [Tx.mk 15 "BTC" "buy" (1#2) (25000#1);
                Tx.mk 20 "BTC" "buy" (1#4) (24500#1);
                Tx.mk 32 "BTC" "sell" (3#10) (26000#1)])).
Proof.
  apply (lots_keep_unit_price "BTC"
           [Tx.mk 15 "BTC" "buy" (1#2) (25000#1);
            Tx.mk 20 "BTC" "buy" (1#4) (24500#1);
            Tx.mk 32 "BTC" "sell" (3#10) (26000#1)]).
  repeat constructor.
Defined.

(** ** A lot is matched for its whole cost basis *)

Section Isolation.

Variable symbol : string.

(** The details and the queue after one row, from the recursion. *)
Lemma symbol_step_sell (st : symbol_state) (t : Tx.t) :
  is_buy t = false -> is_sell t = true ->
  sym_transactions_detail (symbol_step symbol st t)
  = sym_transactions_detail st
      ++ fst (spec_sell symbol (Tx.date t) (Tx.price t) (sym_fifo_queue st)
                (Tx.quantity t))
  /\ sym_fifo_queue (symbol_step symbol st t)
     = snd (spec_sell symbol (Tx.date t) (Tx.price t) (sym_fifo_queue st)
              (Tx.quantity t)).
Proof.
  intros Hb Hs. unfold symbol_step. rewrite Hb, Hs.
  pose proof (process_sale_refines symbol (Tx.date t) (Tx.price t)
                (sym_fifo_queue st) (Tx.quantity t)) as (Hd & Hq & _).
  destruct (_process_sale symbol (Tx.date t) (Tx.price t)
              (sym_fifo_queue st) (Tx.quantity t)) as [r queue'].
  cbn [fst snd sym_transactions_detail sym_fifo_queue] in *.
  rewrite Hd, Hq. split; reflexivity.
Qed.

Lemma symbol_step_buy (st : symbol_state) (t : Tx.t) :
  is_buy t = true ->
  sym_transactions_detail (symbol_step symbol st t) = sym_transactions_detail st
  /\ sym_fifo_queue (symbol_step symbol st t)
     = sym_fifo_queue st ++ [new_lot symbol t].
Proof. intros Hb. unfold symbol_step. rewrite Hb. split; reflexivity. Qed.

Lemma symbol_step_other (st : symbol_state) (t : Tx.t) :
  is_buy t = false -> is_sell t = false -> symbol_step symbol st t = st.
Proof. intros Hb Hs. unfold symbol_step. rewrite Hb, Hs. reflexivity. Qed.

(** A sale on a queue extended at the back: while lots of the front part
    remain the extension is not touched; when the front part is used up the
    sale goes on in the extension. *)
Lemma spec_sell_app sale_date P (q1 q2 : list Lot.t) :
  forall Q,
    (snd (spec_sell symbol sale_date P q1 Q) <> [] ->
     spec_sell symbol sale_date P (q1 ++ q2) Q
     = (fst (spec_sell symbol sale_date P q1 Q),
        snd (spec_sell symbol sale_date P q1 Q) ++ q2))
    /\ (snd (spec_sell symbol sale_date P q1 Q) = [] ->
        exists Q',
          spec_sell symbol sale_date P (q1 ++ q2) Q
          = (fst (spec_sell symbol sale_date P q1 Q)
               ++ fst (spec_sell symbol sale_date P q2 Q'),
             snd (spec_sell symbol sale_date P q2 Q'))).
Proof.
  induction q1 as [|lot rest IH]; intros Q.
  - cbn [spec_sell app fst snd]. split; [intro H; contradiction|].
    intros _. exists Q. destruct (spec_sell symbol sale_date P q2 Q).
    reflexivity.
  - cbn [spec_sell app]. destruct (Qltb 0 Q).
    2:{ cbn [fst snd]. split; [reflexivity | discriminate]. }
    destruct (Qle_bool (Lot.quantity lot) Q).
    + specialize (IH (Q - Lot.quantity lot)). destruct IH as [IH1 IH2].
      destruct (spec_sell symbol sale_date P rest (Q - Lot.quantity lot))
        as [d1 q1'].
      cbn [fst snd] in *. split.
      * intro Hne. rewrite (IH1 Hne). reflexivity.
      * intro He. destruct (IH2 He) as (Q' & HQ'). exists Q'.
        rewrite HQ'. reflexivity.
    + cbn [fst snd]. split; [reflexivity | discriminate].
Qed.

(** The dates of the matches and of the lots left are dates of the queue. *)
Lemma spec_sell_dates (D : Z -> Prop) sale_date P (queue : list Lot.t) :
  Forall (fun lot => D (Lot.date lot)) queue ->
  forall Q,
    Forall (fun d => D (Detail.purchase_date d))
           (fst (spec_sell symbol sale_date P queue Q))
    /\ Forall (fun lot => D (Lot.date lot))
              (snd (spec_sell symbol sale_date P queue Q)).
Proof.
  induction 1 as [|lot rest Hlot Hrest IH]; intros Q; cbn [spec_sell].
  - split; constructor.
  - destruct (Qltb 0 Q).
    2:{ split; [constructor | constructor; assumption]. }
    destruct (Qle_bool (Lot.quantity lot) Q).
    + specialize (IH (Q - Lot.quantity lot)).
      destruct (spec_sell symbol sale_date P rest (Q - Lot.quantity lot)).
      cbn [fst snd] in *. destruct IH as [IH1 IH2].
      split; [constructor|]; assumption.
    + cbn [fst snd]. split; repeat constructor; assumption.
Qed.

(** What a sale matches and what it leaves add up to the cost bases it
    found. *)
Lemma spec_sell_cost_basis sale_date P (queue : list Lot.t) :
  forall Q,
    sum_Q Detail.cost_basis (fst (spec_sell symbol sale_date P queue Q))
    + sum_Q Lot.cost_basis (snd (spec_sell symbol sale_date P queue Q))
    == sum_Q Lot.cost_basis queue.
Proof.
  induction queue as [|lot rest IH]; intros Q; cbn [spec_sell].
  - cbn. lra.
  - destruct (Qltb 0 Q).
    2:{ cbn [fst snd]. rewrite sum_Q_nil. lra. }
    destruct (Qle_bool (Lot.quantity lot) Q).
    + specialize (IH (Q - Lot.quantity lot)).
      destruct (spec_sell symbol sale_date P rest (Q - Lot.quantity lot)).
      cbn [fst snd] in *. rewrite !sum_Q_cons.
      unfold spec_match at 1. cbn [Detail.cost_basis]. lra.
    + cbn [fst snd]. rewrite !sum_Q_cons, sum_Q_nil.
      unfold spec_match, spec_decrement.
      cbn [Detail.cost_basis Lot.cost_basis]. lra.
Qed.

Lemma symbol_loop_cost_basis (df : list Tx.t) :
  forall st,
    sum_Q Detail.cost_basis
      (sym_transactions_detail (symbol_loop symbol st (without_buys df)))
    + sum_Q Lot.cost_basis
        (sym_fifo_queue (symbol_loop symbol st (without_buys df)))
    == sum_Q Detail.cost_basis (sym_transactions_detail st)
       + sum_Q Lot.cost_basis (sym_fifo_queue st).
Proof.
  unfold symbol_loop, without_buys.
  induction df as [|t df IH]; intros st; cbn [filter fold_left].
  - reflexivity.
  - destruct (is_buy t) eqn:Hb; cbn [negb fold_left]; [apply IH|].
    rewrite IH. destruct (is_sell t) eqn:Hs.
    + destruct (symbol_step_sell st t Hb Hs) as [-> ->].
      rewrite sum_Q_app.
      pose proof (spec_sell_cost_basis (Tx.date t) (Tx.price t)
                    (sym_fifo_queue st) (Tx.quantity t)).
      lra.
    + rewrite symbol_step_other by assumption. reflexivity.
Qed.

Lemma isolated_step (D : Z -> Prop) (sa sf : symbol_state) (t : Tx.t) :
  is_buy t = false -> isolated D sa sf ->
  isolated D (symbol_step symbol sa t) (symbol_step symbol sf t).
Proof.
  intros Hb Hrel. destruct (is_sell t) eqn:Hs.
  2:{ rewrite !symbol_step_other by assumption. exact Hrel. }
  destruct (symbol_step_sell sa t Hb Hs) as [Hda Hqa].
  destruct (symbol_step_sell sf t Hb Hs) as [Hdf Hqf].
  unfold isolated. rewrite Hda, Hqa, Hdf, Hqf. clear Hda Hqa Hdf Hqf.
  destruct Hrel as [(Hne & Hd & ext & Hq & Hext) | (He & Hq & extra & Hd & Hextra)].
  - rewrite Hq, Hd.
    destruct (spec_sell_app (Tx.date t) (Tx.price t) (sym_fifo_queue sa) ext
                (Tx.quantity t)) as [H1 H2].
    destruct (snd (spec_sell symbol (Tx.date t) (Tx.price t)
                     (sym_fifo_queue sa) (Tx.quantity t))) as [|l q'] eqn:E.
    + right. destruct (H2 eq_refl) as (Q' & ->). cbn [fst snd].
      destruct (spec_sell_dates D (Tx.date t) (Tx.price t) ext Hext Q')
        as [Hm Hl].
      split; [reflexivity|]. split; [exact Hl|].
      eexists. split; [apply app_assoc | exact Hm].
    + left. rewrite H1 by discriminate. cbn [fst snd].
      split; [discriminate|]. split; [reflexivity|].
      exists ext. split; [reflexivity | exact Hext].
  - right. rewrite He. cbn [spec_sell fst snd]. rewrite app_nil_r.
    destruct (spec_sell_dates D (Tx.date t) (Tx.price t) (sym_fifo_queue sf)
                Hq (Tx.quantity t)) as [Hm Hl].
    split; [reflexivity|]. split; [exact Hl|].
    rewrite Hd. eexists. split; [symmetry; apply app_assoc|].
    apply Forall_app. split; assumption.
Qed.

Lemma isolated_buy (D : Z -> Prop) (sa sf : symbol_state) (t : Tx.t) :
  is_buy t = true -> D (Tx.date t) -> isolated D sa sf ->
  isolated D sa (symbol_step symbol sf t).
Proof.
  intros Hb HD Hrel. destruct (symbol_step_buy sf t Hb) as [Hd Hq].
  unfold isolated. rewrite Hd, Hq.
  assert (Hnew : Forall (fun lot => D (Lot.date lot)) [new_lot symbol t])
    by (repeat constructor; exact HD).
  destruct Hrel as [(Hne & Hd' & ext & Hq' & Hext) | (He & Hq' & Hextra)].
  - left. split; [exact Hne|]. split; [exact Hd'|].
    exists (ext ++ [new_lot symbol t]). rewrite Hq', app_assoc.
    split; [reflexivity|]. apply Forall_app. split; assumption.
  - right. split; [exact He|]. split; [|exact Hextra].
    apply Forall_app. split; assumption.
Qed.

Lemma isolated_loop (D : Z -> Prop) (df : list Tx.t) :
  Forall (fun t => is_buy t = true -> D (Tx.date t)) df ->
  forall sa sf,
    isolated D sa sf ->
    isolated D (symbol_loop symbol sa (without_buys df))
               (symbol_loop symbol sf df).
Proof.
  unfold symbol_loop, without_buys.
  induction 1 as [|t df Ht _ IH]; intros sa sf Hrel; cbn [filter fold_left].
  - exact Hrel.
  - destruct (is_buy t) eqn:Hb; cbn [negb fold_left].
    + apply IH. apply isolated_buy; auto.
    + apply IH. apply isolated_step; assumption.
Qed.

Lemma without_buys_idem (df : list Tx.t) :
  without_buys (without_buys df) = without_buys df.
Proof.
  unfold without_buys. induction df as [|t df IH]; cbn [filter].
  - reflexivity.
  - destruct (is_buy t) eqn:Hb; cbn [negb filter]; [exact IH|].
    rewrite Hb. cbn [negb]. rewrite IH. reflexivity.
Qed.

End Isolation.

(** C6. A lot [lot] stands in the queue behind the lots [front] and before
    the lots [back], and the rows [df] are processed. The matches of the run
    begin with those of the lots of [front] (the matches of the same sells on
    [front] alone), go on with those of [lot] (what the same sells match on
    [front] followed by [lot], past the matches of [front]), and end with
    the later ones. The matches of [lot] bear its purchase date; their cost
    bases and the cost basis left in the lot add up to the cost basis the lot
    had; so when the sells consume the lot whole, in any number of partial
    and full consumptions, the cost bases of its matches add up to its cost
    basis, which for a lot as bought is quantity times price. *)
Theorem cost_basis_conservation symbol front lot back df :
  let before :=
    symbol_loop symbol (mk_symbol_state 0 0 [] front) (without_buys df) in
  let upto :=
    symbol_loop symbol (mk_symbol_state 0 0 [] (front ++ [lot]))
                (without_buys df) in
  let whole :=
    symbol_loop symbol (mk_symbol_state 0 0 [] (front ++ lot :: back)) df in
  exists of_lot later,
    sym_transactions_detail upto = sym_transactions_detail before ++ of_lot
    /\ sym_transactions_detail whole
       = sym_transactions_detail before ++ of_lot ++ later
    /\ Forall (fun d => Detail.purchase_date d = Lot.date lot) of_lot
    /\ sum_Q Detail.cost_basis of_lot + sum_Q Lot.cost_basis (sym_fifo_queue upto)
       == Lot.cost_basis lot + sum_Q Lot.cost_basis (sym_fifo_queue before)
    /\ (sym_fifo_queue upto = [] ->
        sum_Q Detail.cost_basis of_lot == Lot.cost_basis lot)
    /\ (forall t, lot = new_lot symbol t ->
        sym_fifo_queue upto = [] ->
        sum_Q Detail.cost_basis of_lot == Tx.quantity t * Tx.price t).
Proof.
  intros before upto whole.
  assert (H1 : isolated (fun d => d = Lot.date lot) before upto).
  { subst before upto. rewrite <- (without_buys_idem df) at 1.
    apply isolated_loop.
    - unfold without_buys. rewrite Forall_forall. intros t Hin Hb.
      apply filter_In in Hin. destruct Hin as [_ Hn]. rewrite Hb in Hn.
      discriminate.
    - unfold isolated. cbn [sym_fifo_queue sym_transactions_detail].
      destruct front as [|l front'].
      + right. split; [reflexivity|]. split; [repeat constructor|].
        exists []. split; [reflexivity | constructor].
      + left. split; [discriminate|]. split; [reflexivity|].
        exists [lot]. split; [reflexivity | repeat constructor]. }
  assert (H2 : isolated (fun _ => True) upto whole).
  { subst upto whole. apply isolated_loop.
    - rewrite Forall_forall. intros; exact I.
    - left. cbn [sym_fifo_queue sym_transactions_detail].
      split; [destruct front; discriminate|]. split; [reflexivity|].
      exists back. rewrite <- app_assoc. split; [reflexivity|].
      rewrite Forall_forall. intros; exact I. }
  pose proof (symbol_loop_cost_basis symbol df (mk_symbol_state 0 0 [] front))
    as Cb.
  pose proof (symbol_loop_cost_basis symbol df
                (mk_symbol_state 0 0 [] (front ++ [lot]))) as Cu.
  fold before in Cb. fold upto in Cu.
  cbn [sym_transactions_detail sym_fifo_queue] in Cb, Cu.
  rewrite sum_Q_app, sum_Q_cons, !sum_Q_nil in Cu. rewrite sum_Q_nil in Cb.
  assert (exists of_lot,
             sym_transactions_detail upto
             = sym_transactions_detail before ++ of_lot
             /\ Forall (fun d => Detail.purchase_date d = Lot.date lot) of_lot
             /\ (sym_fifo_queue upto = [] -> sym_fifo_queue before = []))
    as (of_lot & Hu & Hdate & Hempty).
  { destruct H1 as [(Hne & Hd & ext & Hq & _) | (He & _ & extra & Hd & Hx)].
    - exists []. rewrite app_nil_r. split; [exact Hd|].
      split; [constructor|]. rewrite Hq. intro E.
      apply app_eq_nil in E. tauto.
    - exists extra. split; [exact Hd|]. split; [exact Hx|]. intros _. exact He. }
  assert (exists later,
             sym_transactions_detail whole
             = sym_transactions_detail upto ++ later) as (later & Hw).
  { destruct H2 as [(_ & Hd & _) | (_ & _ & extra & Hd & _)].
    - exists []. rewrite app_nil_r. exact Hd.
    - exists extra. exact Hd. }
  exists of_lot, later.
  assert (Hsum : sum_Q Detail.cost_basis of_lot
                 + sum_Q Lot.cost_basis (sym_fifo_queue upto)
                 == Lot.cost_basis lot
                    + sum_Q Lot.cost_basis (sym_fifo_queue before)).
  { rewrite Hu, sum_Q_app in Cu. lra. }
  assert (Hall : sym_fifo_queue upto = [] ->
                 sum_Q Detail.cost_basis of_lot == Lot.cost_basis lot).
  { intro E. rewrite E, (Hempty E), !sum_Q_nil in Hsum. lra. }
  split; [exact Hu|]. split; [rewrite Hw, Hu, app_assoc; reflexivity|].
  split; [exact Hdate|]. split; [exact Hsum|]. split; [exact Hall|].
  intros t -> E. apply Hall in E. exact E.
Qed.

(** Ten units bought at 3, sold in lots of 4, 4 and 5 with a buy in
    between: three matches of the lot, of cost bases 12, 12 and 6. *)
Lemma cost_basis_conservation_witness :
  exists of_lot later,
    sym_transactions_detail
      (symbol_loop "ETH"
         (mk_symbol_state 0 0 []
            [new_lot "ETH" (Tx.mk 1 "ETH" "buy" (10#1) (3#1));
             new_lot "ETH" (Tx.mk 2 "ETH" "buy" (7#1) (5#1))])
         [Tx.mk 3 "ETH" "sell" (4#1) (6#1);
          Tx.mk 4 "ETH" "sell" (4#1) (6#1);
          Tx.mk 5 "ETH" "buy" (1#1) (6#1);
          Tx.mk 6 "ETH" "sell" (5#1) (6#1)])
    = of_lot ++ later
    /\ List.length of_lot = 3%nat
    /\ sum_Q Detail.cost_basis of_lot == 10 * 3.
Proof.
  destruct (cost_basis_conservation "ETH" []
              (new_lot "ETH" (Tx.mk 1 "ETH" "buy" (10#1) (3#1)))
              [new_lot "ETH" (Tx.mk 2 "ETH" "buy" (7#1) (5#1))]
              [Tx.mk 3 "ETH" "sell" (4#1) (6#1);
               Tx.mk 4 "ETH" "sell" (4#1) (6#1);
               Tx.mk 5 "ETH" "buy" (1#1) (6#1);
               Tx.mk 6 "ETH" "sell" (5#1) (6#1)])
    as (of_lot & later & Hu & Hw & _ & _ & _ & Hall).
  exists of_lot, later. split; [exact Hw|]. split.
  - apply (f_equal (@List.length _)) in Hu. rewrite length_app in Hu.
    vm_compute in Hu. symmetry. exact Hu.
  - apply (Hall (Tx.mk 1 "ETH" "buy" (10#1) (3#1))); reflexivity.
Defined.

(** ** The aggregation over the symbols *)

Lemma py_max_Qmax (a b : Q) : py_max a b = Qmax a b.
Proof.
  unfold py_max, Qmax, GenericMinMax.gmax.
  destruct (a ?= b) eqn:E.
  - apply Qeq_alt in E. replace (Qltb a b) with false; [reflexivity|].
    symmetry. apply Qltb_ge. lra.
  - apply Qlt_alt in E. replace (Qltb a b) with true; [reflexivity|].
    symmetry. apply Qltb_lt. exact E.
  - apply Qgt_alt in E. replace (Qltb a b) with false; [reflexivity|].
    symmetry. apply Qltb_ge. lra.
Qed.

Section Aggregation.

Variable sort_values : list Tx.t -> list Tx.t.
Variable df : list Tx.t.

(** The results of one symbol, as the loop over the symbols computes them. *)
Let per_symbol (symbol : string) : SymbolResults.t :=
  _calculate_symbol_fifo symbol (symbol_df_of sort_values df symbol).

Lemma aggregate_fold (symbols : list string) :
  forall r0,
    let r := fold_left (aggregate sort_values df) symbols r0 in
    Report.transactions_detail r
    = Report.transactions_detail r0
        ++ flat_map (fun s => SymbolResults.transactions_detail (per_symbol s))
                    symbols
    /\ Report.holdings_summary r
       = Report.holdings_summary r0
           ++ flat_map (fun s => SymbolResults.remaining_holdings (per_symbol s))
                       symbols
    /\ Report.short_term_gain r
       == Report.short_term_gain r0
          + sum_Q (fun s => SymbolResults.short_term_gain (per_symbol s)) symbols
    /\ Report.long_term_gain r
       == Report.long_term_gain r0
          + sum_Q (fun s => SymbolResults.long_term_gain (per_symbol s)) symbols
    /\ Report.estimated_tax r = Report.estimated_tax r0.
Proof.
  subst per_symbol.
  induction symbols as [|s symbols IH]; intros r0; cbn [fold_left flat_map].
  - rewrite !app_nil_r, !sum_Q_nil. repeat split; lra.
  - destruct (IH (aggregate sort_values df r0 s)) as (Hd & Hh & Hs & Hl & He).
    cbv zeta. rewrite Hd, Hh, Hs, Hl, He, !sum_Q_cons. unfold aggregate.
    cbn [Report.transactions_detail Report.holdings_summary
         Report.short_term_gain Report.long_term_gain Report.estimated_tax].
    rewrite <- !app_assoc.
    split; [reflexivity|]. split; [|repeat split; lra].
    destruct (SymbolResults.remaining_holdings
                (_calculate_symbol_fifo s (symbol_df_of sort_values df s)));
      [reflexivity | rewrite <- app_assoc; reflexivity].
Qed.

(** The report, from the results of the symbols. *)
Lemma calculate_fifo_taxes_fold :
  let rep := calculate_fifo_taxes sort_values df in
  let symbols := unique (map Tx.symbol df) in
  Report.transactions_detail rep
  = flat_map (fun s => SymbolResults.transactions_detail (per_symbol s)) symbols
  /\ Report.holdings_summary rep
     = flat_map (fun s => SymbolResults.remaining_holdings (per_symbol s)) symbols
  /\ Report.short_term_gain rep
     == sum_Q (fun s => SymbolResults.short_term_gain (per_symbol s)) symbols
  /\ Report.long_term_gain rep
     == sum_Q (fun s => SymbolResults.long_term_gain (per_symbol s)) symbols.
Proof.
  cbv zeta. unfold calculate_fifo_taxes.
  cbn [Report.transactions_detail Report.holdings_summary
       Report.short_term_gain Report.long_term_gain].
  destruct (aggregate_fold (unique (map Tx.symbol df)) (Report.mk 0 0 0 [] []))
    as (Hd & Hh & Hs & Hl & _).
  cbv zeta in *.
  cbn [Report.transactions_detail Report.holdings_summary
       Report.short_term_gain Report.long_term_gain app] in *.
  rewrite Hd, Hh, Hs, Hl. repeat split; lra.
Qed.

End Aggregation.

(** C4. The short-term and long-term totals of the report are the sums, over
    the symbols, of the totals of each symbol, and the estimated tax is
    [max(0, short) * 0.22 + max(0, long) * 0.15]. A negative short-term total
    leaves the tax of the long-term total alone, whatever its sign, and the
    other way round. *)
Theorem estimated_tax_formula (sort_values : list Tx.t -> list Tx.t)
    (df : list Tx.t) :
  let rep := calculate_fifo_taxes sort_values df in
  let per_symbol s :=
    _calculate_symbol_fifo s (symbol_df_of sort_values df s) in
  let symbols := unique (map Tx.symbol df) in
  Report.short_term_gain rep
  == sum_Q (fun s => SymbolResults.short_term_gain (per_symbol s)) symbols
  /\ Report.long_term_gain rep
     == sum_Q (fun s => SymbolResults.long_term_gain (per_symbol s)) symbols
  /\ Report.estimated_tax rep
     = Qmax 0 (Report.short_term_gain rep) * (22 # 100)
       + Qmax 0 (Report.long_term_gain rep) * (15 # 100)
  /\ (Report.short_term_gain rep < 0 ->
      Report.estimated_tax rep
      == Qmax 0 (Report.long_term_gain rep) * (15 # 100))
  /\ (Report.long_term_gain rep < 0 ->
      Report.estimated_tax rep
      == Qmax 0 (Report.short_term_gain rep) * (22 # 100)).
Proof.
  cbv zeta.
  destruct (calculate_fifo_taxes_fold sort_values df) as (_ & _ & Hs & Hl).
  cbv zeta in Hs, Hl. split; [exact Hs|]. split; [exact Hl|].
  assert (E : Report.estimated_tax (calculate_fifo_taxes sort_values df)
              = Qmax 0 (Report.short_term_gain (calculate_fifo_taxes sort_values df))
                * (22 # 100)
                + Qmax 0 (Report.long_term_gain (calculate_fifo_taxes sort_values df))
                  * (15 # 100)).
  { unfold calculate_fifo_taxes.
    cbn [Report.estimated_tax Report.short_term_gain Report.long_term_gain].
    rewrite !py_max_Qmax. reflexivity. }
  split; [exact E|]. split; intro Hneg; rewrite E.
  - rewrite (Q.max_l 0 (Report.short_term_gain _)) by lra. lra.
  - rewrite (Q.max_l 0 (Report.long_term_gain _)) by lra. lra.
Qed.

(** One unit bought at 10 and sold at 5 within the year, one unit bought at
    10 and sold at 30 two years later: a short-term loss of 5 and a long-term
    gain of 20, taxed 3. *)
Lemma estimated_tax_formula_witness :
  let rep :=
    calculate_fifo_taxes sort_by_date
      [Tx.mk 0 "BTC" "buy" (1#1) (10#1);
       Tx.mk (10 * ns_per_day) "BTC" "sell" (1#1) (5#1);
       Tx.mk 0 "ETH" "buy" (1#1) (10#1);
       Tx.mk (730 * ns_per_day) "ETH" "sell" (1#1) (30#1)] in
  Report.short_term_gain rep < 0
  /\ Report.estimated_tax rep == Qmax 0 (Report.long_term_gain rep) * (15 # 100)
  /\ Report.estimated_tax rep == 3.
Proof.
  cbv zeta.
  assert (Hneg : Report.short_term_gain
                   (calculate_fifo_taxes sort_by_date
                      [Tx.mk 0 "BTC" "buy" (1#1) (10#1);
                       Tx.mk (10 * ns_per_day) "BTC" "sell" (1#1) (5#1);
                       Tx.mk 0 "ETH" "buy" (1#1) (10#1);
                       Tx.mk (730 * ns_per_day) "ETH" "sell" (1#1) (30#1)]) < 0)
    by (vm_compute; reflexivity).
  split; [exact Hneg|]. split.
  - apply (estimated_tax_formula sort_by_date). exact Hneg.
  - vm_compute. reflexivity.
Defined.

(** ** Lots are matched in the order they were bought *)

Lemma sorted_app_iff (l1 l2 : list Z) :
  StronglySorted Z.le (l1 ++ l2)
  <-> StronglySorted Z.le l1 /\ StronglySorted Z.le l2
      /\ Forall (fun x => Forall (Z.le x) l2) l1.
Proof.
  induction l1 as [|x l1 IH]; cbn [app].
  - split; [intro H; repeat split; [constructor | exact H | constructor]|].
    intros (_ & H & _). exact H.
  - split.
    + intro H. inversion H as [|? ? Hs Hx]; subst.
      apply IH in Hs. destruct Hs as (H1 & H2 & H12).
      apply Forall_app in Hx. destruct Hx as [Hx1 Hx2].
      repeat split; try assumption; constructor; assumption.
    + intros (H1 & H2 & H12).
      inversion H1 as [|? ? Hs Hx]; subst.
      inversion H12 as [|? ? Hx2 H12']; subst.
      constructor.
      * apply IH. repeat split; assumption.
      * apply Forall_app. split; assumption.
Qed.

Section FifoOrder.

Variable symbol : string.

Lemma spec_sell_incl sale_date P (queue : list Lot.t) (Q : Q) :
  Forall (fun x => In x (map Lot.date queue))
         (dates (fst (spec_sell symbol sale_date P queue Q))
                (snd (spec_sell symbol sale_date P queue Q))).
Proof.
  unfold dates.
  destruct (spec_sell_dates symbol (fun x => In x (map Lot.date queue))
              sale_date P queue) with (Q := Q) as [H1 H2].
  { rewrite Forall_forall. intros lot Hin. apply in_map. exact Hin. }
  apply Forall_app. split; rewrite Forall_map; assumption.
Qed.

Lemma spec_sell_sorted sale_date P (queue : list Lot.t) :
  StronglySorted Z.le (map Lot.date queue) ->
  forall Q,
    StronglySorted Z.le
      (dates (fst (spec_sell symbol sale_date P queue Q))
             (snd (spec_sell symbol sale_date P queue Q))).
Proof.
  unfold dates.
  induction queue as [|lot rest IH]; intros Hs Q; cbn [spec_sell].
  - constructor.
  - destruct (Qltb 0 Q); [|exact Hs].
    cbn [map] in Hs. inversion Hs as [|? ? Hrest Hlot]; subst.
    destruct (Qle_bool (Lot.quantity lot) Q).
    + specialize (IH Hrest (Q - Lot.quantity lot)).
      pose proof (spec_sell_incl sale_date P rest (Q - Lot.quantity lot)) as Hin.
      unfold dates in Hin.
      destruct (spec_sell symbol sale_date P rest (Q - Lot.quantity lot)).
      cbn [fst snd map app] in *. constructor; [exact IH|].
      rewrite Forall_forall in *. intros x Hx. apply Hlot, Hin, Hx.
    + cbn [fst snd map app spec_match spec_decrement Detail.purchase_date
           Lot.date].
      constructor; [exact Hs|]. constructor; [lia | exact Hlot].
Qed.

Lemma symbol_step_ordered (m : Z) (st : symbol_state) (t : Tx.t) :
  (m <= Tx.date t)%Z -> ordered m st ->
  ordered (Tx.date t) (symbol_step symbol st t).
Proof.
  unfold ordered, dates. intros Hm [Hs Hb].
  assert (Hb' : Forall (fun x => (x <= Tx.date t)%Z)
                  (map Detail.purchase_date (sym_transactions_detail st)
                     ++ map Lot.date (sym_fifo_queue st))).
  { eapply Forall_impl; [|exact Hb]. cbv beta. intros; lia. }
  destruct (is_buy t) eqn:Hbuy.
  - destruct (symbol_step_buy symbol st t Hbuy) as [-> ->].
    rewrite map_app, app_assoc. cbn [map new_lot Lot.date]. split.
    + apply sorted_app_iff. split; [exact Hs|].
      split; [repeat constructor|].
      eapply Forall_impl; [|exact Hb']. cbv beta. intros x Hx.
      constructor; [exact Hx | constructor].
    + apply Forall_app. split; [exact Hb'|]. constructor; [lia | constructor].
  - destruct (is_sell t) eqn:Hsell.
    2:{ rewrite symbol_step_other by assumption. split; assumption. }
    destruct (symbol_step_sell symbol st t Hbuy Hsell) as [-> ->].
    apply sorted_app_iff in Hs. destruct Hs as (Hd & Hq & Hdq).
    pose proof (spec_sell_sorted (Tx.date t) (Tx.price t) (sym_fifo_queue st)
                  Hq (Tx.quantity t)) as Hs'.
    pose proof (spec_sell_incl (Tx.date t) (Tx.price t) (sym_fifo_queue st)
                  (Tx.quantity t)) as Hin.
    unfold dates in Hs', Hin.
    apply Forall_app in Hb'. destruct Hb' as [Hbd Hbq].
    rewrite map_app, <- app_assoc. split.
    + apply sorted_app_iff. split; [exact Hd|]. split; [exact Hs'|].
      rewrite Forall_forall in *. intros x Hx.
      rewrite Forall_forall. intros y Hy.
      specialize (Hdq x Hx). rewrite Forall_forall in Hdq.
      apply Hdq, Hin, Hy.
    + apply Forall_app. split; [exact Hbd|].
      rewrite Forall_forall in *. intros x Hx. apply Hbq, Hin, Hx.
Qed.

Lemma symbol_loop_ordered (df : list Tx.t) :
  sorted_by_date df ->
  forall m st,
    Forall (fun t => (m <= Tx.date t)%Z) df -> ordered m st ->
    exists m', ordered m' (symbol_loop symbol st df).
Proof.
  unfold symbol_loop.
  induction 1 as [|t df Hdf IH Ht]; intros m st Hm Hst; cbn [fold_left].
  - exists m. exact Hst.
  - inversion Hm as [|? ? Hmt _]; subst.
    apply (IH (Tx.date t)); [exact Ht|].
    apply (symbol_step_ordered m); assumption.
Qed.

(** The results of a symbol on rows in date order: the purchase dates of
    the matches never decrease, and no holding is older than a match. *)
Lemma calculate_symbol_fifo_ordered (df : list Tx.t) :
  sorted_by_date df ->
  let r := _calculate_symbol_fifo symbol df in
  StronglySorted Z.le
    (map Detail.purchase_date (SymbolResults.transactions_detail r))
  /\ Forall (fun h =>
               Forall (fun d =>
                         (Detail.purchase_date d <= Holding.purchase_date h)%Z)
                      (SymbolResults.transactions_detail r))
            (SymbolResults.remaining_holdings r).
Proof.
  intros Hdf. cbv zeta. unfold _calculate_symbol_fifo.
  cbn [SymbolResults.transactions_detail SymbolResults.remaining_holdings].
  destruct (symbol_loop_ordered df Hdf
              (match df with [] => 0%Z | t :: _ => Tx.date t end)
              (mk_symbol_state 0 0 [] [])) as (m' & Hs & _).
  { destruct df as [|t df']; [constructor|].
    inversion Hdf as [|? ? _ Ht]; subst.
    constructor; [lia | exact Ht]. }
  { unfold ordered, dates. split; constructor. }
  unfold dates in Hs. apply sorted_app_iff in Hs.
  destruct Hs as (Hd & _ & Hdq). split; [exact Hd|].
  unfold remaining_holdings_of.
  rewrite Forall_forall in *. intros h Hh.
  apply in_map_iff in Hh. destruct Hh as (lot & <- & Hlot).
  apply filter_In in Hlot. destruct Hlot as [Hlot _].
  rewrite Forall_forall. intros d Hd'. cbn [holding_of Holding.purchase_date].
  specialize (Hdq (Detail.purchase_date d) (in_map _ _ _ Hd')).
  rewrite Forall_forall in Hdq. apply Hdq. apply in_map. exact Hlot.
Qed.

(** The matches and the holdings of a symbol bear its name. *)
Lemma spec_sell_symbol sale_date P (queue : list Lot.t) :
  Forall (fun lot => Lot.symbol lot = symbol) queue ->
  forall Q,
    Forall (fun lot => Lot.symbol lot = symbol)
           (snd (spec_sell symbol sale_date P queue Q)).
Proof.
  induction 1 as [|lot rest Hlot Hrest IH]; intros Q; cbn [spec_sell].
  - constructor.
  - destruct (Qltb 0 Q); [|constructor; assumption].
    destruct (Qle_bool (Lot.quantity lot) Q).
    + specialize (IH (Q - Lot.quantity lot)).
      destruct (spec_sell symbol sale_date P rest (Q - Lot.quantity lot)).
      exact IH.
    + cbn [snd]. constructor; assumption.
Qed.

Lemma symbol_loop_symbol (df : list Tx.t) :
  forall st,
    Forall (fun d => Detail.symbol d = symbol) (sym_transactions_detail st) ->
    Forall (fun lot => Lot.symbol lot = symbol) (sym_fifo_queue st) ->
    Forall (fun d => Detail.symbol d = symbol)
           (sym_transactions_detail (symbol_loop symbol st df))
    /\ Forall (fun lot => Lot.symbol lot = symbol)
              (sym_fifo_queue (symbol_loop symbol st df)).
Proof.
  unfold symbol_loop.
  induction df as [|t df IH]; intros st Hd Hq; cbn [fold_left].
  - split; assumption.
  - destruct (is_buy t) eqn:Hbuy.
    + destruct (symbol_step_buy symbol st t Hbuy) as [Ed Eq].
      apply IH; [rewrite Ed; exact Hd | rewrite Eq].
      apply Forall_app. split; [exact Hq | repeat constructor].
    + destruct (is_sell t) eqn:Hsell.
      2:{ rewrite symbol_step_other by assumption. apply IH; assumption. }
      destruct (symbol_step_sell symbol st t Hbuy Hsell) as [Ed Eq].
      apply IH; [rewrite Ed | rewrite Eq].
      * apply Forall_app. split; [exact Hd|].
        apply spec_sell_Forall. intros; reflexivity.
      * apply spec_sell_symbol. exact Hq.
Qed.

Lemma calculate_symbol_fifo_symbol (df : list Tx.t) :
  Forall (fun d => Detail.symbol d = symbol)
         (SymbolResults.transactions_detail (_calculate_symbol_fifo symbol df))
  /\ Forall (fun h => Holding.symbol h = symbol)
            (SymbolResults.remaining_holdings (_calculate_symbol_fifo symbol df)).
Proof.
  unfold _calculate_symbol_fifo.
  cbn [SymbolResults.transactions_detail SymbolResults.remaining_holdings].
  destruct (symbol_loop_symbol df (mk_symbol_state 0 0 [] []))
    as [Hd Hq]; [constructor | constructor |].
  split; [exact Hd|]. unfold remaining_holdings_of.
  rewrite Forall_forall in *. intros h Hh.
  apply in_map_iff in Hh. destruct Hh as (lot & <- & Hlot).
  apply filter_In in Hlot. destruct Hlot as [Hlot _].
  apply Hq. exact Hlot.
Qed.

End FifoOrder.

Lemma unique_In (l : list string) (x : string) : In x (unique l) <-> In x l.
Proof.
  induction l as [|y l IH]; cbn [unique]; [reflexivity|].
  split.
  - intros [-> | H]; [left; reflexivity|].
    apply filter_In in H. right. apply IH. tauto.
  - intros [-> | H]; [left; reflexivity|].
    destruct (String.eqb y x) eqn:E.
    + apply String.eqb_eq in E. left. exact E.
    + right. apply filter_In. rewrite E. split; [apply IH; exact H | reflexivity].
Qed.

Lemma unique_NoDup (l : list string) : NoDup (unique l).
Proof.
  induction l as [|x l IH]; cbn [unique]; constructor.
  - intro H. apply filter_In in H. destruct H as [_ H].
    rewrite String.eqb_refl in H. discriminate.
  - apply NoDup_filter. exact IH.
Qed.

(** Entries gathered symbol by symbol, each bearing the name of its symbol:
    those of one symbol are the entries gathered for it. *)
Lemma filter_flat_map_symbol {A : Type} (name : A -> string)
    (f : string -> list A) (s : string) (symbols : list string) :
  NoDup symbols ->
  (forall s', Forall (fun a => name a = s') (f s')) ->
  filter (fun a => String.eqb (name a) s) (flat_map f symbols)
  = if in_dec string_dec s symbols then f s else [].
Proof.
  intros Hnd Hf.
  assert (Hsame : filter (fun a => String.eqb (name a) s) (f s) = f s).
  { specialize (Hf s). induction Hf as [|a l Ha _ IHl]; cbn [filter].
    - reflexivity.
    - rewrite Ha, String.eqb_refl, IHl. reflexivity. }
  assert (Hother : forall s', s' <> s ->
             filter (fun a => String.eqb (name a) s) (f s') = []).
  { intros s' Hne. specialize (Hf s').
    induction Hf as [|a l Ha _ IHl]; cbn [filter].
    - reflexivity.
    - rewrite Ha. apply String.eqb_neq in Hne. rewrite Hne. exact IHl. }
  induction Hnd as [|s' symbols Hnotin Hnd IH]; cbn [flat_map].
  - destruct (in_dec string_dec s []) as [[]|]. reflexivity.
  - rewrite filter_app, IH.
    destruct (string_dec s' s) as [->|Hne].
    + rewrite Hsame.
      destruct (in_dec string_dec s symbols) as [Hin|_]; [contradiction|].
      destruct (in_dec string_dec s (s :: symbols)) as [_|Hn];
        [apply app_nil_r | exfalso; apply Hn; left; reflexivity].
    + rewrite (Hother s' Hne). cbn [app].
      destruct (in_dec string_dec s symbols) as [Hin|Hn];
        destruct (in_dec string_dec s (s' :: symbols)) as [Hin'|Hn'];
        try reflexivity.
      * exfalso. apply Hn'. right. exact Hin.
      * destruct Hin' as [E|Hin']; [contradiction | contradiction].
Qed.

Section ReportOrder.

Variable sort_values : list Tx.t -> list Tx.t.
Hypothesis sort_values_sorted : forall df, sorted_by_date (sort_values df).

(** C2. In the report of any table, the matches of a symbol, in the order
    they were emitted, have purchase dates that never decrease, and no
    holding reported for the symbol has a purchase date before that of a
    match: a lot is matched only when every lot bought before it is used
    up. [sort_values] is any function that returns its rows in date
    order. *)
Theorem fifo_purchase_order (df : list Tx.t) (symbol : string) :
  let rep := calculate_fifo_taxes sort_values df in
  let matches :=
    filter (fun d => String.eqb (Detail.symbol d) symbol)
           (Report.transactions_detail rep) in
  let holdings :=
    filter (fun h => String.eqb (Holding.symbol h) symbol)
           (Report.holdings_summary rep) in
  StronglySorted Z.le (map Detail.purchase_date matches)
  /\ Forall (fun h =>
               Forall (fun d =>
                         (Detail.purchase_date d <= Holding.purchase_date h)%Z)
                      matches)
            holdings.
Proof.
  cbv zeta.
  destruct (calculate_fifo_taxes_fold sort_values df) as (Hd & Hh & _).
  cbv zeta in Hd, Hh. rewrite Hd, Hh.
  rewrite (filter_flat_map_symbol Detail.symbol), (filter_flat_map_symbol Holding.symbol).
  - destruct (in_dec string_dec symbol (unique (map Tx.symbol df))).
    + apply calculate_symbol_fifo_ordered. apply sort_values_sorted.
    + split; constructor.
  - apply unique_NoDup.
  - intro s'. apply calculate_symbol_fifo_symbol.
  - apply unique_NoDup.
  - intro s'. apply calculate_symbol_fifo_symbol.
Qed.

End ReportOrder.

Section InsertionSorts.

Variable before : Z -> Z -> bool.
Hypothesis before_true : forall a b, before a b = true -> (a <= b)%Z.
Hypothesis before_false : forall a b, before a b = false -> (b <= a)%Z.

Lemma insert_by_Forall (R : Tx.t -> Prop) (r : Tx.t) (l : list Tx.t) :
  R r -> Forall R l -> Forall R (insert_by before r l).
Proof.
  intros Hr. induction 1 as [|x l Hx Hl IH]; cbn [insert_by].
  - constructor; [exact Hr | constructor].
  - destruct (before (Tx.date r) (Tx.date x)).
    + constructor; [exact Hr|]. constructor; assumption.
    + constructor; assumption.
Qed.

Lemma insert_by_sorted (r : Tx.t) (l : list Tx.t) :
  sorted_by_date l -> sorted_by_date (insert_by before r l).
Proof.
  unfold sorted_by_date. induction 1 as [|x l Hl IH Hx]; cbn [insert_by].
  - repeat constructor.
  - destruct (before (Tx.date r) (Tx.date x)) eqn:E.
    + apply before_true in E. constructor; [constructor; assumption|].
      constructor; [exact E|].
      eapply Forall_impl; [|exact Hx]. cbv beta. intros; lia.
    + apply before_false in E. constructor; [exact IH|].
      apply insert_by_Forall; [exact E | exact Hx].
Qed.

Lemma sort_by_sorted (df : list Tx.t) : sorted_by_date (sort_by before df).
Proof.
  unfold sort_by. induction df as [|r df IH]; cbn [fold_right].
  - constructor.
  - apply insert_by_sorted. exact IH.
Qed.

Lemma insert_by_Permutation (r : Tx.t) (l : list Tx.t) :
  Permutation (r :: l) (insert_by before r l).
Proof.
  induction l as [|x l IH]; cbn [insert_by].
  - apply Permutation_refl.
  - destruct (before (Tx.date r) (Tx.date x)).
    + apply Permutation_refl.
    + eapply perm_trans; [apply perm_swap|]. apply perm_skip. exact IH.
Qed.

Lemma sort_by_Permutation (df : list Tx.t) : Permutation df (sort_by before df).
Proof.
  unfold sort_by. induction df as [|r df IH]; cbn [fold_right].
  - constructor.
  - eapply perm_trans; [apply perm_skip; exact IH|].
    apply insert_by_Permutation.
Qed.

End InsertionSorts.

Lemma sort_by_date_sorted (df : list Tx.t) : sorted_by_date (sort_by_date df).
Proof.
  apply sort_by_sorted; intros a b H; [apply Z.leb_le in H | apply Z.leb_gt in H];
    lia.
Qed.

Lemma sort_by_date_Permutation (df : list Tx.t) :
  Permutation df (sort_by_date df).
Proof. apply sort_by_Permutation. Qed.

(** Two symbols with interleaved buys and sells, rows out of order. *)
Lemma fifo_purchase_order_witness :
  StronglySorted Z.le
    (map Detail.purchase_date
       (filter (fun d => String.eqb (Detail.symbol d) "BTC")
          (Report.transactions_detail
             (calculate_fifo_taxes sort_by_date
                [Tx.mk 40 "BTC" "sell" (3#1) (9#1);
                 Tx.mk 10 "BTC" "buy" (2#1) (5#1);
                 Tx.mk 15 "ETH" "buy" (1#1) (7#1);
                 Tx.mk 20 "BTC" "buy" (2#1) (6#1);
                 Tx.mk 30 "ETH" "sell" (1#1) (8#1)])))).
Proof.
  apply (fifo_purchase_order sort_by_date sort_by_date_sorted).
Defined.


(** ** [calculate_taxes] computes on the table it was given *)

(** C9, as the code has it. [_validate_input] filters a copy of its own: the
    report of [calculate_taxes] is that of the whole table. On a table with a
    buy at price 0 before a buy at price 100 and a sell at 150, the sell is
    matched with the lot of price 0 and the short-term gain is 150; on the
    rows within the policy alone it is matched with the lot of price 100 and
    the gain is 50. *)
Theorem calculate_taxes_computes_on_all_rows (now : Z) :
  let df :=
    [Tx.mk (1 * ns_per_day) "BTC" "buy" (1#1) (0#1);
     Tx.mk (2 * ns_per_day) "BTC" "buy" (1#1) (100#1);
     Tx.mk (3 * ns_per_day) "BTC" "sell" (1#1) (150#1)] in
  (forall sort_values table,
      calculate_taxes sort_values now table
      = if _validate_input table
        then Some (mk_tax_results (calculate_fifo_taxes sort_values table) now
                                  (List.length table) "FIFO" get_tax_rate_info)
        else None)
  /\ filter in_policy df
     = [Tx.mk (2 * ns_per_day) "BTC" "buy" (1#1) (100#1);
        Tx.mk (3 * ns_per_day) "BTC" "sell" (1#1) (150#1)]
  /\ exists res res',
      calculate_taxes sort_by_date now df = Some res
      /\ calculate_taxes sort_by_date now (filter in_policy df) = Some res'
      /\ Report.short_term_gain (report res) == 150
      /\ Report.short_term_gain (report res') == 50
      /\ map Holding.avg_cost (Report.holdings_summary (report res)) = [100#1]
      /\ Report.holdings_summary (report res') = [].
Proof.
  cbv zeta. split; [|split].
  - intros sort_values table. unfold calculate_taxes.
    destruct (_validate_input table); reflexivity.
  - reflexivity.
  - eexists. eexists. split; [reflexivity|]. split; [reflexivity|].
    vm_compute. repeat split; try reflexivity; discriminate.
Qed.

(** ** [parse_csv]: empty input, and the order of the rows *)

Section NormalizerProperties.

Variable to_numeric : string -> option Q.
Variable to_datetime_format : string -> string -> option Z.
Variable to_datetime_coerce : list string -> list (option Z).
Variable sort_values : list Tx.t -> list Tx.t.

Hypothesis sort_values_Permutation : forall df, Permutation df (sort_values df).
Hypothesis sort_values_sorted : forall df, sorted_by_date (sort_values df).

Let parse :=
  parse_csv to_numeric to_datetime_format to_datetime_coerce sort_values.
Let clean := _clean_data to_numeric.

(** C8, as the code has it. [parse_csv] fails with the message of an empty
    file exactly when the table read has no row (or no column). A table with
    rows, the five columns once each, and no row left by the cleaning is not
    a failure: [parse_csv] returns the empty sequence. *)
Theorem empty_file_only_when_no_rows (raw : RawTable) :
  (parse raw = Failed Empty_file <-> rows raw = [] \/ columns raw = [])
  /\ (rows raw <> [] -> columns raw <> [] ->
      _validate_columns (_standardize_columns raw) = true ->
      (forall col, In col required_columns ->
                   duplicated (_standardize_columns raw) col = false) ->
      clean (raw_rows (_standardize_columns raw)) = [] ->
      parse raw = Parsed []).
Proof.
  subst parse clean. unfold parse_csv. split.
  - destruct (rows raw) as [|row rs]; cbn [is_empty orb].
    { split; [left; reflexivity | reflexivity]. }
    destruct (columns raw) as [|c cs]; cbn [is_empty].
    { split; [right; reflexivity | reflexivity]. }
    split; [|intros [H|H]; discriminate].
    destruct (negb (_validate_columns _)); [discriminate|].
    destruct (existsb _ _); [discriminate|].
    destruct (duplicated _ _); [discriminate|].
    unfold _parse_dates. destruct (find _ _); discriminate.
  - intros Hrows Hcols Hvalid Hdup Hclean.
    destruct (rows raw) as [|row rs]; [contradiction|].
    destruct (columns raw) as [|c cs] eqn:Ec; [contradiction|].
    cbn [is_empty orb]. rewrite Hvalid. cbn [negb].
    replace (existsb (duplicated (_standardize_columns raw))
               ["symbol"; "type"; "quantity"; "price"]%string) with false.
    2:{ symmetry. cbn [existsb].
        rewrite !Hdup by (unfold required_columns; cbn [In]; tauto).
        reflexivity. }
    rewrite Hdup by (left; reflexivity).
    rewrite Hclean. cbn.
    rewrite (Permutation_nil (sort_values_Permutation [])). reflexivity.
Qed.


End NormalizerProperties.

Lemma empty_file_only_when_no_rows_witness :
  sample_parse_csv sort_by_date table_without_valid_row = Parsed [].
Proof.
  apply (empty_file_only_when_no_rows sample_to_numeric sample_to_datetime_format
           sample_to_datetime_coerce sort_by_date sort_by_date_Permutation
           table_without_valid_row).
  - discriminate.
  - discriminate.
  - reflexivity.
  - intros col Hin. cbn [required_columns In] in Hin.
    repeat (destruct Hin as [<- | Hin]; [reflexivity|]). contradiction.
  - reflexivity.
Defined.

(** The claim C8 fails on the table of one row of quantity 0: no row is left
    by the cleaning, and [parse_csv] does not fail. *)
Lemma no_row_left_is_not_a_failure :
  ~ (_clean_data sample_to_numeric
       (raw_rows (_standardize_columns table_without_valid_row)) = [] ->
     exists e, sample_parse_csv sort_by_date table_without_valid_row = Failed e).
Proof.
  intro H. destruct H as [e He]; [reflexivity|].
  vm_compute in He. discriminate He.
Qed.



(** * Further properties of the engine *)

(** ** What a sale matches *)

Lemma sum_Q_nonneg {A : Type} (f : A -> Q) (l : list A) :
  Forall (fun x => 0 < f x) l -> 0 <= sum_Q f l.
Proof.
  induction 1 as [|x l Hx _ IH].
  - rewrite sum_Q_nil. lra.
  - rewrite sum_Q_cons. lra.
Qed.

Lemma spec_sell_quantity symbol sale_date P (queue : list Lot.t) :
  forall Q,
    sum_Q Detail.quantity (fst (spec_sell symbol sale_date P queue Q))
    + sum_Q Lot.quantity (snd (spec_sell symbol sale_date P queue Q))
    == sum_Q Lot.quantity queue.
Proof.
  induction queue as [|lot rest IH]; intros Q; cbn [spec_sell].
  - cbn. lra.
  - destruct (Qltb 0 Q).
    2:{ cbn [fst snd]. rewrite sum_Q_nil. lra. }
    destruct (Qle_bool (Lot.quantity lot) Q).
    + specialize (IH (Q - Lot.quantity lot)).
      destruct (spec_sell symbol sale_date P rest (Q - Lot.quantity lot)).
      cbn [fst snd] in *. rewrite !sum_Q_cons.
      unfold spec_match at 1. cbn [Detail.quantity]. lra.
    + cbn [fst snd]. rewrite !sum_Q_cons, sum_Q_nil.
      unfold spec_match, spec_decrement.
      cbn [Detail.quantity Lot.quantity]. lra.
Qed.

Lemma spec_sell_matched symbol sale_date P (queue : list Lot.t) :
  Forall (fun lot => 0 < Lot.quantity lot) queue ->
  forall Q, 0 <= Q ->
    sum_Q Detail.quantity (fst (spec_sell symbol sale_date P queue Q))
    == Qmin Q (sum_Q Lot.quantity queue).
Proof.
  induction 1 as [|lot rest Hpos Hrest IH]; intros Q HQ; cbn [spec_sell].
  - cbn [fst]. rewrite !sum_Q_nil. rewrite Q.min_r by exact HQ. reflexivity.
  - pose proof (sum_Q_nonneg Lot.quantity rest Hrest) as Hge.
    rewrite sum_Q_cons.
    destruct (Qltb 0 Q) eqn:E0.
    2:{ apply Qltb_ge in E0. cbn [fst]. rewrite sum_Q_nil.
        rewrite Q.min_l by lra. lra. }
    apply Qltb_lt in E0.
    destruct (Qle_bool (Lot.quantity lot) Q) eqn:Hle.
    + apply Qle_bool_iff in Hle.
      specialize (IH (Q - Lot.quantity lot)).
      destruct (spec_sell symbol sale_date P rest (Q - Lot.quantity lot)).
      cbn [fst] in *. rewrite sum_Q_cons, IH by lra.
      unfold spec_match. cbn [Detail.quantity].
      destruct (Qlt_le_dec (Q - Lot.quantity lot) (sum_Q Lot.quantity rest)).
      * rewrite (Q.min_l (Q - Lot.quantity lot)) by lra.
        rewrite (Q.min_l Q) by lra. lra.
      * rewrite (Q.min_r (Q - Lot.quantity lot)) by lra.
        rewrite (Q.min_r Q) by lra. lra.
    + apply Qle_bool_gt in Hle. cbn [fst]. rewrite sum_Q_cons, sum_Q_nil.
      unfold spec_match. cbn [Detail.quantity].
      rewrite Q.min_l by lra. lra.
Qed.

Lemma spec_sell_proceeds symbol sale_date P (queue : list Lot.t) :
  forall Q,
    sum_Q Detail.proceeds (fst (spec_sell symbol sale_date P queue Q))
    == sum_Q Detail.quantity (fst (spec_sell symbol sale_date P queue Q)) * P.
Proof.
  induction queue as [|lot rest IH]; intros Q; cbn [spec_sell].
  - cbn. lra.
  - destruct (Qltb 0 Q); [|cbn; lra].
    destruct (Qle_bool (Lot.quantity lot) Q).
    + specialize (IH (Q - Lot.quantity lot)).
      destruct (spec_sell symbol sale_date P rest (Q - Lot.quantity lot)).
      cbn [fst] in *. rewrite !sum_Q_cons, IH.
      unfold spec_match. cbn [Detail.quantity Detail.proceeds]. lra.
    + cbn [fst]. rewrite !sum_Q_cons, !sum_Q_nil.
      unfold spec_match. cbn [Detail.quantity Detail.proceeds]. lra.
Qed.

(** A sale of [Q >= 0] against lots of positive quantity matches the smaller
    of [Q] and the quantity queued, never more than was asked or than is
    there; the proceeds of its matches are that quantity at the sale price;
    and what it matches and what it leaves in the queue add up to what the
    queue held. *)
Theorem sale_matches_what_is_covered symbol sale_date P queue Q :
  Forall (fun lot => 0 < Lot.quantity lot) queue -> 0 <= Q ->
  let '(r, queue') := _process_sale symbol sale_date P queue Q in
  sum_Q Detail.quantity (Sale.transactions_detail r)
  == Qmin Q (sum_Q Lot.quantity queue)
  /\ sum_Q Detail.proceeds (Sale.transactions_detail r)
     == Qmin Q (sum_Q Lot.quantity queue) * P
  /\ sum_Q Detail.quantity (Sale.transactions_detail r)
     + sum_Q Lot.quantity queue'
     == sum_Q Lot.quantity queue.
Proof.
  intros Hpos HQ.
  pose proof (process_sale_refines symbol sale_date P queue Q) as (Hd & Hq & _).
  destruct (_process_sale symbol sale_date P queue Q) as [r queue'].
  cbn [fst snd] in Hd, Hq. rewrite Hd, Hq.
  pose proof (spec_sell_matched symbol sale_date P queue Hpos Q HQ) as Hm.
  split; [exact Hm|]. split.
  - rewrite spec_sell_proceeds, Hm. reflexivity.
  - apply spec_sell_quantity.
Qed.

(** A sell of 1 against lots of 1/2 and 1: the whole unit is matched. *)
Lemma sale_matches_what_is_covered_witness :
  sum_Q Detail.quantity
    (Sale.transactions_detail
       (fst (_process_sale "BTC" 10 (3#1)
               [Lot.mk "BTC" 0 (1#2) (2#1) (1#1);
                Lot.mk "BTC" 1 (1#1) (2#1) (2#1)] (1#1))))
  == Qmin (1#1) ((1#2) + ((1#1) + 0)).
Proof.
  pose proof (sale_matches_what_is_covered "BTC" 10 (3#1)
                [Lot.mk "BTC" 0 (1#2) (2#1) (1#1);
                 Lot.mk "BTC" 1 (1#1) (2#1) (2#1)] (1#1)) as H.
  destruct (_process_sale "BTC" 10 (3#1)
              [Lot.mk "BTC" 0 (1#2) (2#1) (1#1);
               Lot.mk "BTC" 1 (1#1) (2#1) (2#1)] (1#1)) as [r queue'].
  destruct H as (H & _).
  - repeat constructor.
  - discriminate.
  - exact H.
Defined.

Lemma spec_sell_priced symbol sale_date P (queue : list Lot.t) :
  Forall lot_consistent queue ->
  forall Q,
    Forall (fun d =>
              0 < Detail.quantity d
              /\ exists lot,
                  In lot queue
                  /\ Detail.purchase_date d = Lot.date lot
                  /\ Detail.cost_basis d == Detail.quantity d * Lot.price lot
                  /\ Detail.gain_loss d
                     == Detail.quantity d * (P - Lot.price lot))
           (fst (spec_sell symbol sale_date P queue Q)).
Proof.
  induction 1 as [|lot rest Hlot Hrest IH]; intros Q; cbn [spec_sell].
  - constructor.
  - destruct (Qltb 0 Q) eqn:E0; [|constructor]. apply Qltb_lt in E0.
    destruct Hlot as [Hpos Hcb].
    destruct (Qle_bool (Lot.quantity lot) Q) eqn:Hle.
    + specialize (IH (Q - Lot.quantity lot)).
      destruct (spec_sell symbol sale_date P rest (Q - Lot.quantity lot)).
      cbn [fst] in *. constructor.
      * unfold spec_match.
        cbn [Detail.quantity Detail.cost_basis Detail.gain_loss
             Detail.purchase_date Detail.proceeds].
        split; [exact Hpos|]. exists lot.
        split; [left; reflexivity|]. split; [reflexivity|].
        split; [exact Hcb | rewrite Hcb; ring].
      * eapply Forall_impl; [|exact IH]. cbv beta.
        intros d (Hd & lot' & Hin & Hrestd). split; [exact Hd|].
        exists lot'. split; [right; exact Hin | exact Hrestd].
    + apply Qle_bool_gt in Hle. cbn [fst]. constructor; [|constructor].
      unfold spec_match.
      cbn [Detail.quantity Detail.cost_basis Detail.gain_loss
           Detail.purchase_date Detail.proceeds].
      split; [exact E0|]. exists lot.
      split; [left; reflexivity|]. split; [reflexivity|].
      assert (Hne : ~ Lot.quantity lot == 0) by lra.
      split; rewrite Hcb; field; exact Hne.
Qed.

(** Against lots at their unit price (positive quantity, cost basis
    quantity times price), every match of a sale has a positive quantity, is
    the match of a lot of the queue, has that lot's price per unit as cost
    basis, and gains the quantity times the difference between the sale price
    and the lot's price. *)
Theorem match_gains_the_price_difference symbol sale_date P queue Q :
  Forall lot_consistent queue ->
  Forall (fun d =>
            0 < Detail.quantity d
            /\ exists lot,
                In lot queue
                /\ Detail.purchase_date d = Lot.date lot
                /\ Detail.cost_basis d == Detail.quantity d * Lot.price lot
                /\ Detail.gain_loss d
                   == Detail.quantity d * (P - Lot.price lot))
         (Sale.transactions_detail
            (fst (_process_sale symbol sale_date P queue Q))).
Proof.
  intro H.
  destruct (process_sale_refines symbol sale_date P queue Q) as (Hd & _).
  rewrite Hd. apply spec_sell_priced. exact H.
Qed.

Lemma match_gains_the_price_difference_witness :
  Forall (fun d =>
            0 < Detail.quantity d
            /\ exists lot,
                In lot [new_lot "BTC" (Tx.mk 0 "BTC" "buy" (1#2) (25000#1))]
                /\ Detail.purchase_date d = Lot.date lot
                /\ Detail.cost_basis d == Detail.quantity d * Lot.price lot
                /\ Detail.gain_loss d
                   == Detail.quantity d * ((26000#1) - Lot.price lot))
         (Sale.transactions_detail
            (fst (_process_sale "BTC" 17 (26000#1)
                    [new_lot "BTC" (Tx.mk 0 "BTC" "buy" (1#2) (25000#1))]
                    (3#10)))).
Proof.
  apply match_gains_the_price_difference.
  repeat constructor.
Defined.

Lemma spec_sell_prefix symbol sale_date P (queue : list Lot.t) :
  forall Q,
    exists n,
      (n <= List.length queue)%nat
      /\ ((Forall2 consumes_whole (firstn n queue)
                   (fst (spec_sell symbol sale_date P queue Q))
           /\ snd (spec_sell symbol sale_date P queue Q) = skipn n queue)
          \/ (exists lot rest Q' m,
                 skipn n queue = lot :: rest
                 /\ 0 < Q' /\ Q' < Lot.quantity lot
                 /\ Forall2 consumes_whole (firstn n queue)
                      (firstn n (fst (spec_sell symbol sale_date P queue Q)))
                 /\ skipn n (fst (spec_sell symbol sale_date P queue Q)) = [m]
                 /\ Detail.purchase_date m = Lot.date lot
                 /\ Detail.quantity m = Q'
                 /\ Detail.cost_basis m
                    = Lot.cost_basis lot / Lot.quantity lot * Q'
                 /\ snd (spec_sell symbol sale_date P queue Q)
                    = spec_decrement lot Q' :: rest)).
Proof.
  induction queue as [|lot rest IH]; intros Q; cbn [spec_sell].
  - exists O. split; [apply Nat.le_refl|]. left.
    split; [constructor | reflexivity].
  - destruct (Qltb 0 Q) eqn:E0.
    2:{ exists O. split; [apply Nat.le_0_l|]. left.
        split; [constructor | reflexivity]. }
    destruct (Qle_bool (Lot.quantity lot) Q) eqn:Hle.
    + destruct (IH (Q - Lot.quantity lot)) as (n & Hn & H).
      destruct (spec_sell symbol sale_date P rest (Q - Lot.quantity lot))
        as [matches queue'].
      cbn [fst snd] in *. exists (S n).
      split; [cbn [List.length]; lia|]. cbn [firstn skipn].
      assert (Hlot : consumes_whole lot
                       (spec_match symbol sale_date P lot (Lot.quantity lot)
                          (Lot.cost_basis lot)))
        by (repeat split; reflexivity).
      destruct H as [[Hm Hq] | (lot' & rest' & Q' & m & Hs & H0 & H1 & Hm & Hl & H)].
      * left. split; [constructor; assumption | exact Hq].
      * right. exists lot', rest', Q', m.
        split; [exact Hs|]. split; [exact H0|]. split; [exact H1|].
        split; [constructor; assumption|]. split; [exact Hl | exact H].
    + exists O. split; [apply Nat.le_0_l|]. right. cbn [fst snd firstn skipn].
      apply Qltb_lt in E0. apply Qle_bool_gt in Hle.
      exists lot, rest, Q,
        (spec_match symbol sale_date P lot Q
           (Lot.cost_basis lot / Lot.quantity lot * Q)).
      split; [reflexivity|]. split; [exact E0|]. split; [exact Hle|].
      split; [constructor|]. repeat split; reflexivity.
Qed.

(** A sale takes lots off the front of the queue and nothing else. For
    some [n], the matches are those of the first [n] lots of the queue, one
    each and in the order of the queue, each with its lot's purchase date,
    whole quantity and whole cost basis; and either the lots behind them are
    left as they were, in their order, or there is one more match, of the
    next lot, for a part [Q'] of its quantity and that share of its cost
    basis, and this lot stays at the front with what is left of both. No lot
    is matched twice in a sale and no lot behind the front is altered. *)
Theorem sale_consumes_a_prefix symbol sale_date P queue Q :
  let '(r, queue') := _process_sale symbol sale_date P queue Q in
  exists n,
    (n <= List.length queue)%nat
    /\ ((Forall2 consumes_whole (firstn n queue) (Sale.transactions_detail r)
         /\ queue' = skipn n queue)
        \/ (exists lot rest Q' m,
               skipn n queue = lot :: rest
               /\ 0 < Q' /\ Q' < Lot.quantity lot
               /\ Forall2 consumes_whole (firstn n queue)
                    (firstn n (Sale.transactions_detail r))
               /\ skipn n (Sale.transactions_detail r) = [m]
               /\ Detail.purchase_date m = Lot.date lot
               /\ Detail.quantity m = Q'
               /\ Detail.cost_basis m
                  = Lot.cost_basis lot / Lot.quantity lot * Q'
               /\ queue'
                  = Lot.mk (Lot.symbol lot) (Lot.date lot)
                      (Lot.quantity lot - Q') (Lot.price lot)
                      (Lot.cost_basis lot
                       - Lot.cost_basis lot / Lot.quantity lot * Q') :: rest)).
Proof.
  pose proof (process_sale_refines symbol sale_date P queue Q) as (Hd & Hq & _).
  destruct (_process_sale symbol sale_date P queue Q) as [r queue'].
  cbn [fst snd] in Hd, Hq. rewrite Hd, Hq.
  apply spec_sell_prefix.
Qed.

(** ** What the loop of a symbol keeps *)

Section SymbolFacts.

Variable symbol : string.

Lemma symbol_loop_valid_types (df : list Tx.t) :
  forall st,
    symbol_loop symbol st (filter has_valid_type df) = symbol_loop symbol st df.
Proof.
  unfold symbol_loop. induction df as [|t df IH]; intros st; cbn [filter].
  - reflexivity.
  - unfold has_valid_type at 1, isin, valid_types. cbn [existsb].
    fold (is_buy t). fold (is_sell t). rewrite orb_false_r.
    destruct (is_buy t) eqn:Hb; cbn [orb fold_left]; [apply IH|].
    destruct (is_sell t) eqn:Hs; cbn [fold_left]; [apply IH|].
    rewrite (symbol_step_other symbol st t Hb Hs). apply IH.
Qed.

(** Rows whose type is neither buy nor sell, whatever the case of its
    letters, change nothing: the results of a symbol are those of its rows
    of valid type. *)
Theorem other_types_are_skipped (df : list Tx.t) :
  _calculate_symbol_fifo symbol df
  = _calculate_symbol_fifo symbol (filter has_valid_type df).
Proof.
  unfold _calculate_symbol_fifo. rewrite symbol_loop_valid_types. reflexivity.
Qed.

Lemma symbol_loop_conserves (df : list Tx.t) :
  forall st,
    sum_Q Detail.quantity (sym_transactions_detail (symbol_loop symbol st df))
    + sum_Q Lot.quantity (sym_fifo_queue (symbol_loop symbol st df))
    == sum_Q Detail.quantity (sym_transactions_detail st)
       + sum_Q Lot.quantity (sym_fifo_queue st) + bought_quantity df
    /\ sum_Q Detail.cost_basis
         (sym_transactions_detail (symbol_loop symbol st df))
       + sum_Q Lot.cost_basis (sym_fifo_queue (symbol_loop symbol st df))
       == sum_Q Detail.cost_basis (sym_transactions_detail st)
          + sum_Q Lot.cost_basis (sym_fifo_queue st) + bought_cost df.
Proof.
  unfold symbol_loop, bought_quantity, bought_cost.
  induction df as [|t df IH]; intros st; cbn [fold_left filter].
  - rewrite !sum_Q_nil. split; lra.
  - destruct (IH (symbol_step symbol st t)) as [IHq IHc].
    rewrite IHq, IHc. clear IH IHq IHc.
    destruct (is_buy t) eqn:Hb.
    + destruct (symbol_step_buy symbol st t Hb) as [-> ->].
      rewrite !sum_Q_app, !sum_Q_cons, !sum_Q_nil.
      cbn [new_lot Lot.quantity Lot.cost_basis]. split; lra.
    + destruct (is_sell t) eqn:Hs.
      * destruct (symbol_step_sell symbol st t Hb Hs) as [-> ->].
        rewrite !sum_Q_app.
        pose proof (spec_sell_quantity symbol (Tx.date t) (Tx.price t)
                      (sym_fifo_queue st) (Tx.quantity t)).
        pose proof (spec_sell_cost_basis symbol (Tx.date t) (Tx.price t)
                      (sym_fifo_queue st) (Tx.quantity t)).
        split; lra.
      * rewrite (symbol_step_other symbol st t Hb Hs). split; lra.
Qed.

Lemma holdings_of_consistent (queue : list Lot.t) :
  Forall lot_consistent queue ->
  sum_Q Holding.quantity (remaining_holdings_of queue)
  == sum_Q Lot.quantity queue
  /\ sum_Q Holding.total_cost_basis (remaining_holdings_of queue)
     == sum_Q Lot.cost_basis queue
  /\ List.length (remaining_holdings_of queue) = List.length queue.
Proof.
  unfold remaining_holdings_of.
  induction 1 as [|lot queue [Hpos _] _ IH]; cbn [filter map].
  - repeat split; reflexivity.
  - replace (Qltb 0 (Lot.quantity lot)) with true
      by (symmetry; apply Qltb_lt; exact Hpos).
    destruct IH as (IHq & IHc & IHn).
    cbn [map List.length]. rewrite !sum_Q_cons, IHq, IHc, IHn.
    cbn [holding_of Holding.quantity Holding.total_cost_basis].
    repeat split; reflexivity.
Qed.

(** With rows of positive quantity, what was bought of a symbol is matched
    or held: the quantities of the matches and of the holdings add up to the
    quantity of the buy rows, and their cost bases to the cost of the buy
    rows. No quantity and no cost is lost or made up, whatever the sells. *)
Theorem bought_is_matched_or_held (df : list Tx.t) :
  Forall (fun t => 0 < Tx.quantity t) df ->
  let r := _calculate_symbol_fifo symbol df in
  sum_Q Detail.quantity (SymbolResults.transactions_detail r)
  + sum_Q Holding.quantity (SymbolResults.remaining_holdings r)
  == bought_quantity df
  /\ sum_Q Detail.cost_basis (SymbolResults.transactions_detail r)
     + sum_Q Holding.total_cost_basis (SymbolResults.remaining_holdings r)
     == bought_cost df.
Proof.
  intros Hdf. cbv zeta. unfold _calculate_symbol_fifo.
  cbn [SymbolResults.transactions_detail SymbolResults.remaining_holdings].
  pose proof (symbol_loop_consistent symbol df Hdf (mk_symbol_state 0 0 [] [])
                (Forall_nil _)) as Hc.
  destruct (holdings_of_consistent _ Hc) as (Hq & Hcb & _).
  destruct (symbol_loop_conserves df (mk_symbol_state 0 0 [] [])) as [Cq Cc].
  cbn [sym_transactions_detail sym_fifo_queue] in Cq, Cc.
  rewrite !sum_Q_nil in Cq, Cc. rewrite Hq, Hcb. split; lra.
Qed.

End SymbolFacts.

(** The scenario of the specification: 0.75 bought for 18625. *)
Lemma bought_is_matched_or_held_witness :
  let r :=
    _calculate_symbol_fifo "BTC"
      [Tx.mk 15 "BTC" "buy" (1#2) (25000#1);
       Tx.mk 20 "BTC" "buy" (1#4) (24500#1);
       Tx.mk 32 "BTC" "sell" (3#10) (26000#1)] in
  sum_Q Detail.quantity (SymbolResults.transactions_detail r)
  + sum_Q Holding.quantity (SymbolResults.remaining_holdings r) == 3 # 4
  /\ sum_Q Detail.cost_basis (SymbolResults.transactions_detail r)
     + sum_Q Holding.total_cost_basis (SymbolResults.remaining_holdings r)
     == 18625 # 1.
Proof.
  cbv zeta.
  destruct (bought_is_matched_or_held "BTC"
              [Tx.mk 15 "BTC" "buy" (1#2) (25000#1);
               Tx.mk 20 "BTC" "buy" (1#4) (24500#1);
               Tx.mk 32 "BTC" "sell" (3#10) (26000#1)]) as [Hq Hc].
  - repeat constructor.
  - rewrite Hq, Hc. split; reflexivity.
Defined.

(** ** The report as a whole *)

Lemma sum_Q_flat_map {A B : Type} (f : B -> Q) (g : A -> list B) (l : list A) :
  sum_Q f (flat_map g l) == sum_Q (fun a => sum_Q f (g a)) l.
Proof.
  induction l as [|a l IH]; cbn [flat_map].
  - reflexivity.
  - rewrite sum_Q_app, sum_Q_cons, IH. reflexivity.
Qed.

Lemma sum_Q_ext {A : Type} (f g : A -> Q) (l : list A) :
  (forall a, In a l -> f a == g a) -> sum_Q f l == sum_Q g l.
Proof.
  induction l as [|a l IH]; intros H.
  - reflexivity.
  - rewrite !sum_Q_cons, (H a (or_introl eq_refl)), IH; [reflexivity|].
    intros b Hb. apply H. right. exact Hb.
Qed.

Lemma filter_flat_map {A B : Type} (p : B -> bool) (g : A -> list B)
    (l : list A) :
  filter p (flat_map g l) = flat_map (fun a => filter p (g a)) l.
Proof.
  induction l as [|a l IH]; cbn [flat_map].
  - reflexivity.
  - rewrite filter_app, IH. reflexivity.
Qed.

Section SymbolGains.

Variable symbol : string.

(** Each match of a symbol: the symbol's name, the difference of proceeds and
    cost basis as gain, the proceeds at the sale price. *)
Lemma symbol_loop_details (R : Detail.t -> Prop) (df : list Tx.t) :
  (forall sale_date P lot q c, R (spec_match symbol sale_date P lot q c)) ->
  forall st,
    Forall R (sym_transactions_detail st) ->
    Forall R (sym_transactions_detail (symbol_loop symbol st df)).
Proof.
  intros HR. unfold symbol_loop.
  induction df as [|t df IH]; intros st Hst; cbn [fold_left].
  - exact Hst.
  - apply IH. destruct (is_buy t) eqn:Hb.
    + destruct (symbol_step_buy symbol st t Hb) as [-> _]. exact Hst.
    + destruct (is_sell t) eqn:Hs.
      * destruct (symbol_step_sell symbol st t Hb Hs) as [-> _].
        apply Forall_app. split; [exact Hst|].
        apply spec_sell_Forall. intros. apply HR.
      * rewrite (symbol_step_other symbol st t Hb Hs). exact Hst.
Qed.

Lemma symbol_loop_gains (df : list Tx.t) :
  forall st,
    sym_short_term_gain (symbol_loop symbol st df)
    + sum_Q Detail.gain_loss
        (filter (fun d => negb (is_long_term d)) (sym_transactions_detail st))
    == sym_short_term_gain st
       + sum_Q Detail.gain_loss
           (filter (fun d => negb (is_long_term d))
                   (sym_transactions_detail (symbol_loop symbol st df)))
    /\ sym_long_term_gain (symbol_loop symbol st df)
       + sum_Q Detail.gain_loss
           (filter is_long_term (sym_transactions_detail st))
       == sym_long_term_gain st
          + sum_Q Detail.gain_loss
              (filter is_long_term
                      (sym_transactions_detail (symbol_loop symbol st df))).
Proof.
  unfold symbol_loop.
  induction df as [|t df IH]; intros st; cbn [fold_left].
  - split; reflexivity.
  - destruct (IH (symbol_step symbol st t)) as [IHs IHl].
    assert (sym_short_term_gain (symbol_step symbol st t)
            + sum_Q Detail.gain_loss
                (filter (fun d => negb (is_long_term d))
                        (sym_transactions_detail st))
            == sym_short_term_gain st
               + sum_Q Detail.gain_loss
                   (filter (fun d => negb (is_long_term d))
                      (sym_transactions_detail (symbol_step symbol st t)))
            /\ sym_long_term_gain (symbol_step symbol st t)
               + sum_Q Detail.gain_loss
                   (filter is_long_term (sym_transactions_detail st))
               == sym_long_term_gain st
                  + sum_Q Detail.gain_loss
                      (filter is_long_term
                         (sym_transactions_detail (symbol_step symbol st t))))
      as [Hs Hl].
    { unfold symbol_step. destruct (is_buy t); [split; reflexivity|].
      destruct (is_sell t); [|split; reflexivity].
      pose proof (process_sale_refines symbol (Tx.date t) (Tx.price t)
                    (sym_fifo_queue st) (Tx.quantity t)) as (Hd & _ & Hs & Hl).
      destruct (_process_sale symbol (Tx.date t) (Tx.price t)
                  (sym_fifo_queue st) (Tx.quantity t)) as [r queue'].
      cbn [fst snd sym_short_term_gain sym_long_term_gain
           sym_transactions_detail] in *.
      rewrite Hd, !filter_app, !sum_Q_app, Hs, Hl. split; lra. }
    split; lra.
Qed.

End SymbolGains.

Section ReportFacts.

Variable sort_values : list Tx.t -> list Tx.t.
Variable df : list Tx.t.

Let rep := calculate_fifo_taxes sort_values df.

Lemma report_details_Forall (R : Detail.t -> Prop) :
  (forall symbol sale_date P lot q c,
      R (spec_match symbol sale_date P lot q c)) ->
  Forall R (Report.transactions_detail rep).
Proof.
  intros HR. subst rep.
  destruct (calculate_fifo_taxes_fold sort_values df) as (Hd & _).
  cbv zeta in Hd. rewrite Hd. apply Forall_flat_map.
  rewrite Forall_forall. intros s _. unfold _calculate_symbol_fifo.
  cbn [SymbolResults.transactions_detail].
  apply symbol_loop_details; [apply HR | constructor].
Qed.

Lemma report_gains_by_term :
  Report.short_term_gain rep
  == sum_Q Detail.gain_loss
       (filter (fun d => negb (is_long_term d)) (Report.transactions_detail rep))
  /\ Report.long_term_gain rep
     == sum_Q Detail.gain_loss
          (filter is_long_term (Report.transactions_detail rep)).
Proof.
  subst rep.
  destruct (calculate_fifo_taxes_fold sort_values df) as (Hd & _ & Hs & Hl).
  cbv zeta in Hd, Hs, Hl. rewrite Hd, Hs, Hl, !filter_flat_map, !sum_Q_flat_map.
  split; apply sum_Q_ext; intros s _; unfold _calculate_symbol_fifo;
    cbn [SymbolResults.short_term_gain SymbolResults.long_term_gain
         SymbolResults.transactions_detail];
    match goal with
    | |- context [symbol_loop s ?st ?rows] =>
        destruct (symbol_loop_gains s rows st) as [Hs' Hl']
    end;
    cbn [sym_short_term_gain sym_long_term_gain sym_transactions_detail
         filter] in Hs', Hl'; rewrite sum_Q_nil in Hs', Hl'; lra.
Qed.

(** The totals of the report are the sums of the gains of its own detail
    list, term by term: the short-term total is the sum of [gain_loss] over
    the short-term entries of [transactions_detail], the long-term total the
    sum over the long-term ones, each entry gaining its proceeds less its
    cost basis; so the two totals add up to all the proceeds less all the
    cost bases. *)
Theorem report_totals_match_details :
  Report.short_term_gain rep
  == sum_Q Detail.gain_loss
       (filter (fun d => match Detail.term_type d with
                         | Short_term => true
                         | Long_term => false
                         end) (Report.transactions_detail rep))
  /\ Report.long_term_gain rep
     == sum_Q Detail.gain_loss
          (filter (fun d => match Detail.term_type d with
                            | Long_term => true
                            | Short_term => false
                            end) (Report.transactions_detail rep))
  /\ Forall (fun d => Detail.gain_loss d
                      = Detail.proceeds d - Detail.cost_basis d)
            (Report.transactions_detail rep)
  /\ Report.short_term_gain rep + Report.long_term_gain rep
     == sum_Q Detail.proceeds (Report.transactions_detail rep)
        - sum_Q Detail.cost_basis (Report.transactions_detail rep).
Proof.
  assert (Hgain : Forall (fun d => Detail.gain_loss d
                                   = Detail.proceeds d - Detail.cost_basis d)
                         (Report.transactions_detail rep)).
  { apply report_details_Forall. intros. reflexivity. }
  pose proof report_gains_by_term as Hshort.
  destruct Hshort as [Hs Hl].
  assert (Hsplit : forall l : list Detail.t,
             sum_Q Detail.gain_loss (filter (fun d => negb (is_long_term d)) l)
             + sum_Q Detail.gain_loss (filter is_long_term l)
             == sum_Q Detail.gain_loss l).
  { induction l as [|d l IHl]; cbn [filter].
    - rewrite sum_Q_nil. lra.
    - destruct (is_long_term d); cbn [negb]; rewrite !sum_Q_cons; lra. }
  assert (Hdiff : forall l : list Detail.t,
             Forall (fun d => Detail.gain_loss d
                              = Detail.proceeds d - Detail.cost_basis d) l ->
             sum_Q Detail.gain_loss l
             == sum_Q Detail.proceeds l - sum_Q Detail.cost_basis l).
  { induction 1 as [|d l Hd _ IHl].
    - rewrite !sum_Q_nil. lra.
    - rewrite !sum_Q_cons, Hd, IHl. lra. }
  split; [|split; [|split]].
  - rewrite Hs. rewrite (filter_ext (fun d => negb (is_long_term d))
                           (fun d => match Detail.term_type d with
                                     | Short_term => true
                                     | Long_term => false
                                     end)); [reflexivity|].
    intro d. unfold is_long_term. destruct (Detail.term_type d); reflexivity.
  - rewrite Hl. reflexivity.
  - exact Hgain.
  - rewrite Hs, Hl, Hsplit. apply Hdiff. exact Hgain.
Qed.

(** The estimated tax is never negative, and it is zero exactly when neither
    total is a gain: losses give no tax back. It is at most 22% of the
    gains of the two totals taken together. *)
Theorem estimated_tax_bounds :
  0 <= Report.estimated_tax rep
  /\ (Report.estimated_tax rep == 0
      <-> Report.short_term_gain rep <= 0 /\ Report.long_term_gain rep <= 0)
  /\ Report.estimated_tax rep
     <= (22 # 100) * (Qmax 0 (Report.short_term_gain rep)
                      + Qmax 0 (Report.long_term_gain rep)).
Proof.
  subst rep. unfold calculate_fifo_taxes.
  cbn [Report.estimated_tax Report.short_term_gain Report.long_term_gain].
  set (s := Report.short_term_gain _). set (l := Report.long_term_gain _).
  rewrite !py_max_Qmax. unfold short_term_tax_rate, long_term_tax_rate.
  assert (Es : (0 < s /\ Qmax 0 s == s) \/ (s <= 0 /\ Qmax 0 s == 0)).
  { destruct (Qlt_le_dec 0 s) as [H|H];
      [left; split; [exact H | apply Q.max_r; lra]
      | right; split; [exact H | apply Q.max_l; lra]]. }
  assert (El : (0 < l /\ Qmax 0 l == l) \/ (l <= 0 /\ Qmax 0 l == 0)).
  { destruct (Qlt_le_dec 0 l) as [H|H];
      [left; split; [exact H | apply Q.max_r; lra]
      | right; split; [exact H | apply Q.max_l; lra]]. }
  destruct Es as [[Hs Es]|[Hs Es]]; destruct El as [[Hl El]|[Hl El]];
    (split; [lra|]); (split; [|lra]); split; intros; lra.
Qed.

End ReportFacts.

(** ** No sale is matched with a later purchase *)

Section NoFutureMatch.

Variable symbol : string.

Lemma symbol_step_no_future (m : Z) (st : symbol_state) (t : Tx.t) :
  (m <= Tx.date t)%Z -> ordered m st ->
  Forall (fun d => (Detail.purchase_date d <= Detail.sale_date d)%Z)
         (sym_transactions_detail st) ->
  Forall (fun d => (Detail.purchase_date d <= Detail.sale_date d)%Z)
         (sym_transactions_detail (symbol_step symbol st t)).
Proof.
  intros Hm [_ Hb] Hst. unfold dates in Hb.
  apply Forall_app in Hb. destruct Hb as [_ Hbq].
  destruct (is_buy t) eqn:Hbuy.
  - destruct (symbol_step_buy symbol st t Hbuy) as [-> _]. exact Hst.
  - destruct (is_sell t) eqn:Hsell.
    2:{ rewrite symbol_step_other by assumption. exact Hst. }
    destruct (symbol_step_sell symbol st t Hbuy Hsell) as [-> _].
    apply Forall_app. split; [exact Hst|].
    destruct (spec_sell_dates symbol (fun x => (x <= m)%Z) (Tx.date t)
                (Tx.price t) (sym_fifo_queue st)) with (Q := Tx.quantity t)
      as [Hd _].
    { rewrite Forall_map in Hbq. exact Hbq. }
    pose proof (spec_sell_Forall symbol (Tx.date t) (Tx.price t)
                  (fun d => Detail.sale_date d = Tx.date t)
                  (sym_fifo_queue st) (fun _ _ _ _ => eq_refl)
                  (Tx.quantity t)) as Hs.
    rewrite Forall_forall in *. intros d Hin.
    specialize (Hd d Hin). specialize (Hs d Hin). cbv beta in Hd. lia.
Qed.

Lemma symbol_loop_no_future (df : list Tx.t) :
  sorted_by_date df ->
  forall m st,
    Forall (fun t => (m <= Tx.date t)%Z) df -> ordered m st ->
    Forall (fun d => (Detail.purchase_date d <= Detail.sale_date d)%Z)
           (sym_transactions_detail st) ->
    Forall (fun d => (Detail.purchase_date d <= Detail.sale_date d)%Z)
           (sym_transactions_detail (symbol_loop symbol st df)).
Proof.
  unfold symbol_loop.
  induction 1 as [|t df Hdf IH Ht]; intros m st Hm Hord Hst; cbn [fold_left].
  - exact Hst.
  - inversion Hm as [|? ? Hmt _]; subst.
    apply (IH (Tx.date t)); [exact Ht | |].
    + apply (symbol_step_ordered symbol m); assumption.
    + apply (symbol_step_no_future m); assumption.
Qed.

End NoFutureMatch.

Section ReportDates.

Variable sort_values : list Tx.t -> list Tx.t.
Hypothesis sort_values_sorted : forall df, sorted_by_date (sort_values df).

(** In the report of any table, every match pairs a sale with a lot bought
    no later than the sale: the purchase date is at most the sale date and
    the holding period is never negative. [sort_values] is any function
    that returns its rows in date order. *)
Theorem no_match_with_a_later_purchase (df : list Tx.t) :
  Forall (fun d =>
            (Detail.purchase_date d <= Detail.sale_date d)%Z
            /\ (0 <= Detail.holding_period_days d)%Z)
         (Report.transactions_detail (calculate_fifo_taxes sort_values df)).
Proof.
  pose proof (report_details_Forall sort_values df
                (fun d => Detail.holding_period_days d
                          = days (Detail.sale_date d - Detail.purchase_date d))
                (fun _ _ _ _ _ _ => eq_refl)) as Hdays.
  cbv zeta in Hdays.
  assert (Hle : Forall (fun d => (Detail.purchase_date d <= Detail.sale_date d)%Z)
                  (Report.transactions_detail
                     (calculate_fifo_taxes sort_values df))).
  { destruct (calculate_fifo_taxes_fold sort_values df) as (Hd & _).
    cbv zeta in Hd. rewrite Hd. apply Forall_flat_map.
    rewrite Forall_forall. intros s _. unfold _calculate_symbol_fifo.
    cbn [SymbolResults.transactions_detail].
    set (rows := symbol_df_of sort_values df s).
    apply (symbol_loop_no_future s rows (sort_values_sorted _)
             (match rows with [] => 0%Z | t :: _ => Tx.date t end)).
    - pose proof (sort_values_sorted
                    (filter (fun r => String.eqb (Tx.symbol r) s) df)) as Hs.
      fold (symbol_df_of sort_values df s) in Hs. fold rows in Hs.
      destruct rows as [|t rows']; [constructor|].
      inversion Hs as [|? ? _ Ht]; subst. constructor; [lia | exact Ht].
    - unfold ordered, dates. split; constructor.
    - constructor. }
  rewrite Forall_forall in *. intros d Hin.
  split; [apply Hle; exact Hin|]. rewrite (Hdays d Hin).
  unfold days, ns_per_day. apply Z.div_pos; [|lia].
  specialize (Hle d Hin). cbv beta in Hle. lia.
Qed.

End ReportDates.

Lemma no_match_with_a_later_purchase_witness :
  Forall (fun d =>
            (Detail.purchase_date d <= Detail.sale_date d)%Z
            /\ (0 <= Detail.holding_period_days d)%Z)
         (Report.transactions_detail
            (calculate_fifo_taxes sort_by_date
               [Tx.mk 40 "BTC" "sell" (3#1) (9#1);
                Tx.mk 10 "BTC" "buy" (2#1) (5#1);
                Tx.mk 20 "BTC" "buy" (2#1) (6#1)])).
Proof.
  apply (no_match_with_a_later_purchase sort_by_date sort_by_date_sorted).
Defined.

(** ** The symbols are computed apart *)

Lemma unique_constant (s : string) (l : list string) :
  Forall (fun x => x = s) l ->
  unique l = match l with [] => [] | _ :: _ => [s] end.
Proof.
  induction 1 as [|x l Hx Hl IH]; cbn [unique].
  - reflexivity.
  - subst x. rewrite IH. destruct l; cbn [filter].
    + reflexivity.
    + rewrite String.eqb_refl. reflexivity.
Qed.

Lemma filter_idem {A : Type} (p : A -> bool) (l : list A) :
  filter p (filter p l) = filter p l.
Proof.
  induction l as [|x l IH]; cbn [filter].
  - reflexivity.
  - destruct (p x) eqn:E; cbn [filter]; rewrite ?E, IH; reflexivity.
Qed.

Section Independence.

Variable sort_values : list Tx.t -> list Tx.t.

(** The rows of one symbol. *)
Let rows_of (df : list Tx.t) (s : string) : list Tx.t :=
  filter (fun r => String.eqb (Tx.symbol r) s) df.

(** The part of the report that bears the name of a symbol is the report of
    the rows of that symbol alone: its matches and its holdings do not
    depend on the rows of the other symbols. *)
Theorem symbols_are_independent (df : list Tx.t) (s : string) :
  filter (fun d => String.eqb (Detail.symbol d) s)
         (Report.transactions_detail (calculate_fifo_taxes sort_values df))
  = Report.transactions_detail
      (calculate_fifo_taxes sort_values (rows_of df s))
  /\ filter (fun h => String.eqb (Holding.symbol h) s)
            (Report.holdings_summary (calculate_fifo_taxes sort_values df))
     = Report.holdings_summary
         (calculate_fifo_taxes sort_values (rows_of df s)).
Proof.
  subst rows_of. cbv beta.
  destruct (calculate_fifo_taxes_fold sort_values df) as (Hd & Hh & _).
  destruct (calculate_fifo_taxes_fold sort_values
              (filter (fun r => String.eqb (Tx.symbol r) s) df))
    as (Hd' & Hh' & _).
  cbv zeta in *. rewrite Hd, Hh, Hd', Hh'. clear Hd Hh Hd' Hh'.
  rewrite (filter_flat_map_symbol Detail.symbol),
          (filter_flat_map_symbol Holding.symbol);
    try apply unique_NoDup;
    try (intro s'; apply calculate_symbol_fifo_symbol).
  unfold symbol_df_of.
  rewrite (unique_constant s
             (map Tx.symbol (filter (fun r => String.eqb (Tx.symbol r) s) df))).
  2:{ rewrite Forall_map, Forall_forall. intros r Hr.
      apply filter_In in Hr. destruct Hr as [_ Hr].
      apply String.eqb_eq. exact Hr. }
  destruct (in_dec string_dec s (unique (map Tx.symbol df))) as [Hin|Hn].
  - apply unique_In, in_map_iff in Hin. destruct Hin as (r & Hs & Hr).
    assert (Hne : In r (filter (fun r => String.eqb (Tx.symbol r) s) df)).
    { apply filter_In. split; [exact Hr|]. apply String.eqb_eq. exact Hs. }
    destruct (filter (fun r => String.eqb (Tx.symbol r) s) df) as [|r0 l] eqn:E;
      [contradiction|].
    cbn [map flat_map]. rewrite !app_nil_r, <- E, filter_idem.
    split; reflexivity.
  - destruct (filter (fun r => String.eqb (Tx.symbol r) s) df) as [|r0 l] eqn:E.
    + split; reflexivity.
    + exfalso. apply Hn. apply unique_In, in_map_iff. exists r0.
      assert (Hin : In r0 (filter (fun r => String.eqb (Tx.symbol r) s) df))
        by (rewrite E; left; reflexivity).
      apply filter_In in Hin. destruct Hin as [Hin Hs].
      apply String.eqb_eq in Hs. split; assumption.
Qed.

End Independence.

Lemma sum_Q_Permutation {A : Type} (f : A -> Q) (l l' : list A) :
  Permutation l l' -> sum_Q f l == sum_Q f l'.
Proof.
  induction 1 as [|x l l' _ IH|x y l|l l' l'' _ IH1 _ IH2].
  - reflexivity.
  - rewrite !sum_Q_cons, IH. reflexivity.
  - rewrite !sum_Q_cons. lra.
  - rewrite IH1. exact IH2.
Qed.

Lemma py_max_compat (a b b' : Q) : b == b' -> py_max a b == py_max a b'.
Proof.
  intro H. unfold py_max.
  destruct (Qltb a b) eqn:E; destruct (Qltb a b') eqn:E';
    try reflexivity; try exact H.
  - apply Qltb_lt in E. apply Qltb_ge in E'. lra.
  - apply Qltb_ge in E. apply Qltb_lt in E'. lra.
Qed.

Section Interleaving.

Variable sort_values : list Tx.t -> list Tx.t.

(** Two tables with the same rows for every symbol, in the same order
    within the symbol, the symbols interleaved in any way: the same totals,
    the same estimated tax, and the same matches and holdings, listed symbol
    by symbol in the order the symbols first appear. *)
Theorem interleaving_of_symbols_is_immaterial (df df' : list Tx.t) :
  (forall s,
      filter (fun r => String.eqb (Tx.symbol r) s) df
      = filter (fun r => String.eqb (Tx.symbol r) s) df') ->
  let rep := calculate_fifo_taxes sort_values df in
  let rep' := calculate_fifo_taxes sort_values df' in
  Report.short_term_gain rep == Report.short_term_gain rep'
  /\ Report.long_term_gain rep == Report.long_term_gain rep'
  /\ Report.estimated_tax rep == Report.estimated_tax rep'
  /\ Permutation (Report.transactions_detail rep)
                 (Report.transactions_detail rep')
  /\ Permutation (Report.holdings_summary rep) (Report.holdings_summary rep').
Proof.
  intros Hrows. cbv zeta.
  assert (Hperm : Permutation (unique (map Tx.symbol df))
                              (unique (map Tx.symbol df'))).
  { assert (Hin : forall d d' : list Tx.t,
               (forall s,
                   filter (fun r => String.eqb (Tx.symbol r) s) d
                   = filter (fun r => String.eqb (Tx.symbol r) s) d') ->
               forall s, In s (map Tx.symbol d) -> In s (map Tx.symbol d')).
    { intros d d' H s Hs. apply in_map_iff in Hs. destruct Hs as (r & Hr & Hin).
      assert (Hf : In r (filter (fun r => String.eqb (Tx.symbol r) s) d)).
      { apply filter_In. split; [exact Hin|]. apply String.eqb_eq. exact Hr. }
      rewrite H in Hf. apply filter_In in Hf. destruct Hf as [Hf _].
      apply in_map_iff. exists r. split; assumption. }
    apply NoDup_Permutation; try apply unique_NoDup.
    intro s. rewrite !unique_In. split; apply Hin; [exact Hrows|].
    intro s'. symmetry. apply Hrows. }
  assert (Hper : forall s,
             _calculate_symbol_fifo s (symbol_df_of sort_values df s)
             = _calculate_symbol_fifo s (symbol_df_of sort_values df' s)).
  { intro s. unfold symbol_df_of. rewrite Hrows. reflexivity. }
  destruct (calculate_fifo_taxes_fold sort_values df) as (Hd & Hh & Hs & Hl).
  destruct (calculate_fifo_taxes_fold sort_values df') as (Hd' & Hh' & Hs' & Hl').
  cbv zeta in *.
  assert (Es : Report.short_term_gain (calculate_fifo_taxes sort_values df)
               == Report.short_term_gain (calculate_fifo_taxes sort_values df')).
  { rewrite Hs, Hs', (sum_Q_Permutation _ _ _ Hperm).
    apply sum_Q_ext. intros s _. rewrite Hper. reflexivity. }
  assert (El : Report.long_term_gain (calculate_fifo_taxes sort_values df)
               == Report.long_term_gain (calculate_fifo_taxes sort_values df')).
  { rewrite Hl, Hl', (sum_Q_Permutation _ _ _ Hperm).
    apply sum_Q_ext. intros s _. rewrite Hper. reflexivity. }
  split; [exact Es|]. split; [exact El|]. split; [|split].
  - change (Report.estimated_tax (calculate_fifo_taxes sort_values df))
      with (py_max 0 (Report.short_term_gain (calculate_fifo_taxes sort_values df))
            * short_term_tax_rate
            + py_max 0 (Report.long_term_gain (calculate_fifo_taxes sort_values df))
              * long_term_tax_rate).
    change (Report.estimated_tax (calculate_fifo_taxes sort_values df'))
      with (py_max 0 (Report.short_term_gain (calculate_fifo_taxes sort_values df'))
            * short_term_tax_rate
            + py_max 0 (Report.long_term_gain (calculate_fifo_taxes sort_values df'))
              * long_term_tax_rate).
    rewrite (py_max_compat 0 _ _ Es), (py_max_compat 0 _ _ El). reflexivity.
  - rewrite Hd, Hd', Hperm.
    rewrite (flat_map_ext _ _ (fun s => f_equal SymbolResults.transactions_detail
                                          (Hper s))).
    apply Permutation_refl.
  - rewrite Hh, Hh', Hperm.
    rewrite (flat_map_ext _ _ (fun s => f_equal SymbolResults.remaining_holdings
                                          (Hper s))).
    apply Permutation_refl.
Qed.

End Interleaving.

Lemma interleaving_of_symbols_is_immaterial_witness :
  Report.estimated_tax
    (calculate_fifo_taxes sort_by_date
       [Tx.mk 10 "BTC" "buy" (2#1) (5#1);
        Tx.mk 15 "ETH" "buy" (1#1) (7#1);
        Tx.mk 30 "ETH" "sell" (1#1) (8#1);
        Tx.mk 40 "BTC" "sell" (1#1) (9#1)])
  == Report.estimated_tax
       (calculate_fifo_taxes sort_by_date
          [Tx.mk 15 "ETH" "buy" (1#1) (7#1);
           Tx.mk 10 "BTC" "buy" (2#1) (5#1);
           Tx.mk 40 "BTC" "sell" (1#1) (9#1);
           Tx.mk 30 "ETH" "sell" (1#1) (8#1)]).
Proof.
  apply (interleaving_of_symbols_is_immaterial sort_by_date).
  intro s. destruct (String.eqb_spec "BTC" s) as [<-|Hb]; [reflexivity|].
  cbn [filter Tx.symbol]. apply String.eqb_neq in Hb. rewrite Hb.
  destruct (String.eqb "ETH" s); reflexivity.
Defined.

(** ** [_validate_input] *)

Lemma filter_all {A : Type} (p : A -> bool) (l : list A) :
  existsb (fun x => negb (p x)) l = false -> filter p l = l.
Proof.
  induction l as [|x l IH]; cbn [existsb filter]; intro H.
  - reflexivity.
  - apply orb_false_iff in H. destruct H as [Hx Hl].
    apply negb_false_iff in Hx. rewrite Hx, IH by exact Hl. reflexivity.
Qed.

Lemma is_empty_filter {A : Type} (p : A -> bool) (l : list A) :
  is_empty (filter p l) = negb (existsb p l).
Proof.
  induction l as [|x l IH]; cbn [filter existsb].
  - reflexivity.
  - destruct (p x); cbn [is_empty orb negb]; [reflexivity | exact IH].
Qed.

Lemma filter_filter {A : Type} (p q : A -> bool) (l : list A) :
  filter q (filter p l) = filter (fun x => p x && q x) l.
Proof.
  induction l as [|x l IH]; cbn [filter].
  - reflexivity.
  - destruct (p x); cbn [filter andb]; rewrite IH; reflexivity.
Qed.

Lemma validate_input_in_policy (df : list Tx.t) :
  _validate_input df = existsb in_policy df.
Proof.
  unfold _validate_input. destruct df as [|r0 df0]; [reflexivity|].
  cbn [is_empty]. set (df := r0 :: df0).
  assert (H1 : (if (0 <? List.length
                         (unique (map Tx.type
                            (filter (fun r => negb (has_valid_type r)) df))))%nat
                then filter has_valid_type df else df)
               = filter has_valid_type df).
  { destruct (filter (fun r => negb (has_valid_type r)) df) as [|x l] eqn:E.
    - cbn [map unique List.length]. change (0 <? 0)%nat with false.
      cbv iota. symmetry. apply filter_all.
      pose proof (is_empty_filter (fun r => negb (has_valid_type r)) df) as He.
      rewrite E in He. cbn [is_empty] in He.
      symmetry in He. apply negb_true_iff in He. exact He.
    - reflexivity. }
  rewrite H1. clear H1. set (df1 := filter has_valid_type df).
  assert (H2 : (if existsb (fun r => Qle_bool (Tx.quantity r) 0) df1
                   || existsb (fun r => Qle_bool (Tx.price r) 0) df1
                then filter positive_values df1 else df1)
               = filter positive_values df1).
  { destruct (existsb (fun r => Qle_bool (Tx.quantity r) 0) df1
              || existsb (fun r => Qle_bool (Tx.price r) 0) df1) eqn:E;
      [reflexivity|].
    symmetry. apply filter_all. apply orb_false_iff in E.
    destruct E as [Eq Ep]. clear -Eq Ep.
    induction df1 as [|x l IH]; cbn [existsb] in *; [reflexivity|].
    apply orb_false_iff in Eq, Ep. destruct Eq as [Ex Eq], Ep as [Ex' Ep].
    rewrite (IH Eq Ep), orb_false_r. unfold positive_values, Qltb.
    rewrite Ex, Ex'. reflexivity. }
  rewrite H2. clear H2. subst df1.
  rewrite filter_filter, is_empty_filter. subst df.
  change (existsb in_policy (r0 :: df0))
    with (existsb (fun x => has_valid_type x && positive_values x)
                  (r0 :: df0)).
  destruct (existsb _ (r0 :: df0)); reflexivity.
Qed.

(** [_validate_input] accepts a table exactly when one of its rows is within
    the policy (a type that is buy or sell in any case of letters, a
    positive quantity and a positive price); so [calculate_taxes] returns no
    results exactly when no row is. One row within the policy is enough for
    it to compute on all the rows. *)
Theorem validate_input_accepts_a_valid_row (df : list Tx.t) :
  _validate_input df = existsb in_policy df
  /\ (forall sort_values now,
        calculate_taxes sort_values now df = None
        <-> Forall (fun r => in_policy r = false) df).
Proof.
  pose proof (validate_input_in_policy df) as H.
  split; [exact H|]. intros sort_values now. unfold calculate_taxes.
  rewrite H. destruct (existsb in_policy df) eqn:E; cbn [negb].
  - split; [discriminate|]. intro Hall. exfalso.
    apply existsb_exists in E. destruct E as (r & Hin & Hr).
    rewrite Forall_forall in Hall. rewrite (Hall r Hin) in Hr. discriminate.
  - split; [|reflexivity]. intros _. rewrite Forall_forall. intros r Hin.
    destruct (in_policy r) eqn:Hr; [|reflexivity].
    assert (existsb in_policy df = true)
      by (apply existsb_exists; exists r; split; assumption).
    congruence.
Qed.

(** ** Tables of positive rows, tables without a sell *)

Lemma filter_Permutation {A : Type} (p : A -> bool) (l l' : list A) :
  Permutation l l' -> Permutation (filter p l) (filter p l').
Proof.
  induction 1 as [|x l l' _ IH|x y l|l l' l'' _ IH1 _ IH2]; cbn [filter].
  - constructor.
  - destruct (p x); [apply perm_skip|]; exact IH.
  - destruct (p x); destruct (p y);
      try apply perm_swap; apply Permutation_refl.
  - eapply perm_trans; eassumption.
Qed.

Lemma sum_Q_plus {A : Type} (f g : A -> Q) (l : list A) :
  sum_Q (fun a => f a + g a) l == sum_Q f l + sum_Q g l.
Proof.
  induction l as [|a l IH].
  - rewrite !sum_Q_nil. lra.
  - rewrite !sum_Q_cons, IH. lra.
Qed.

Lemma sum_Q_indicator (a : string) (c : Q) (u : list string) :
  NoDup u -> In a u ->
  sum_Q (fun s => if String.eqb a s then c else 0) u == c.
Proof.
  induction 1 as [|y u Hy Hu IH]; intros Hin; [contradiction|].
  rewrite sum_Q_cons. destruct (String.eqb_spec a y) as [E|E].
  - subst y. assert (Hz : sum_Q (fun s => if String.eqb a s then c else 0) u == 0).
    { clear -Hy. induction u as [|z u IHz]; [reflexivity|].
      rewrite sum_Q_cons. destruct (String.eqb_spec a z) as [E|E].
      - exfalso. apply Hy. left. symmetry. exact E.
      - rewrite IHz; [lra|]. intro H. apply Hy. right. exact H. }
    rewrite Hz. lra.
  - destruct Hin as [H|H]; [exfalso; apply E; symmetry; exact H|].
    rewrite (IH H). lra.
Qed.

(** A sum over the rows, taken symbol by symbol. *)
Lemma sum_Q_by_symbol (f : Tx.t -> Q) (u : list string) (l : list Tx.t) :
  NoDup u -> (forall r, In r l -> In (Tx.symbol r) u) ->
  sum_Q (fun s => sum_Q f (filter (fun r => String.eqb (Tx.symbol r) s) l)) u
  == sum_Q f l.
Proof.
  intros Hnd. induction l as [|r l IH]; intros Hin.
  - cbn [filter]. clear. induction u as [|s u IHu]; [reflexivity|].
    rewrite sum_Q_cons, IHu, !sum_Q_nil. lra.
  - rewrite sum_Q_cons, <- IH by (intros x Hx; apply Hin; right; exact Hx).
    rewrite <- (sum_Q_indicator (Tx.symbol r) (f r) u Hnd)
      by (apply Hin; left; reflexivity).
    rewrite <- sum_Q_plus. apply sum_Q_ext. intros s _. cbn [filter].
    destruct (String.eqb (Tx.symbol r) s); rewrite ?sum_Q_cons; lra.
Qed.

Section WholeTable.

Variable sort_values : list Tx.t -> list Tx.t.
Hypothesis sort_values_Permutation : forall df, Permutation df (sort_values df).

Lemma symbol_df_of_Forall (R : Tx.t -> Prop) (df : list Tx.t) (s : string) :
  Forall R df -> Forall R (symbol_df_of sort_values df s).
Proof.
  intro H. unfold symbol_df_of.
  eapply Permutation_Forall; [apply sort_values_Permutation|].
  rewrite Forall_forall in *. intros r Hr. apply filter_In in Hr.
  apply H. tauto.
Qed.

Lemma report_holdings_consistent (df : list Tx.t) :
  Forall (fun t => 0 < Tx.quantity t) df ->
  Forall (fun h =>
            Holding.total_cost_basis h == Holding.quantity h * Holding.avg_cost h
            /\ 0 < Holding.quantity h)
         (Report.holdings_summary (calculate_fifo_taxes sort_values df)).
Proof.
  intro Hdf.
  destruct (calculate_fifo_taxes_fold sort_values df) as (_ & Hh & _).
  cbv zeta in Hh. rewrite Hh. apply Forall_flat_map.
  rewrite Forall_forall. intros s _. unfold _calculate_symbol_fifo.
  cbn [SymbolResults.remaining_holdings].
  pose proof (symbol_loop_consistent s (symbol_df_of sort_values df s)
                (symbol_df_of_Forall _ df s Hdf) (mk_symbol_state 0 0 [] [])
                (Forall_nil _)) as Hc.
  unfold remaining_holdings_of. rewrite Forall_forall in *. intros h Hin.
  apply in_map_iff in Hin. destruct Hin as (lot & <- & Hin).
  apply filter_In in Hin. destruct Hin as [Hin _].
  destruct (Hc lot Hin) as [Hpos Hcb]. split; assumption.
Qed.

(** The report of a table, all symbols together: with rows of positive
    quantity every holding has a positive quantity and
    [total_cost_basis == quantity * avg_cost], and the holdings and the
    matches account for all that was bought, in quantity and in cost.
    [sort_values] is any function that returns a rearrangement of its
    rows. *)
Theorem report_accounts_for_all_buys (df : list Tx.t) :
  Forall (fun t => 0 < Tx.quantity t) df ->
  let rep := calculate_fifo_taxes sort_values df in
  Forall (fun h =>
            Holding.total_cost_basis h == Holding.quantity h * Holding.avg_cost h
            /\ 0 < Holding.quantity h)
         (Report.holdings_summary rep)
  /\ sum_Q Detail.quantity (Report.transactions_detail rep)
     + sum_Q Holding.quantity (Report.holdings_summary rep)
     == bought_quantity df
  /\ sum_Q Detail.cost_basis (Report.transactions_detail rep)
     + sum_Q Holding.total_cost_basis (Report.holdings_summary rep)
     == bought_cost df.
Proof.
  intro Hdf. cbv zeta. split; [apply report_holdings_consistent; exact Hdf|].
  destruct (calculate_fifo_taxes_fold sort_values df) as (Hd & Hh & _).
  cbv zeta in Hd, Hh. rewrite Hd, Hh, !sum_Q_flat_map, <- !sum_Q_plus.
  assert (Hper : forall s,
             sum_Q Detail.quantity
               (SymbolResults.transactions_detail
                  (_calculate_symbol_fifo s (symbol_df_of sort_values df s)))
             + sum_Q Holding.quantity
                 (SymbolResults.remaining_holdings
                    (_calculate_symbol_fifo s (symbol_df_of sort_values df s)))
             == sum_Q Tx.quantity
                  (filter (fun r => String.eqb (Tx.symbol r) s) (filter is_buy df))
             /\ sum_Q Detail.cost_basis
                  (SymbolResults.transactions_detail
                     (_calculate_symbol_fifo s (symbol_df_of sort_values df s)))
                + sum_Q Holding.total_cost_basis
                    (SymbolResults.remaining_holdings
                       (_calculate_symbol_fifo s (symbol_df_of sort_values df s)))
                == sum_Q (fun t => Tx.quantity t * Tx.price t)
                     (filter (fun r => String.eqb (Tx.symbol r) s)
                             (filter is_buy df))).
  { intro s.
    pose proof (symbol_df_of_Forall _ df s Hdf) as Hs.
    unfold _calculate_symbol_fifo.
    cbn [SymbolResults.transactions_detail SymbolResults.remaining_holdings].
    pose proof (symbol_loop_consistent s _ Hs (mk_symbol_state 0 0 [] [])
                  (Forall_nil _)) as Hc.
    destruct (holdings_of_consistent _ Hc) as (Hq & Hcb & _).
    destruct (symbol_loop_conserves s (symbol_df_of sort_values df s)
                (mk_symbol_state 0 0 [] [])) as [Cq Cc].
    cbn [sym_transactions_detail sym_fifo_queue] in Cq, Cc.
    rewrite !sum_Q_nil in Cq, Cc. rewrite Hq, Hcb.
    assert (Hp : Permutation
                   (filter (fun r => String.eqb (Tx.symbol r) s) (filter is_buy df))
                   (filter is_buy (symbol_df_of sort_values df s))).
    { unfold symbol_df_of.
      eapply perm_trans;
        [|apply filter_Permutation; apply sort_values_Permutation].
      rewrite !filter_filter.
      rewrite (filter_ext (fun x => is_buy x && String.eqb (Tx.symbol x) s)
                 (fun x => String.eqb (Tx.symbol x) s && is_buy x));
        [apply Permutation_refl|].
      intro x. apply andb_comm. }
    unfold bought_quantity, bought_cost in *.
    rewrite (sum_Q_Permutation _ _ _ Hp), (sum_Q_Permutation _ _ _ Hp).
    split; lra. }
  assert (Hsym : forall r, In r (filter is_buy df) ->
                           In (Tx.symbol r) (unique (map Tx.symbol df))).
  { intros r Hr. apply filter_In in Hr. apply unique_In, in_map. tauto. }
  unfold bought_quantity, bought_cost. split.
  - rewrite <- (sum_Q_by_symbol Tx.quantity (unique (map Tx.symbol df))
                  (filter is_buy df) (unique_NoDup _) Hsym).
    apply sum_Q_ext. intros s _. apply Hper.
  - rewrite <- (sum_Q_by_symbol (fun t => Tx.quantity t * Tx.price t)
                  (unique (map Tx.symbol df)) (filter is_buy df)
                  (unique_NoDup _) Hsym).
    apply sum_Q_ext. intros s _. apply Hper.
Qed.

Lemma symbol_loop_no_sell (s : string) (df : list Tx.t) :
  Forall (fun t => is_sell t = false) df ->
  forall st,
    sym_transactions_detail (symbol_loop s st df) = sym_transactions_detail st.
Proof.
  unfold symbol_loop.
  induction 1 as [|t df Ht _ IH]; intros st; cbn [fold_left].
  - reflexivity.
  - rewrite IH. unfold symbol_step. rewrite Ht.
    destruct (is_buy t); reflexivity.
Qed.

(** A table without a sell row gives no match, zero totals and zero tax,
    whatever was bought: only sells realise gains. *)
Theorem no_sell_no_tax (df : list Tx.t) :
  Forall (fun t => is_sell t = false) df ->
  let rep := calculate_fifo_taxes sort_values df in
  Report.transactions_detail rep = []
  /\ Report.short_term_gain rep == 0
  /\ Report.long_term_gain rep == 0
  /\ Report.estimated_tax rep == 0.
Proof.
  intro Hdf. cbv zeta.
  assert (Hd : Report.transactions_detail (calculate_fifo_taxes sort_values df)
               = []).
  { destruct (calculate_fifo_taxes_fold sort_values df) as (Hd & _).
    cbv zeta in Hd. rewrite Hd. clear Hd.
    induction (unique (map Tx.symbol df)) as [|s u IHu]; [reflexivity|].
    cbn [flat_map]. rewrite IHu, app_nil_r. unfold _calculate_symbol_fifo.
    cbn [SymbolResults.transactions_detail].
    apply symbol_loop_no_sell. apply symbol_df_of_Forall. exact Hdf. }
  destruct (report_gains_by_term sort_values df) as [Hs Hl].
  rewrite Hd in Hs, Hl. cbn [filter] in Hs, Hl. rewrite sum_Q_nil in Hs, Hl.
  split; [exact Hd|]. split; [exact Hs|]. split; [exact Hl|].
  change (Report.estimated_tax (calculate_fifo_taxes sort_values df))
    with (py_max 0 (Report.short_term_gain (calculate_fifo_taxes sort_values df))
          * short_term_tax_rate
          + py_max 0 (Report.long_term_gain (calculate_fifo_taxes sort_values df))
            * long_term_tax_rate).
  rewrite (py_max_compat 0 _ _ Hs), (py_max_compat 0 _ _ Hl). reflexivity.
Qed.

End WholeTable.

Lemma report_accounts_for_all_buys_witness :
  let rep :=
    calculate_fifo_taxes sort_by_date
      [Tx.mk 15 "BTC" "buy" (1#2) (25000#1);
       Tx.mk 16 "ETH" "buy" (2#1) (1600#1);
       Tx.mk 20 "BTC" "buy" (1#4) (24500#1);
       Tx.mk 32 "BTC" "sell" (3#10) (26000#1)] in
  sum_Q Detail.quantity (Report.transactions_detail rep)
  + sum_Q Holding.quantity (Report.holdings_summary rep)
  == (1#2) + (2#1) + (1#4).
Proof.
  cbv zeta.
  destruct (report_accounts_for_all_buys sort_by_date sort_by_date_Permutation
              [Tx.mk 15 "BTC" "buy" (1#2) (25000#1);
               Tx.mk 16 "ETH" "buy" (2#1) (1600#1);
               Tx.mk 20 "BTC" "buy" (1#4) (24500#1);
               Tx.mk 32 "BTC" "sell" (3#10) (26000#1)]) as (_ & Hq & _).
  - repeat constructor.
  - rewrite Hq. reflexivity.
Defined.

Lemma no_sell_no_tax_witness :
  Report.estimated_tax
    (calculate_fifo_taxes sort_by_date
       [Tx.mk 15 "BTC" "buy" (1#2) (25000#1);
        Tx.mk 16 "ETH" "Deposit" (2#1) (1600#1)]) == 0.
Proof.
  apply (no_sell_no_tax sort_by_date sort_by_date_Permutation).
  repeat constructor.
Defined.

(** * Further properties of the parser *)

(** ** [_standardize_columns] *)

Lemma rename_column_map (cols : list string) (old_name new_name : string) :
  rename_column cols (old_name, new_name)
  = map (fun c => if String.eqb c old_name then new_name else c) cols.
Proof.
  unfold rename_column. destruct (isin old_name cols) eqn:E; [reflexivity|].
  unfold isin in E. induction cols as [|c cols IH]; [reflexivity|].
  cbn [existsb map] in *. apply orb_false_iff in E. destruct E as [Ec E].
  rewrite String.eqb_sym, Ec, <- IH by exact E. reflexivity.
Qed.

(** Renamings applied one after the other, when no new name is itself
    renamed, amount to one replacement. *)
Lemma fold_rename_column (m : list (string * string)) :
  forallb (fun kv => match lookup (snd kv) m with
                     | None => true
                     | Some _ => false
                     end) m = true ->
  forall cols, fold_left rename_column m cols = map (replace m) cols.
Proof.
  induction m as [|[k v] m IH]; intros Hm cols; cbn [fold_left].
  - unfold replace. cbn [lookup]. rewrite map_id. reflexivity.
  - cbn [forallb snd lookup] in Hm. apply andb_true_iff in Hm.
    destruct Hm as [Hv Hm].
    destruct (String.eqb v k) eqn:Evk; [discriminate|].
    destruct (lookup v m) eqn:Ev; [discriminate|].
    rewrite rename_column_map, IH, map_map.
    + apply map_ext. intro c. unfold replace. cbn [lookup].
      destruct (String.eqb c k); [rewrite Ev|]; reflexivity.
    + rewrite forallb_forall in *. intros [k' v'] Hin. specialize (Hm _ Hin).
      cbn [snd lookup] in *. destruct (String.eqb v' k); [discriminate|].
      exact Hm.
Qed.

(** [_standardize_columns] renames every column by its lower-cased, trimmed
    name looked up once in the table of synonyms: a synonym becomes its
    canonical name, any other name is only lower-cased and trimmed; the rows
    are not touched. So the five canonical columns are found exactly when
    each is the name, or a synonym of the name, of a column of the file. *)
Theorem standardize_columns_renames_once (df : RawTable) :
  columns (_standardize_columns df)
  = map (fun c => replace column_mappings (strip (lower c))) (columns df)
  /\ rows (_standardize_columns df) = rows df
  /\ (_validate_columns (_standardize_columns df) = true
      <-> forall col, In col required_columns ->
            exists c, In c (columns df)
                      /\ replace column_mappings (strip (lower c)) = col).
Proof.
  assert (Hc : columns (_standardize_columns df)
               = map (fun c => replace column_mappings (strip (lower c)))
                     (columns df)).
  { unfold _standardize_columns. cbn [columns].
    rewrite fold_rename_column by reflexivity. apply map_map. }
  split; [exact Hc|]. split; [reflexivity|].
  unfold _validate_columns, missing_columns. rewrite is_empty_filter, Hc.
  rewrite negb_true_iff. split.
  - intros H col Hin.
    destruct (isin col (map (fun c => replace column_mappings (strip (lower c)))
                            (columns df))) eqn:E.
    + unfold isin in E. apply existsb_exists in E. destruct E as (x & Hx & Ex).
      apply String.eqb_eq in Ex. subst x. apply in_map_iff in Hx.
      destruct Hx as (c & Hc' & Hin'). exists c. split; assumption.
    + exfalso.
      assert (existsb (fun col => negb (isin col
                 (map (fun c => replace column_mappings (strip (lower c)))
                      (columns df)))) required_columns = true).
      { apply existsb_exists. exists col. split; [exact Hin|].
        rewrite E. reflexivity. }
      congruence.
  - intros H.
    destruct (existsb _ required_columns) eqn:E; [|reflexivity]. exfalso.
    apply existsb_exists in E. destruct E as (col & Hin & Hcol).
    apply negb_true_iff in Hcol. destruct (H col Hin) as (c & Hc' & Hr).
    assert (isin col (map (fun c => replace column_mappings (strip (lower c)))
                          (columns df)) = true).
    { unfold isin. apply existsb_exists. exists col.
      split; [|apply String.eqb_refl]. rewrite <- Hr. apply in_map_iff.
      exists c. split; [reflexivity | exact Hc']. }
    congruence.
Qed.

(** ** The cleaning of values *)

Lemma lower_ascii_idem (c : ascii) : lower_ascii (lower_ascii c) = lower_ascii c.
Proof. destruct c as [[] [] [] [] [] [] [] []]; reflexivity. Qed.

Lemma lower_idem (s : string) : lower (lower s) = lower s.
Proof.
  induction s as [|c s IH]; cbn [lower]; [reflexivity|].
  rewrite lower_ascii_idem, IH. reflexivity.
Qed.

Lemma lower_lstrip (s : string) : lower s = s -> lower (lstrip s) = lstrip s.
Proof.
  induction s as [|c s IH]; cbn [lower lstrip]; intro H; [reflexivity|].
  injection H as Hc Hs. destruct (is_space c); [apply IH; exact Hs|].
  cbn [lower]. rewrite Hc, Hs. reflexivity.
Qed.

Lemma lower_rstrip (s : string) : lower s = s -> lower (rstrip s) = rstrip s.
Proof.
  induction s as [|c s IH]; cbn [lower rstrip]; intro H; [reflexivity|].
  injection H as Hc Hs. specialize (IH Hs).
  destruct (rstrip s) as [|c' r'].
  - destruct (is_space c); [reflexivity|]. cbn [lower]. rewrite Hc. reflexivity.
  - change (lower (String c (String c' r')))
      with (String (lower_ascii c) (lower (String c' r'))).
    rewrite Hc, IH. reflexivity.
Qed.

Lemma lower_strip_lower (s : string) :
  lower (strip (lower s)) = strip (lower s).
Proof.
  unfold strip. apply lower_rstrip, lower_lstrip, lower_idem.
Qed.

(** One case of a proof by the entries of [type_mappings]. *)
Ltac synonym word k :=
  destruct (String.eqb_spec word k) as [?E|?E];
  [ subst word;
    solve [ repeat split; intros; try reflexivity; try discriminate;
            cbn [In] in *; try solve [auto 15]; try solve [exfalso; auto 15];
            repeat match goal with H : _ \/ _ |- _ => destruct H end;
            try discriminate; try contradiction ]
  | ].

Lemma clean_type_lower (c : cell) : lower (clean_type c) = clean_type c.
Proof.
  unfold clean_type.
  pose proof (lower_strip_lower (astype_str c)) as Hlow.
  set (word := strip (lower (astype_str c))) in *. clearbody word.
  unfold replace, type_mappings. cbn [lookup].
  synonym word "purchase"%string. synonym word "bought"%string.
  synonym word "acquire"%string. synonym word "deposit"%string.
  synonym word "sold"%string. synonym word "sale"%string.
  synonym word "dispose"%string. synonym word "withdrawal"%string.
  exact Hlow.
Qed.

(** [clean_type] gives buy exactly for the values that, lower-cased and
    trimmed, read buy, purchase, bought, acquire or deposit, and sell exactly
    for sell, sold, sale, dispose or withdrawal. The value it gives is in
    lower case, so the engine, which lower-cases the type again, takes a row
    for a buy or a sell exactly by these lists. Any other value is kept as
    it is, lower-cased and trimmed: the row is not dropped for its type. *)
Theorem clean_type_synonyms (c : cell) :
  let word := strip (lower (astype_str c)) in
  (clean_type c = "buy"%string
   <-> In word ["buy"; "purchase"; "bought"; "acquire"; "deposit"]%string)
  /\ (clean_type c = "sell"%string
      <-> In word ["sell"; "sold"; "sale"; "dispose"; "withdrawal"]%string)
  /\ (~ In word ["purchase"; "bought"; "acquire"; "deposit";
                 "sold"; "sale"; "dispose"; "withdrawal"]%string
      -> clean_type c = word)
  /\ lower (clean_type c) = clean_type c.
Proof.
  cbv zeta. unfold clean_type.
  pose proof (lower_strip_lower (astype_str c)) as Hlow.
  set (word := strip (lower (astype_str c))) in *. clearbody word.
  unfold replace, type_mappings. cbn [lookup].
  synonym word "purchase"%string. synonym word "bought"%string.
  synonym word "acquire"%string. synonym word "deposit"%string.
  synonym word "sold"%string. synonym word "sale"%string.
  synonym word "dispose"%string. synonym word "withdrawal"%string.
  cbn [In]. repeat split; intros; try reflexivity; try exact Hlow;
    try solve [subst; auto 15];
    repeat match goal with H : _ \/ _ |- _ => destruct H end;
    try congruence; try contradiction.
Qed.

(** ** What [parse_csv] hands to the engine *)

Lemma filter_map_In {A B : Type} (f : A -> option B) (l : list A) (y : B) :
  In y (filter_map f l) -> exists x, In x l /\ f x = Some y.
Proof.
  induction l as [|x l IH]; cbn [filter_map]; [intros []|].
  destruct (f x) as [y'|] eqn:E.
  - intros [<-|H]; [exists x; split; [left; reflexivity | exact E]|].
    destruct (IH H) as (x' & Hx & Hf). exists x'. split; [right|]; assumption.
  - intro H. destruct (IH H) as (x' & Hx & Hf).
    exists x'. split; [right|]; assumption.
Qed.

Lemma filter_map_length {A B : Type} (f : A -> option B) (l : list A) :
  (List.length (filter_map f l) <= List.length l)%nat.
Proof.
  induction l as [|x l IH]; cbn [filter_map List.length]; [lia|].
  destruct (f x); cbn [List.length]; lia.
Qed.

(** A required column that is found and not duplicated is there once. *)
Lemma columns_once (df : RawTable) (col : string) :
  _validate_columns df = true -> duplicated df col = false ->
  In col required_columns ->
  count_column col (columns df) = 1%nat.
Proof.
  intros Ev Hdup Hcol.
  unfold duplicated in Hdup. apply Nat.ltb_ge in Hdup.
  assert (Hpres : isin col (columns df) = true).
  { unfold _validate_columns, missing_columns in Ev.
    rewrite is_empty_filter in Ev. apply negb_true_iff in Ev.
    destruct (isin col (columns df)) eqn:E; [reflexivity|].
    assert (existsb (fun c => negb (isin c (columns df))) required_columns
            = true).
    { apply existsb_exists. exists col. rewrite E.
      split; [exact Hcol | reflexivity]. }
    congruence. }
  unfold count_column in Hdup |- *. unfold isin in Hpres.
  apply existsb_exists in Hpres. destruct Hpres as (x & Hx & Ex).
  assert (Hin : In x (filter (String.eqb col) (columns df)))
    by (apply filter_In; split; assumption).
  revert Hdup Hin. generalize (filter (String.eqb col) (columns df)).
  intros l Hdup Hin. destruct l as [|y l]; [contradiction|].
  cbn [List.length] in Hdup |- *. lia.
Qed.

Section ParserFacts.

Variable to_numeric : string -> option Q.
Variable to_datetime_format : string -> string -> option Z.
Variable to_datetime_coerce : list string -> list (option Z).
Variable sort_values : list Tx.t -> list Tx.t.

Hypothesis sort_values_Permutation : forall df, Permutation df (sort_values df).

Let parse :=
  parse_csv to_numeric to_datetime_format to_datetime_coerce sort_values.
Let clean := _clean_data to_numeric.
Let dates_of := _parse_dates to_datetime_format to_datetime_coerce.

Lemma clean_data_kept (df : list Raw.t) :
  Forall (fun k => 0 < Kept.quantity k /\ 0 < Kept.price k
                   /\ lower (Kept.type k) = Kept.type k)
         (clean df)
  /\ (List.length (clean df) <= List.length df)%nat.
Proof.
  subst clean. unfold _clean_data. split.
  - rewrite Forall_forall. intros k Hk. apply filter_In in Hk.
    destruct Hk as [Hk Hpos]. apply andb_true_iff in Hpos.
    destruct Hpos as [Hq Hp]. apply Qltb_lt in Hq, Hp.
    split; [exact Hq|]. split; [exact Hp|].
    apply filter_map_In in Hk. destruct Hk as (c & Hc & Hd).
    apply in_map_iff in Hc. destruct Hc as (r & <- & _).
    unfold dropna_cleaned, clean_values in Hd.
    cbn [Cleaned.date Cleaned.quantity Cleaned.price Cleaned.symbol
         Cleaned.type] in Hd.
    destruct (Raw.date r); [|discriminate].
    destruct (clean_number to_numeric (Raw.quantity r)); [|discriminate].
    destruct (clean_number to_numeric (Raw.price r)); [|discriminate].
    injection Hd as <-. cbn [Kept.type]. apply clean_type_lower.
  - eapply Nat.le_trans; [apply filter_length_le|].
    eapply Nat.le_trans; [apply filter_map_length|].
    rewrite length_map. apply Nat.le_refl.
Qed.

Lemma parse_dates_rows (df : list Kept.t) (out : list Tx.t) :
  dates_of df = Some out ->
  Forall (fun t => exists k,
              In k df /\ Tx.symbol t = Kept.symbol k
              /\ Tx.type t = Kept.type k /\ Tx.quantity t = Kept.quantity k
              /\ Tx.price t = Kept.price k) out
  /\ (List.length out <= List.length df)%nat.
Proof.
  subst dates_of. unfold _parse_dates.
  assert (H : forall p,
             Forall (fun t => exists k,
                         In k df /\ Tx.symbol t = Kept.symbol k
                         /\ Tx.type t = Kept.type k
                         /\ Tx.quantity t = Kept.quantity k
                         /\ Tx.price t = Kept.price k)
                    (filter_map (with_date p) df)).
  { intro p. rewrite Forall_forall. intros t Ht.
    apply filter_map_In in Ht. destruct Ht as (k & Hk & Hw).
    unfold with_date in Hw. destruct (p (Kept.date k)); [|discriminate].
    injection Hw as <-. exists k. repeat split; try reflexivity. exact Hk. }
  destruct (find _ _); intro E; injection E as <-.
  - split; [apply H | apply filter_map_length].
  - unfold with_dates. split.
    + rewrite Forall_forall. intros t Ht.
      apply filter_map_In in Ht. destruct Ht as ([k d] & Hk & Hw).
      apply in_combine_l in Hk. unfold with_date in Hw. cbn [fst snd] in Hw.
      destruct d; [|discriminate].
      injection Hw as <-. exists k. repeat split; try reflexivity. exact Hk.
    + eapply Nat.le_trans; [apply filter_map_length|].
      rewrite length_combine. apply Nat.le_min_l.
Qed.

Lemma parse_csv_output (raw : RawTable) (out : list Tx.t) :
  parse raw = Parsed out ->
  Forall (fun t => 0 < Tx.quantity t /\ 0 < Tx.price t
                   /\ lower (Tx.type t) = Tx.type t) out
  /\ (List.length out <= List.length (rows raw))%nat
  /\ rows raw <> []
  /\ (forall col, In col required_columns ->
        count_column col (columns (_standardize_columns raw)) = 1%nat).
Proof.
  subst parse. unfold parse_csv.
  destruct (rows raw) as [|row rs] eqn:Erows; [discriminate|].
  cbn [is_empty orb].
  destruct (is_empty (columns raw)); [discriminate|].
  destruct (_validate_columns (_standardize_columns raw)) eqn:Ev;
    cbn [negb]; [|discriminate].
  destruct (existsb (duplicated (_standardize_columns raw)) _) eqn:Ed;
    [discriminate|].
  destruct (duplicated (_standardize_columns raw) "date") eqn:Edate;
    [discriminate|].
  destruct (_parse_dates _ _ _) as [kept|] eqn:Ep; [|discriminate].
  intro H. injection H as <-.
  destruct (parse_dates_rows _ _ Ep) as [Hrows Hlen].
  destruct (clean_data_kept (raw_rows (_standardize_columns raw)))
    as [Hclean Hclen].
  split; [|split; [|split]].
  - eapply Permutation_Forall; [apply sort_values_Permutation|].
    rewrite Forall_forall in *. intros t Ht.
    destruct (Hrows t Ht) as (k & Hk & _ & Hty & Hq & Hp).
    rewrite Hty, Hq, Hp. apply Hclean. exact Hk.
  - rewrite <- (Permutation_length (sort_values_Permutation kept)).
    eapply Nat.le_trans; [exact Hlen|].
    eapply Nat.le_trans; [exact Hclen|].
    unfold raw_rows. rewrite length_map. cbn [_standardize_columns rows].
    rewrite Erows. apply Nat.le_refl.
  - discriminate.
  - intros col Hcol. apply columns_once; [exact Ev | | exact Hcol].
    destruct Hcol as [<-|Hcol]; [exact Edate|].
    destruct (duplicated (_standardize_columns raw) col) eqn:E;
      [|reflexivity].
    assert (existsb (duplicated (_standardize_columns raw))
                    ["symbol"; "type"; "quantity"; "price"]%string = true)
      by (apply existsb_exists; exists col; split; assumption).
    congruence.
Qed.

(** Every table [parse_csv] returns is fit for the engine: each row has a
    positive quantity, a positive price and a type in lower case; there are
    no more rows than the file had; and the file had rows and each of the
    five canonical columns exactly once after the renaming. [sort_values]
    is any function that returns a rearrangement of its rows. *)
Theorem parse_csv_output_is_clean (raw : RawTable) (out : list Tx.t) :
  parse raw = Parsed out ->
  Forall (fun t => 0 < Tx.quantity t /\ 0 < Tx.price t
                   /\ lower (Tx.type t) = Tx.type t) out
  /\ (List.length out <= List.length (rows raw))%nat
  /\ rows raw <> []
  /\ (forall col, In col required_columns ->
        count_column col (columns (_standardize_columns raw)) = 1%nat).
Proof. apply parse_csv_output. Qed.

(** [_parse_dates] adopts one format for the whole column: the first of
    [common_date_formats] that parses every value. Then no row is dropped
    and every date is read in that format, also where a later format would
    read the value differently (month first is tried before day first). *)
Theorem parse_dates_adopts_first_fitting_format (df : list Kept.t)
    (earlier later : list string) (date_format : string) :
  common_date_formats = earlier ++ date_format :: later ->
  Forall (fun f => format_fits to_datetime_format df f = false) earlier ->
  format_fits to_datetime_format df date_format = true ->
  exists out,
    dates_of df = Some out
    /\ Forall2 (fun k t =>
                  to_datetime_format date_format (Kept.date k) = Some (Tx.date t)
                  /\ Tx.symbol t = Kept.symbol k /\ Tx.type t = Kept.type k
                  /\ Tx.quantity t = Kept.quantity k
                  /\ Tx.price t = Kept.price k) df out.
Proof.
  intros Hlist Hearlier Hfits. subst dates_of. unfold _parse_dates.
  assert (Hfind : find (format_fits to_datetime_format df) common_date_formats
                  = Some date_format).
  { rewrite Hlist. clear Hlist. induction Hearlier as [|f l Hf _ IH].
    - cbn [app find]. rewrite Hfits. reflexivity.
    - cbn [app find]. rewrite Hf. exact IH. }
  rewrite Hfind. eexists. split; [reflexivity|].
  unfold format_fits in Hfits. clear Hfind Hlist Hearlier.
  induction df as [|k df IH]; cbn [filter_map forallb] in *; [constructor|].
  apply andb_true_iff in Hfits. destruct Hfits as [Hk Hdf].
  unfold with_date at 1.
  destruct (to_datetime_format date_format (Kept.date k)) as [d|] eqn:Ed;
    [|discriminate].
  constructor; [|apply IH; exact Hdf].
  split; [exact Ed | repeat split; reflexivity].
Qed.

End ParserFacts.

Lemma parse_csv_output_is_clean_witness :
  Forall (fun t => 0 < Tx.quantity t /\ 0 < Tx.price t
                   /\ lower (Tx.type t) = Tx.type t)
    [Tx.mk 1673740800000000000 "BTC" "buy" (5#10) (25000#1);
     Tx.mk 1673740800000000000 "ETH" "buy" (2#1) (160000#100)].
Proof.
  refine (proj1 (parse_csv_output_is_clean sample_to_numeric
                   sample_to_datetime_format sample_to_datetime_coerce
                   sort_by_date sort_by_date_Permutation table_with_tie _ _)).
  vm_compute. reflexivity.
Defined.

Lemma parse_dates_adopts_first_fitting_format_witness :
  exists out,
    _parse_dates sample_to_datetime_format sample_to_datetime_coerce
      [Kept.mk "2023-01-15" "BTC" "buy" (1#1) (1#1);
       Kept.mk "2023-02-01" "BTC" "sell" (1#1) (2#1)] = Some out
    /\ List.length out = 2%nat.
Proof.
  destruct (parse_dates_adopts_first_fitting_format sample_to_datetime_format
              sample_to_datetime_coerce
              [Kept.mk "2023-01-15" "BTC" "buy" (1#1) (1#1);
               Kept.mk "2023-02-01" "BTC" "sell" (1#1) (2#1)]
              ["%Y-%m-%d %H:%M:%S"; "%Y-%m-%d %H:%M:%S.%f"]%string
              ["%m/%d/%Y %H:%M:%S"; "%m/%d/%Y"; "%d/%m/%Y %H:%M:%S"; "%d/%m/%Y";
               "%Y-%m-%dT%H:%M:%S.%fZ"; "%Y-%m-%dT%H:%M:%SZ";
               "%Y-%m-%dT%H:%M:%S"]%string
              "%Y-%m-%d"%string) as (out & Hout & Hrows).
  - reflexivity.
  - repeat constructor.
  - reflexivity.
  - exists out. split; [exact Hout|].
    symmetry. exact (Forall2_length Hrows).
Defined.

(** ** The upload handler *)

Section UploadFacts.

Variable to_numeric : string -> option Q.
Variable to_datetime_format : string -> string -> option Z.
Variable to_datetime_coerce : list string -> list (option Z).
Variable sort_values : list Tx.t -> list Tx.t.

Hypothesis sort_values_Permutation : forall df, Permutation df (sort_values df).

Let parse :=
  parse_csv to_numeric to_datetime_format to_datetime_coerce sort_values.
Let upload :=
  process_upload to_numeric to_datetime_format to_datetime_coerce sort_values.

Lemma in_policy_of_parsed (raw : RawTable) (df : list Tx.t) :
  parse raw = Parsed df -> existsb in_policy df = existsb has_valid_type df.
Proof.
  intro Hp. subst parse.
  destruct (parse_csv_output _ _ _ _ sort_values_Permutation raw df Hp)
    as (Hpos & _).
  clear Hp. induction Hpos as [|t df (Hq & Hpr & _) _ IH]; [reflexivity|].
  cbn [existsb]. rewrite IH. unfold in_policy, positive_values.
  apply Qltb_lt in Hq, Hpr. rewrite Hq, Hpr, andb_true_r. reflexivity.
Qed.

(** What the page shows for an uploaded file. Results are calculated exactly
    when [parse_csv] returns a table with a row of type buy or sell; the table
    that reaches the engine then has only positive quantities and prices, the
    report is that of this very table, every row counted, and each holding
    shown has a positive quantity and [total_cost_basis == quantity *
    avg_cost]. A table with rows but none of type buy or sell is shown
    without results, and a failure of the parser or an empty table is
    reported as a file that could not be parsed. *)
Theorem upload_shows_results_for_valid_rows (now : Z) (raw : RawTable) :
  (forall df results,
      upload now raw = Calculated df results ->
      parse raw = Parsed df
      /\ existsb has_valid_type df = true
      /\ Forall (fun t => 0 < Tx.quantity t /\ 0 < Tx.price t) df
      /\ report results = calculate_fifo_taxes sort_values df
      /\ total_transactions results = List.length df
      /\ Forall (fun h =>
                   Holding.total_cost_basis h
                   == Holding.quantity h * Holding.avg_cost h
                   /\ 0 < Holding.quantity h)
                (Report.holdings_summary (report results)))
  /\ (forall df,
        parse raw = Parsed df -> df <> [] ->
        upload now raw
        = if existsb has_valid_type df
          then Calculated df
                 (mk_tax_results (calculate_fifo_taxes sort_values df) now
                                 (List.length df) "FIFO" get_tax_rate_info)
          else Loaded df)
  /\ (upload now raw = Could_not_parse
      <-> (exists e, parse raw = Failed e) \/ parse raw = Parsed []).
Proof.
  assert (Hshape : forall df,
             parse raw = Parsed df -> df <> [] ->
             upload now raw
             = if existsb has_valid_type df
               then Calculated df
                      (mk_tax_results (calculate_fifo_taxes sort_values df) now
                                      (List.length df) "FIFO" get_tax_rate_info)
               else Loaded df).
  { intros df Hp Hne. pose proof (in_policy_of_parsed raw df Hp) as Hpol.
    subst upload parse. unfold process_upload. rewrite Hp.
    destruct df as [|t df']; [contradiction|]. cbn [is_empty].
    unfold calculate_taxes. rewrite validate_input_in_policy, Hpol.
    destruct (existsb has_valid_type (t :: df')); reflexivity. }
  split; [|split; [exact Hshape|]].
  - intros df results Hup.
    destruct (parse raw) as [df'|e] eqn:Hp.
    2:{ subst upload parse. unfold process_upload in Hup. rewrite Hp in Hup.
        discriminate. }
    destruct df' as [|t df''].
    { subst upload parse. unfold process_upload in Hup. rewrite Hp in Hup.
      discriminate. }
    rewrite (Hshape (t :: df'') eq_refl) in Hup by discriminate.
    destruct (existsb has_valid_type (t :: df'')) eqn:Ev; [|discriminate].
    injection Hup as <- <-.
    subst parse.
    destruct (parse_csv_output _ _ _ _ sort_values_Permutation raw _ Hp)
      as (Hpos & _).
    assert (Hq : Forall (fun r => 0 < Tx.quantity r /\ 0 < Tx.price r)
                        (t :: df'')).
    { eapply Forall_impl; [|exact Hpos]. cbv beta. tauto. }
    split; [reflexivity|]. split; [exact Ev|]. split; [exact Hq|].
    split; [reflexivity|]. split; [reflexivity|].
    cbn [report]. apply (report_holdings_consistent sort_values
                           sort_values_Permutation).
    eapply Forall_impl; [|exact Hq]. cbv beta. tauto.
  - destruct (parse raw) as [df|e] eqn:Hp.
    + destruct df as [|t df'].
      * subst upload parse. unfold process_upload. rewrite Hp. cbn [is_empty].
        split; [intros _; right; reflexivity | reflexivity].
      * rewrite (Hshape (t :: df') eq_refl) by discriminate.
        split.
        -- destruct (existsb has_valid_type (t :: df')); discriminate.
        -- intros [[e He]|He]; discriminate.
    + subst upload parse. unfold process_upload. rewrite Hp.
      split; [intros _; left; exists e; reflexivity | reflexivity].
Qed.

End UploadFacts.

Lemma upload_shows_results_for_valid_rows_witness :
  exists results,
    process_upload sample_to_numeric sample_to_datetime_format
      sample_to_datetime_coerce sort_by_date 0 table_with_tie
    = Calculated
        [Tx.mk 1673740800000000000 "BTC" "buy" (5#10) (25000#1);
         Tx.mk 1673740800000000000 "ETH" "buy" (2#1) (160000#100)]
        results
    /\ total_transactions results = 2%nat.
Proof.
  destruct (upload_shows_results_for_valid_rows sample_to_numeric
              sample_to_datetime_format sample_to_datetime_coerce sort_by_date
              sort_by_date_Permutation 0 table_with_tie) as (_ & H & _).
  exists (mk_tax_results
            (calculate_fifo_taxes sort_by_date
               [Tx.mk 1673740800000000000 "BTC" "buy" (5#10) (25000#1);
                Tx.mk 1673740800000000000 "ETH" "buy" (2#1) (160000#100)])
            0 2 "FIFO" get_tax_rate_info).
  split; [|reflexivity].
  rewrite (H [Tx.mk 1673740800000000000 "BTC" "buy" (5#10) (25000#1);
              Tx.mk 1673740800000000000 "ETH" "buy" (2#1) (160000#100)]);
    [reflexivity | vm_compute; reflexivity | discriminate].
Defined.

(** ** The cleaning of numbers and symbols *)

Lemma strip_currency_signs (s : string) :
  forall skip c,
    In c (list_ascii_of_string (strip_currency skip s)) ->
    nat_of_ascii c <> 36%nat /\ nat_of_ascii c <> 44%nat.
Proof.
  induction s as [|a s IH]; intros skip c; cbn [strip_currency].
  - destruct skip; intros [].
  - destruct skip as [|k]; [|apply IH].
    destruct (Nat.eqb (nat_of_ascii a) 36 || Nat.eqb (nat_of_ascii a) 44) eqn:E;
      [apply IH|].
    destruct (String.prefix pound_sign (String a s)); [apply IH|].
    destruct (String.prefix euro_sign (String a s)); [apply IH|].
    cbn [list_ascii_of_string In]. intros [<-|H]; [|apply (IH O); exact H].
    apply orb_false_iff in E. destruct E as [E1 E2].
    apply Nat.eqb_neq in E1, E2. split; assumption.
Qed.

Lemma strip_currency_plain (s : string) :
  Forall (fun c => (nat_of_ascii c < 128)%nat
                   /\ nat_of_ascii c <> 36%nat /\ nat_of_ascii c <> 44%nat)
         (list_ascii_of_string s) ->
  strip_currency 0 s = s.
Proof.
  induction s as [|a s IH]; cbn [list_ascii_of_string strip_currency];
    intro H; [reflexivity|].
  inversion H as [|? ? (Hlt & H36 & H44) Hs]; subst.
  apply Nat.eqb_neq in H36, H44. rewrite H36, H44. cbn [orb].
  unfold pound_sign, euro_sign. cbn [String.prefix].
  destruct (ascii_dec (ascii_of_nat 194) a) as [E|_].
  { subst a. vm_compute in Hlt. lia. }
  destruct (ascii_dec (ascii_of_nat 226) a) as [E|_].
  { subst a. vm_compute in Hlt. lia. }
  rewrite (IH Hs). reflexivity.
Qed.

(** The text handed to [pd.to_numeric] holds no dollar sign and no comma,
    wherever they stood in the cell; and a cell of plain ASCII text without
    them is handed over unchanged. *)
Theorem numbers_are_stripped_of_signs (c : cell) :
  (forall a, In a (list_ascii_of_string (strip_currency 0 (astype_str c))) ->
             a <> "$"%char /\ a <> ","%char)
  /\ (Forall (fun a => (nat_of_ascii a < 128)%nat
                       /\ a <> "$"%char /\ a <> ","%char)
             (list_ascii_of_string (astype_str c)) ->
      strip_currency 0 (astype_str c) = astype_str c).
Proof.
  split.
  - intros a Ha. destruct (strip_currency_signs _ _ _ Ha) as [H36 H44].
    split; intro E; subst a; [apply H36 | apply H44]; reflexivity.
  - intro H. apply strip_currency_plain.
    eapply Forall_impl; [|exact H]. cbv beta. intros a (Hlt & Hd & Hc).
    split; [exact Hlt|].
    split; intro E; [apply Hd | apply Hc];
      rewrite <- (ascii_nat_embedding a), E; reflexivity.
Qed.

Lemma numbers_are_stripped_of_signs_witness :
  strip_currency 0 (astype_str (Some "1600.00"%string)) = "1600.00"%string.
Proof.
  apply (numbers_are_stripped_of_signs (Some "1600.00"%string)).
  repeat constructor; try (cbn; lia); discriminate.
Defined.

Lemma strip_quote_dropping (quote s : string) :
  match strip_quote quote true s with
  | EmptyString => True
  | String c _ => is_newline c = true
  end.
Proof.
  induction s as [|c s IH]; cbn [strip_quote]; [exact I|].
  destruct (is_newline c) eqn:E; [exact E | exact IH].
Qed.

Lemma prefix_nil (s : string) : String.prefix EmptyString s = true.
Proof. destruct s; reflexivity. Qed.

Lemma prefix_strip_quote (quote p : string) :
  Forall (fun a => is_newline a = false) (list_ascii_of_string p) ->
  forall s,
    String.prefix p s = false ->
    String.prefix p (strip_quote quote false s) = false.
Proof.
  induction p as [|a p IH]; intros Hp s Hs.
  - rewrite prefix_nil in Hs. discriminate.
  - cbn [list_ascii_of_string] in Hp. inversion Hp as [|? ? Ha Hp']; subst.
    destruct s as [|c s]; cbn [strip_quote]; [reflexivity|].
    destruct (is_slash_or_dash c && String.prefix quote s).
    + pose proof (strip_quote_dropping quote s) as Hd.
      destruct (strip_quote quote true s) as [|c' s']; [reflexivity|].
      cbn [String.prefix]. destruct (ascii_dec a c') as [E|_]; [|reflexivity].
      subst c'. congruence.
    + cbn [String.prefix] in Hs |- *.
      destruct (ascii_dec a c); [|reflexivity]. apply IH; assumption.
Qed.

Lemma prefix_app_true (p t s : string) :
  String.prefix (p ++ t) s = true -> String.prefix p s = true.
Proof.
  revert s. induction p as [|a p IH]; intros s H; [apply prefix_nil|].
  destruct s as [|c s]; [discriminate|].
  cbn [append String.prefix] in H |- *.
  destruct (ascii_dec a c); [apply IH; exact H | discriminate].
Qed.

Lemma strip_quote_USDT_after_USD (s : string) :
  forall dropping,
    strip_quote "USDT" false (strip_quote "USD" dropping s)
    = strip_quote "USD" dropping s.
Proof.
  induction s as [|c s IH]; intros dropping; [destruct dropping; reflexivity|].
  cbn [strip_quote]. destruct dropping.
  - destruct (is_newline c) eqn:En; [|apply IH].
    cbn [strip_quote].
    replace (is_slash_or_dash c) with false.
    + cbn [andb]. rewrite IH. reflexivity.
    + symmetry. unfold is_newline in En. apply Nat.eqb_eq in En.
      unfold is_slash_or_dash. rewrite En. reflexivity.
  - destruct (is_slash_or_dash c && String.prefix "USD" s) eqn:E; [apply IH|].
    cbn [strip_quote].
    replace (is_slash_or_dash c
             && String.prefix "USDT" (strip_quote "USD" false s))
      with false; [rewrite IH; reflexivity|].
    symmetry. apply andb_false_iff. apply andb_false_iff in E.
    destruct E as [E|E]; [left; exact E | right].
    destruct (String.prefix "USDT" (strip_quote "USD" false s)) eqn:Ep;
      [|reflexivity].
    apply (prefix_app_true "USD" "T") in Ep.
    rewrite (prefix_strip_quote "USD" "USD") in Ep;
      [discriminate | repeat constructor | exact E].
Qed.

(** The rule that removes [/USDT...] and [-USDT...] from a symbol never
    finds anything to remove: the rule for [/USD...] and [-USD...], applied
    before it, leaves no such text, and cannot bring one about by what it
    removes. The cleaned symbol is what the rules for USD and for EUR alone
    give. *)
Theorem usdt_rule_never_applies (c : cell) :
  clean_symbol c
  = strip_quote "EUR" false
      (strip_quote "USD" false (upper (strip (astype_str c)))).
Proof.
  unfold clean_symbol. rewrite strip_quote_USDT_after_USD. reflexivity.
Qed.

(** ** Instances *)

(** One unit bought at 10 and sold at 5: a loss, and no tax. *)
Lemma estimated_tax_bounds_witness :
  Report.estimated_tax
    (calculate_fifo_taxes sort_by_date
       [Tx.mk 0 "BTC" "buy" (1#1) (10#1);
        Tx.mk (10 * ns_per_day) "BTC" "sell" (1#1) (5#1)]) == 0.
Proof.
  apply (estimated_tax_bounds sort_by_date).
  split; vm_compute; discriminate.
Defined.

(** A table whose only row is a transfer. *)
Lemma validate_input_accepts_a_valid_row_witness :
  calculate_taxes sort_by_date 0 [Tx.mk 0 "BTC" "transfer" (1#1) (10#1)] = None.
Proof.
  apply (validate_input_accepts_a_valid_row
           [Tx.mk 0 "BTC" "transfer" (1#1) (10#1)]).
  repeat constructor.
Defined.

Lemma standardize_columns_renames_once_witness :
  _validate_columns (_standardize_columns table_with_tie) = true.
Proof.
  apply (standardize_columns_renames_once table_with_tie).
  intros col Hin. cbn [required_columns In] in Hin.
  destruct Hin as [<-|[<-|[<-|[<-|[<-|[]]]]]].
  - exists "Timestamp"%string. split; [cbn; tauto | reflexivity].
  - exists "Coin"%string. split; [cbn; tauto | reflexivity].
  - exists "Side"%string. split; [cbn; tauto | reflexivity].
  - exists "Size"%string. split; [cbn; tauto | reflexivity].
  - exists "Rate"%string. split; [cbn; tauto | reflexivity].
Defined.

Lemma clean_type_synonyms_witness :
  clean_type (Some " Transfer "%string) = "transfer"%string.
Proof.
  destruct (clean_type_synonyms (Some " Transfer "%string)) as (_ & _ & H & _).
  apply H. vm_compute. intro H'.
  repeat (destruct H' as [H'|H']; [discriminate H'|]).
  exact H'.
Defined.
